(** * o2-mcp-server: the bar-to-indicator analytics pipeline

    A shallow embedding of [src/tools/o2_indicators.ts] (the orchestrator
    and the alias normaliser) and of [src/lib/utils/indicators.ts] (lookback
    resolver, indicator calculator, derived fields, regime classifier),
    followed by the session store ([src/lib/o2-session-store.ts]) with the
    session tools, the order tool with the two placing functions of
    [o2-sdk.ts], and the URLs of a request ([o2-config.ts], [o2-api.ts]).

    Conventions of the embedding:
    - a JavaScript number that holds a price, a volume or an indicator value
      is an IEEE binary64 [float]; a number that holds a count, a period or a
      millisecond timestamp is an exact integer [Z], with [NaN] written as
      [None] where [parseInt] can produce it;
    - a string is a [string] of 8-bit character codes; case mapping and white
      space are those of ASCII;
    - a thrown exception is [Throw msg], where [msg] is what
      [error instanceof Error ? error.message : String(error)] evaluates to;
    - a plain object used as a dictionary is a [gmap string _];
    - the third-party libraries (talib, decimal.js, the exchange SDK, the
      REST client, fuels), the HTTP request and the clock are parameters;
    - the disk is a map from files to contents, with the file each path
      names. *)

From Stdlib Require Import ZArith List Lia Floats Ascii String DecimalString.
From stdpp Require Import base option strings gmap.

Set Warnings "-register-all".
Local Open Scope string_scope.
Local Open Scope Z_scope.

(** ** Exceptions *)

Inductive Exn (A : Type) : Type :=
| Throw (msg : string)
| Ret (a : A).
Arguments Throw {A} msg.
Arguments Ret {A} a.

Definition bindExn {A B : Type} (m : Exn A) (k : A -> Exn B) : Exn B :=
  match m with
  | Throw msg => Throw msg
  | Ret a => k a
  end.

Notation "x <-! m ; k" := (bindExn m (fun x => k))
  (at level 100, m at next level, right associativity).

(** [try { body } catch (error) { handler(message) }]. *)
Definition tryCatch {A : Type} (body : Exn A) (handler : string -> Exn A) : Exn A :=
  match body with
  | Throw msg => handler msg
  | Ret a => Ret a
  end.

(** ** JavaScript strings *)

Module JsString.

Definition code (c : ascii) : nat := nat_of_ascii c.

Definition lowerChar (c : ascii) : ascii :=
  if (65 <=? code c)%nat && (code c <=? 90)%nat
  then ascii_of_nat (code c + 32) else c.

Definition dashToUnderscore (c : ascii) : ascii :=
  if Ascii.eqb c "-" then "_"%char else c.

Fixpoint mapChars (f : ascii -> ascii) (s : string) : string :=
  match s with
  | EmptyString => EmptyString
  | String c r => String (f c) (mapChars f r)
  end.

(** [s.toLowerCase()] *)
Definition toLowerCase (s : string) : string := mapChars lowerChar s.

(** [s.replace(/-/g, "_")] *)
Definition replaceDashes (s : string) : string := mapChars dashToUnderscore s.

(** [s.startsWith(p)] *)
Definition startsWith (s p : string) : bool := String.prefix p s.

(** [s.split(sep)] for a one-character separator: never empty. *)
Fixpoint split (sep : ascii) (s : string) : list string :=
  match s with
  | EmptyString => [EmptyString]
  | String c r =>
      if Ascii.eqb c sep then EmptyString :: split sep r
      else match split sep r with
           | h :: t => String c h :: t
           | [] => [String c EmptyString]
           end
  end.

(** [parts[i]] followed by the [ToString] that [parseInt] applies to its
    argument: a missing element is [undefined], read as ["undefined"]. *)
Definition at_ (parts : list string) (i : nat) : string :=
  nth i parts "undefined".

Definition isWhiteSpace (c : ascii) : bool :=
  ((code c =? 9) || (code c =? 10) || (code c =? 11) || (code c =? 12)
   || (code c =? 13) || (code c =? 32))%nat.

Fixpoint trimStart (s : string) : string :=
  match s with
  | String c r => if isWhiteSpace c then trimStart r else s
  | EmptyString => s
  end.

Definition digitValue (c : ascii) : option Z :=
  let n := code c in
  if (48 <=? n)%nat && (n <=? 57)%nat then Some (Z.of_nat n - 48)
  else if (97 <=? n)%nat && (n <=? 122)%nat then Some (Z.of_nat n - 87)
  else if (65 <=? n)%nat && (n <=? 90)%nat then Some (Z.of_nat n - 55)
  else None.

(** The longest prefix of digits of the radix, as a number; [acc] is [None]
    until a digit has been read. *)
Fixpoint readDigits (radix : Z) (s : string) (acc : option Z) : option Z :=
  match s with
  | EmptyString => acc
  | String c r =>
      match digitValue c with
      | Some d =>
          if d <? radix
          then readDigits radix r (Some (radix * default 0 acc + d))
          else acc
      | None => acc
      end
  end.

(** [parseInt(s)] with no radix argument; [None] is [NaN]. *)
Definition parseInt (s : string) : option Z :=
  let s1 := trimStart s in
  let '(sign, s2) :=
    match s1 with
    | String "-" r => (-1, r)
    | String "+" r => (1, r)
    | _ => (1, s1)
    end in
  let '(radix, s3) :=
    match s2 with
    | String "0" (String "x" r) => (16, r)
    | String "0" (String "X" r) => (16, r)
    | _ => (10, s2)
    end in
  Z.mul sign <$> readDigits radix s3 None.

(** [n || d] for a number [n]: [NaN] and [0] are falsy. *)
Definition orElse (n : option Z) (d : Z) : Z :=
  match n with
  | Some z => if z =? 0 then d else z
  | None => d
  end.

(** Template-literal rendering of an integer. *)
Definition ofZ (z : Z) : string := NilZero.string_of_int (Z.to_int z).

End JsString.

(** ** JavaScript values *)

(** [value], [prev] and [delta] of an indicator result are typed [any]. *)
Inductive JsVal : Type :=
| VUndefined
| VNull
| VNum (x : float)
| VStr (s : string)
| VObj (fields : list (string * JsVal))
| VBuiltin (name : string). (* a member inherited from Object.prototype *)

Definition isTruthyNum (x : float) : bool :=
  negb (PrimFloat.eqb x 0%float) && PrimFloat.eqb x x.

Definition truthy (v : JsVal) : bool :=
  match v with
  | VUndefined | VNull => false
  | VNum x => isTruthyNum x
  | VStr s => negb (String.eqb s "")
  | VObj _ | VBuiltin _ => true
  end.

(** [typeof v === 'number'] *)
Definition isNumber (v : JsVal) : bool :=
  match v with VNum _ => true | _ => false end.

(** The number a value stands for in arithmetic and comparison. *)
Definition toNumber (v : JsVal) : float :=
  match v with
  | VNum x => x
  | VNull => 0%float
  | _ => nan
  end.

Fixpoint assoc {A : Type} (k : string) (l : list (string * A)) : option A :=
  match l with
  | [] => None
  | (k', a) :: r => if String.eqb k k' then Some a else assoc k r
  end.

(** [v.k] for a truthy [v]: a missing property reads as [undefined]. *)
Definition getField (v : JsVal) (k : string) : JsVal :=
  match v with
  | VObj fields => default VUndefined (assoc k fields)
  | _ => VUndefined
  end.

(** Members that every plain object inherits from [Object.prototype]. *)
Definition objectPrototype : list string :=
  [ "constructor"; "__defineGetter__"; "__defineSetter__"; "hasOwnProperty";
    "__lookupGetter__"; "__lookupSetter__"; "isPrototypeOf";
    "propertyIsEnumerable"; "toString"; "valueOf"; "__proto__";
    "toLocaleString" ].

(** [obj[key]] on an object literal with string-valued own properties. *)
Definition lookupProperty (own : list (string * string)) (key : string) : JsVal :=
  match assoc key own with
  | Some s => VStr s
  | None =>
      if existsb (String.eqb key) objectPrototype then VBuiltin key
      else VUndefined
  end.

(** ** Alias normalisation (o2_indicators.ts) *)

Definition aliases : list (string * string) :=
  [ ("rsi14", "rsi_14"); ("sma20", "sma_20"); ("sma50", "sma_50");
    ("ema12", "ema_12"); ("ema26", "ema_26"); ("mfi14", "mfi_14");
    ("cci20", "cci_20"); ("atr14", "atr_14"); ("adx14", "adx_14");
    ("plusdi", "plus_di"); ("minusdi", "minus_di");
    ("macd_12_26_9", "macd"); ("bbands_20_2", "bbands");
    ("stoch_14_3_3", "stoch") ].

Definition normalizeIndicatorName (name : string) : JsVal :=
  let lower := JsString.replaceDashes (JsString.toLowerCase name) in
  let hit := lookupProperty aliases lower in
  if truthy hit then hit else VStr lower.

(** A call [f(v)] of a function whose body starts with [param.toLowerCase()]:
    only a string has that method. *)
Definition withString {A : Type} (param : string) (v : JsVal) (f : string -> Exn A) : Exn A :=
  match v with
  | VStr s => f s
  | VUndefined => Throw "Cannot read properties of undefined (reading 'toLowerCase')"
  | VNull => Throw "Cannot read properties of null (reading 'toLowerCase')"
  | _ => Throw (param ++ ".toLowerCase is not a function")
  end.

(** ** Lookback resolver (indicators.ts) *)

Definition periodOf (normalized : string) (dflt : Z) : Z :=
  JsString.orElse
    (JsString.parseInt (JsString.at_ (JsString.split "_" normalized) 1)) dflt.

Definition getIndicatorLookback (indicator : string) : Z :=
  let normalized := JsString.replaceDashes (JsString.toLowerCase indicator) in
  if JsString.startsWith normalized "sma_" then periodOf normalized 20
  else if JsString.startsWith normalized "ema_" then periodOf normalized 12 * 2
  else if JsString.startsWith normalized "rsi_" then periodOf normalized 14 + 1
  else if String.eqb normalized "macd" || JsString.startsWith normalized "macd_" then 35
  else if JsString.startsWith normalized "bbands" then 20
  else if JsString.startsWith normalized "atr_" then 14
  else if JsString.startsWith normalized "adx_" then periodOf normalized 14 * 2
  else if String.eqb normalized "plus_di" || String.eqb normalized "minus_di" then 28
  else if String.eqb normalized "vwap" then 1
  else if JsString.startsWith normalized "cci_" then 20
  else if String.eqb normalized "stoch" then 14
  else if JsString.startsWith normalized "mfi_" then 14
  else if String.eqb normalized "obv" then 1
  else 50.

(** ** Data model (indicators.ts) *)

Record RawBar := {
  raw_buy_volume : string;
  raw_close : string;
  raw_high : string;
  raw_low : string;
  raw_open : string;
  raw_sell_volume : string;
  raw_timestamp : Z }.

Record TransformedBars := {
  open : list float;
  high : list float;
  low : list float;
  close : list float;
  volume : list float;
  timestamp : list Z }.

Inductive PriceSource := SrcClose | SrcHlc3 | SrcOhlc4.

Record TransformOptions := {
  priceDecimals : option Z;
  volumeDecimals : option Z;
  priceSource : option PriceSource }.

Inductive MetaParam := MInt (z : Z) | MStr (s : string).

Record Meta := {
  requiredBars : Z;
  providedBars : Z;
  warmupBars : Z;
  params : list (string * MetaParam) }.

(** An absent optional member ([prev], [delta]) reads as [VUndefined]. *)
Record IndicatorResult := {
  value : JsVal;
  prev : JsVal;
  delta : JsVal;
  levels : option (list (string * Z));
  meta : Meta;
  error : option string }.

(** A call [talib.execute({ name, startIdx, endIdx, <series>, <options> })]. *)
Record TalibCall := {
  t_name : string;
  t_startIdx : Z;
  t_endIdx : Z;
  t_series : list (string * list float);
  t_options : list (string * Z) }.

(** The libraries the module imports. [talib_execute] answers with the members
    of [result.result] (named output arrays) or throws; a result that carries
    no [result] member makes the first read of it throw, which is a [Throw]
    here as well. *)
Class Externals := {
  Decimal : Type;
  Decimal_new : string -> Exn Decimal;
  Decimal_ofZ : Z -> Decimal;
  Decimal_add : Decimal -> Decimal -> Decimal;
  Decimal_pow : Decimal -> Z -> Decimal;
  Decimal_div : Decimal -> Decimal -> Decimal;
  Decimal_toNumber : Decimal -> float;
  Decimal_toString : Decimal -> string;
  parseFloat : string -> float;
  talib_execute : TalibCall -> Exn (list (string * list float)) }.

(** ** Arrays of numbers *)

Definition len {A : Type} (l : list A) : Z := Z.of_nat (length l).

(** [arr[i]]: [undefined] outside the array. *)
Definition item (arr : list float) (i : Z) : JsVal :=
  if i <? 0 then VUndefined
  else match nth_error arr (Z.to_nat i) with
       | Some x => VNum x
       | None => VUndefined
       end.

(** [arr[i]] used as an operand. *)
Definition num (arr : list float) (i : nat) : float := nth i arr nan.

(** [a - b] *)
Definition jsSub (a b : JsVal) : JsVal := VNum (toNumber a - toNumber b)%float.

(** [result.result.<name>], then the first use of it, [.length]. *)
Definition output (outs : list (string * list float)) (name : string) : Exn (list float) :=
  match assoc name outs with
  | Some arr => Ret arr
  | None => Throw "Cannot read properties of undefined (reading 'length')"
  end.

Section Indicators.
Context `{Ext : Externals}.

(** ** Bar decoder *)

Definition scaleDown (v : string) (decimals : Z) : Exn float :=
  if decimals =? 0 then Ret (parseFloat v)
  else
    decimal <-! Decimal_new v;
    let divisor := Decimal_pow (Decimal_ofZ 10) decimals in
    Ret (Decimal_toNumber (Decimal_div decimal divisor)).

Definition emptyBars : TransformedBars :=
  {| open := []; high := []; low := []; close := []; volume := []; timestamp := [] |}.

Definition pushBar (pd vd : Z) (acc : TransformedBars) (bar : RawBar) : Exn TransformedBars :=
  o <-! scaleDown (raw_open bar) pd;
  h <-! scaleDown (raw_high bar) pd;
  l <-! scaleDown (raw_low bar) pd;
  c <-! scaleDown (raw_close bar) pd;
  buy <-! Decimal_new (raw_buy_volume bar);
  sell <-! Decimal_new (raw_sell_volume bar);
  let totalVolume := Decimal_add buy sell in
  v <-! scaleDown (Decimal_toString totalVolume) vd;
  Ret {| open := open acc ++ [o]; high := high acc ++ [h]; low := low acc ++ [l];
         close := close acc ++ [c]; volume := volume acc ++ [v];
         timestamp := timestamp acc ++ [raw_timestamp bar] |}.

Fixpoint pushBars (pd vd : Z) (acc : TransformedBars) (bars : list RawBar) : Exn TransformedBars :=
  match bars with
  | [] => Ret acc
  | bar :: rest => acc' <-! pushBar pd vd acc bar; pushBars pd vd acc' rest
  end.

Definition transformBarsToArrays (bars : list RawBar) (options : TransformOptions) : Exn TransformedBars :=
  pushBars (default 9 (priceDecimals options)) (default 9 (volumeDecimals options))
           emptyBars bars.

Definition getPriceArray (bars : TransformedBars) (source : PriceSource) : list float :=
  match source with
  | SrcClose => close bars
  | SrcHlc3 =>
      imap (fun i h => ((h + num (low bars) i + num (close bars) i) / 3)%float) (high bars)
  | SrcOhlc4 =>
      imap (fun i h => ((num (open bars) i + h + num (low bars) i + num (close bars) i) / 4)%float)
           (high bars)
  end.

(** ** Indicator calculator *)

(** The object literal every single-valued branch returns. *)
Definition scalarResult (values : list float) (lv : option (list (string * Z))) (m : Meta)
  : IndicatorResult :=
  let n := len values in
  {| value := item values (n - 1);
     prev := if 1 <? n then item values (n - 2) else VNull;
     delta := if 1 <? n then jsSub (item values (n - 1)) (item values (n - 2)) else VNull;
     levels := lv;
     meta := m;
     error := None |}.

Definition mkMeta (required provided warmup : Z) (ps : list (string * MetaParam)) : Meta :=
  {| requiredBars := required; providedBars := provided; warmupBars := warmup; params := ps |}.

(** The running sums of the VWAP loop after the bars before [i]. *)
Record VwapState := {
  cumulativePV : float;
  cumulativeVolume : float;
  vwapValues : list float }.

Definition typicalPrice (bars : TransformedBars) (i : nat) : float :=
  ((num (high bars) i + num (low bars) i + num (close bars) i) / 3)%float.

Definition vwapStep (bars : TransformedBars) (st : VwapState) (i : nat) : VwapState :=
  let tp := typicalPrice bars i in
  let pv := (cumulativePV st + tp * num (volume bars) i)%float in
  let vol := (cumulativeVolume st + num (volume bars) i)%float in
  {| cumulativePV := pv;
     cumulativeVolume := vol;
     vwapValues := vwapValues st ++ [if (0 <? vol)%float then (pv / vol)%float else tp] |}.

Definition vwapLoop (bars : TransformedBars) : VwapState :=
  fold_left (vwapStep bars) (seq 0 (length (close bars)))
            {| cumulativePV := 0; cumulativeVolume := 0; vwapValues := [] |}.

Definition talib (name : string) (endIdx : Z) (series : list (string * list float))
    (options : list (string * Z)) : Exn (list (string * list float)) :=
  talib_execute {| t_name := name; t_startIdx := 0; t_endIdx := endIdx;
                   t_series := series; t_options := options |}.

Definition hlc (bars : TransformedBars) : list (string * list float) :=
  [("high", high bars); ("low", low bars); ("close", close bars)].

(** The body of the [try] block of [calculateIndicator]; [None] is [null]. *)
Definition calculateIndicatorBody (indicator : string) (bars : TransformedBars)
    (priceArray : list float) : Exn (option IndicatorResult) :=
  let normalized := JsString.replaceDashes (JsString.toLowerCase indicator) in
  let n := len (close bars) in
  let endIdx := n - 1 in
  if JsString.startsWith normalized "sma_" then
    let period := periodOf normalized 20 in
    if n <? period then Ret None else
    result <-! talib "SMA" endIdx [("inReal", priceArray)] [("optInTimePeriod", period)];
    values <-! output result "outReal";
    Ret (Some (scalarResult values None
                 (mkMeta period n (period - 1) [("period", MInt period)])))
  else if JsString.startsWith normalized "ema_" then
    let period := periodOf normalized 12 in
    if n <? period then Ret None else
    result <-! talib "EMA" endIdx [("inReal", priceArray)] [("optInTimePeriod", period)];
    values <-! output result "outReal";
    Ret (Some (scalarResult values None
                 (mkMeta (period * 2) n (period * 3 / 2) [("period", MInt period)])))
  else if JsString.startsWith normalized "rsi_" then
    let period := periodOf normalized 14 in
    if n <? period + 1 then Ret None else
    result <-! talib "RSI" endIdx [("inReal", priceArray)] [("optInTimePeriod", period)];
    values <-! output result "outReal";
    Ret (Some (scalarResult values (Some [("overbought", 70); ("oversold", 30)])
                 (mkMeta (period + 1) n period [("period", MInt period)])))
  else if String.eqb normalized "macd" || JsString.startsWith normalized "macd_" then
    if n <? 35 then Ret None else
    result <-! talib "MACD" endIdx [("inReal", priceArray)]
                 [("optInFastPeriod", 12); ("optInSlowPeriod", 26); ("optInSignalPeriod", 9)];
    macdValues <-! output result "outMACD";
    signalValues <-! output result "outMACDSignal";
    histValues <-! output result "outMACDHist";
    let last (a : list float) := item a (len a - 1) in
    let before (a : list float) := item a (len a - 2) in
    Ret (Some
      {| value := VObj [("macd", last macdValues); ("signal", last signalValues);
                        ("histogram", last histValues)];
         prev := if 1 <? len macdValues
                 then VObj [("macd", before macdValues); ("signal", before signalValues);
                            ("histogram", before histValues)]
                 else VNull;
         delta := if 1 <? len macdValues
                  then VObj [("macd", jsSub (last macdValues) (before macdValues));
                             ("signal", jsSub (last signalValues) (before signalValues));
                             ("histogram", jsSub (last histValues) (before histValues))]
                  else VNull;
         levels := None;
         meta := mkMeta 35 n 33 [("fast", MInt 12); ("slow", MInt 26); ("signal", MInt 9)];
         error := None |})
  else if String.eqb normalized "bbands" || JsString.startsWith normalized "bbands_" then
    let period := 20 in
    let stdDev := 2 in
    if n <? period then Ret None else
    result <-! talib "BBANDS" endIdx [("inReal", priceArray)]
                 [("optInTimePeriod", period); ("optInNbDevUp", stdDev);
                  ("optInNbDevDn", stdDev); ("optInMAType", 0)];
    lower <-! output result "outRealLowerBand";
    upper <-! output result "outRealUpperBand";
    middle <-! output result "outRealMiddleBand";
    let last (a : list float) := item a (len a - 1) in
    let before (a : list float) := item a (len a - 2) in
    let currentPrice := toNumber (item (close bars) (n - 1)) in
    let width := (toNumber (last upper) - toNumber (last lower))%float in
    let percentB := ((currentPrice - toNumber (last lower)) / width)%float in
    let bandwidth := (width / toNumber (last middle) * 100)%float in
    Ret (Some
      {| value := VObj [("upper", last upper); ("middle", last middle); ("lower", last lower);
                        ("percentB", VNum percentB); ("bandwidth", VNum bandwidth)];
         prev := if 1 <? len upper
                 then VObj [("upper", before upper); ("middle", before middle);
                            ("lower", before lower)]
                 else VNull;
         delta := VUndefined;
         levels := None;
         meta := mkMeta period n (period - 1) [("period", MInt period); ("stdDev", MInt stdDev)];
         error := None |})
  else if JsString.startsWith normalized "atr_" then
    let period := periodOf normalized 14 in
    if n <? period then Ret None else
    result <-! talib "ATR" endIdx (hlc bars) [("optInTimePeriod", period)];
    values <-! output result "outReal";
    Ret (Some (scalarResult values None
                 (mkMeta period n (period - 1) [("period", MInt period)])))
  else if JsString.startsWith normalized "adx_" then
    let period := periodOf normalized 14 in
    if n <? period * 2 then Ret None else
    result <-! talib "ADX" endIdx (hlc bars) [("optInTimePeriod", period)];
    values <-! output result "outReal";
    Ret (Some (scalarResult values (Some [("strong", 25); ("weak", 15)])
                 (mkMeta (period * 2) n (period * 2 - 1) [("period", MInt period)])))
  else if String.eqb normalized "plus_di" || String.eqb normalized "plusdi" then
    let period := 14 in
    if n <? period * 2 then Ret None else
    result <-! talib "PLUS_DI" endIdx (hlc bars) [("optInTimePeriod", period)];
    values <-! output result "outReal";
    Ret (Some (scalarResult values None
                 (mkMeta (period * 2) n (period * 2 - 1) [("period", MInt period)])))
  else if String.eqb normalized "minus_di" || String.eqb normalized "minusdi" then
    let period := 14 in
    if n <? period * 2 then Ret None else
    result <-! talib "MINUS_DI" endIdx (hlc bars) [("optInTimePeriod", period)];
    values <-! output result "outReal";
    Ret (Some (scalarResult values None
                 (mkMeta (period * 2) n (period * 2 - 1) [("period", MInt period)])))
  else if String.eqb normalized "vwap" then
    if n <? 1 then Ret None else
    Ret (Some (scalarResult (vwapValues (vwapLoop bars)) None
                 (mkMeta 1 n 0 [("anchor", MStr "window")])))
  else if JsString.startsWith normalized "cci_" then
    let period := periodOf normalized 20 in
    if n <? period then Ret None else
    result <-! talib "CCI" endIdx (hlc bars) [("optInTimePeriod", period)];
    values <-! output result "outReal";
    Ret (Some (scalarResult values (Some [("overbought", 100); ("oversold", -100)])
                 (mkMeta period n (period - 1) [("period", MInt period)])))
  else if String.eqb normalized "stoch" then
    let period := 14 in
    if n <? period then Ret None else
    result <-! talib "STOCH" endIdx (hlc bars)
                 [("optInFastK_Period", 14); ("optInSlowK_Period", 3); ("optInSlowK_MAType", 0);
                  ("optInSlowD_Period", 3); ("optInSlowD_MAType", 0)];
    kValues <-! output result "outSlowK";
    dValues <-! output result "outSlowD";
    let last (a : list float) := item a (len a - 1) in
    let before (a : list float) := item a (len a - 2) in
    Ret (Some
      {| value := VObj [("k", last kValues); ("d", last dValues)];
         prev := if 1 <? len kValues
                 then VObj [("k", before kValues); ("d", before dValues)] else VNull;
         delta := if 1 <? len kValues
                  then VObj [("k", jsSub (last kValues) (before kValues));
                             ("d", jsSub (last dValues) (before dValues))]
                  else VNull;
         levels := Some [("overbought", 80); ("oversold", 20)];
         meta := mkMeta period n (period - 1)
                   [("fastK", MInt 14); ("slowK", MInt 3); ("slowD", MInt 3)];
         error := None |})
  else if JsString.startsWith normalized "mfi_" then
    let period := periodOf normalized 14 in
    if n <? period then Ret None else
    result <-! talib "MFI" endIdx (hlc bars ++ [("volume", volume bars)])
                 [("optInTimePeriod", period)];
    values <-! output result "outReal";
    Ret (Some (scalarResult values (Some [("overbought", 80); ("oversold", 20)])
                 (mkMeta period n (period - 1) [("period", MInt period)])))
  else if String.eqb normalized "obv" then
    if n <? 1 then Ret None else
    result <-! talib "OBV" endIdx [("inReal", close bars); ("volume", volume bars)] [];
    values <-! output result "outReal";
    Ret (Some (scalarResult values None (mkMeta 1 n 0 [])))
  else Ret None.

(** The result the [catch] clause builds. *)
Definition errorResult (indicator : string) (bars : TransformedBars) (msg : string)
  : IndicatorResult :=
  {| value := VNull; prev := VUndefined; delta := VUndefined; levels := None;
     meta := mkMeta (getIndicatorLookback indicator) (len (close bars)) 0 [];
     error := Some msg |}.

Definition calculateIndicator (indicator : string) (bars : TransformedBars)
    (options : TransformOptions) : Exn (option IndicatorResult) :=
  let source := default SrcClose (priceSource options) in
  let priceArray := getPriceArray bars source in
  tryCatch (calculateIndicatorBody indicator bars priceArray)
           (fun msg => Ret (Some (errorResult indicator bars msg))).

End Indicators.

(** ** Derived field engine *)

(** [indicators[key]]: a missing key is [undefined], a stored [null] is
    [null]; both are falsy, a stored result is truthy. *)
Definition entry (indicators : gmap string (option IndicatorResult)) (key : string)
  : option IndicatorResult :=
  mjoin (indicators !! key).

(** [a > b] *)
Definition gt (a b : float) : bool := (b <? a)%float.

Definition computeDerivedFields (indicators : gmap string (option IndicatorResult))
    (currentPrice : float) : gmap string float :=
  let derived : gmap string float := ∅ in
  let atr := entry indicators "atr_14" in
  let sma20 := entry indicators "sma_20" in
  let vwap := entry indicators "vwap" in
  match atr with
  | Some atr =>
      if truthy (value atr) && isNumber (value atr) && gt (toNumber (value atr)) 0
      then
        let derived :=
          match sma20 with
          | Some sma20 =>
              if truthy (value sma20) && isNumber (value sma20)
              then <["dist_sma20_atr" :=
                       ((currentPrice - toNumber (value sma20)) / toNumber (value atr))%float]>
                     derived
              else derived
          | None => derived
          end in
        match vwap with
        | Some vwap =>
            if truthy (value vwap) && isNumber (value vwap)
            then <["dist_vwap_atr" :=
                     ((currentPrice - toNumber (value vwap)) / toNumber (value atr))%float]>
                   derived
            else derived
        | None => derived
        end
      else derived
  | None => derived
  end.

(** ** Regime classifier *)

Inductive TrendBias := bullish | bearish | neutral.
Inductive TrendStrength := strong | moderate | weak.
Inductive Momentum :=
  positive_strong | positive_weakening | negative_strong | negative_weakening
| momentum_neutral.
Inductive Volatility := vol_low | vol_moderate | vol_high.

Record MicroSummary := {
  trendBias : TrendBias;
  trendStrength : TrendStrength;
  momentum : Momentum;
  volatility : Volatility;
  inputs : list string }.

(** [r && typeof r.value === 'number'], giving the number. *)
Definition numericValue (r : option IndicatorResult) : option float :=
  match r with
  | Some r => match value r with VNum x => Some x | _ => None end
  | None => None
  end.

(** [inputs.push(tag)] *)
Definition push (inputs : list string) (tag : string) : list string :=
  (inputs ++ [tag])%list.

(** The first block: the SMA cross sets the initial bias. *)
Definition smaBias (sma20 sma50 : option IndicatorResult) (currentPrice : float)
    (st : TrendBias * list string) : TrendBias * list string :=
  match numericValue sma20, numericValue sma50 with
  | Some s20, Some s50 =>
      if gt currentPrice s20 && gt s20 s50
      then (bullish, push (snd st) "price>sma20>sma50")
      else if (currentPrice <? s20)%float && (s20 <? s50)%float
      then (bearish, push (snd st) "price<sma20<sma50")
      else st
  | _, _ => st
  end.

(** The second block: the DI comparison moves the bias one step. *)
Definition diBias (plusDI minusDI : option IndicatorResult)
    (st : TrendBias * list string) : TrendBias * list string :=
  match numericValue plusDI, numericValue minusDI with
  | Some p, Some m =>
      if gt p m
      then ((match fst st with bearish => neutral | neutral => bullish | b => b end),
            push (snd st) "+di>-di")
      else ((match fst st with bullish => neutral | neutral => bearish | b => b end),
            push (snd st) "+di<-di")
  | _, _ => st
  end.

Definition adxStrength (adx : option IndicatorResult)
    (st : TrendStrength * list string) : TrendStrength * list string :=
  match numericValue adx with
  | Some a =>
      if gt a 25 then (strong, push (snd st) "adx>25")
      else if gt a 15 then (moderate, push (snd st) "adx>15")
      else (weak, push (snd st) "adx<15")
  | None => st
  end.

Definition momentumOf (rsi macd : option IndicatorResult)
    (st : Momentum * list string) : Momentum * list string :=
  match rsi, macd with
  | Some rsi, Some macd =>
      if isNumber (value rsi) && truthy (value macd)
         && isNumber (getField (value macd) "histogram")
      then
        let rsiDelta :=
          if truthy (delta rsi) && isNumber (delta rsi) then toNumber (delta rsi)
          else 0%float in
        let macdHist := toNumber (getField (value macd) "histogram") in
        let macdDelta :=
          if truthy (delta macd) && isNumber (getField (delta macd) "histogram")
          then toNumber (getField (delta macd) "histogram") else 0%float in
        if gt (toNumber (value rsi)) 50 && gt macdHist 0
        then (if gt macdDelta 0 then positive_strong else positive_weakening,
              push (snd st) (if gt macdDelta 0 then "macd_hist>0_rising" else "macd_hist>0_falling"))
        else if (toNumber (value rsi) <? 50)%float && (macdHist <? 0)%float
        then (if (macdDelta <? 0)%float then negative_strong else negative_weakening,
              push (snd st) (if (macdDelta <? 0)%float then "macd_hist<0_falling"
                         else "macd_hist<0_rising"))
        else st
      else st
  | _, _ => st
  end.

Definition volatilityOf (atr bbands : option IndicatorResult) (currentPrice : float)
    (st : Volatility * list string) : Volatility * list string :=
  match atr, bbands with
  | Some atr, Some bbands =>
      if isNumber (value atr) && truthy (value bbands)
      then
        let atrPct := (toNumber (value atr) / currentPrice * 100)%float in
        let bandwidth :=
          if isNumber (getField (value bbands) "bandwidth")
          then toNumber (getField (value bbands) "bandwidth") else 0%float in
        if (atrPct <? 1)%float && (bandwidth <? 2)%float
        then (vol_low, push (snd st) "low_volatility")
        else if gt atrPct 3 || gt bandwidth 5
        then (vol_high, push (snd st) "high_volatility")
        else (vol_moderate, snd st)
      else st
  | _, _ => st
  end.

Definition generateMicroSummary (indicators : gmap string (option IndicatorResult))
    (currentPrice : float) : MicroSummary :=
  let sma20 := entry indicators "sma_20" in
  let sma50 := entry indicators "sma_50" in
  let adx := entry indicators "adx_14" in
  let plusDI := entry indicators "plus_di" in
  let minusDI := entry indicators "minus_di" in
  let rsi := entry indicators "rsi_14" in
  let macd := entry indicators "macd" in
  let atr := entry indicators "atr_14" in
  let bbands := entry indicators "bbands" in
  let '(trendBias1, inputs1) := smaBias sma20 sma50 currentPrice (neutral, []) in
  let '(trendBias2, inputs2) := diBias plusDI minusDI (trendBias1, inputs1) in
  let '(trendStrength1, inputs3) := adxStrength adx (weak, inputs2) in
  let '(momentum1, inputs4) := momentumOf rsi macd (momentum_neutral, inputs3) in
  let '(volatility1, inputs5) := volatilityOf atr bbands currentPrice (vol_moderate, inputs4) in
  {| trendBias := trendBias2; trendStrength := trendStrength1; momentum := momentum1;
     volatility := volatility1; inputs := inputs5 |}.

(** ** Pipeline orchestrator (o2_indicators.ts) *)

Inductive Mode := Snapshot | Window.
Inductive Resolution := R1m | R5m | R15m | R30m | R1h | R4h | R1d | R1w.
Inductive Period := P1h | P24h | P7d | P30d.
Inductive VwapAnchor := AnchorSession | AnchorWindow.

(** [z.union([z.number(), z.string()])] for a timestamp. *)
Inductive TimeParam := TNum (z : Z) | TStr (s : string).

(** The validated arguments of the tool; [None] is an omitted optional. *)
Record Request := {
  marketId : string;
  indicators : list string;
  resolution : Resolution;
  mode : option Mode;
  period : option Period;
  from : option TimeParam;
  to : option TimeParam;
  windowSize : option Z;
  req_priceSource : option PriceSource;
  vwapAnchor : option VwapAnchor;
  strict : option bool;
  asOf : option TimeParam;
  microSummary : option bool;
  includeIncompleteLastBar : option bool;
  apiBaseUrl : option string }.

(** [Math.max()] of no argument is [-Infinity]. *)
Inductive Count := NegInfinity | Finite (z : Z).

Definition countMax (a b : Count) : Count :=
  match a, b with
  | Finite x, Finite y => Finite (Z.max x y)
  | NegInfinity, c | c, NegInfinity => c
  end.

Definition mathMax (l : list Z) : Count :=
  fold_left (fun acc z => countMax acc (Finite z)) l NegInfinity.

Definition countAdd (a : Count) (z : Z) : Count :=
  match a with NegInfinity => NegInfinity | Finite x => Finite (x + z) end.

(** [n < c] *)
Definition ltCount (n : Z) (c : Count) : bool :=
  match c with NegInfinity => false | Finite x => n <? x end.

Definition showCount (c : Count) : string :=
  match c with NegInfinity => "-Infinity" | Finite x => JsString.ofZ x end.

Inductive Warning :=
| AS_OF_TIMESTAMP (asOf : option Z)
| INCOMPLETE_LAST_BAR (timestamp : Z)
| INSUFFICIENT_BARS (required : Count) (available : Z).

(** The query of [GET /v1/bars]; a time that is [NaN] is [None]. *)
Record Query := {
  q_market_id : string;
  q_resolution : Resolution;
  q_count_back : Count;
  q_from : option Z;
  q_to : option Z;
  q_apiBaseUrl : option string }.

(** [response.data], what [parseResponse] made of the body: [null] for an
    empty body (and for the JSON text null), a value without a usable [bars]
    member, or one with bars. *)
Inductive ResponseData :=
| DataNull
| DataNoBars
| DataBars (bars : list RawBar).

Record RawResponse := {
  ok : bool;
  status : Z;
  statusText : string;
  data : ResponseData }.

(** What the orchestrator reads from outside: the clock at its two reads and
    the market data provider. *)
Record World := {
  now_period : Z;
  now_trim : Z;
  o2RequestRaw : Query -> Exn RawResponse }.

Record SnapshotOutput := {
  s_marketId : string;
  s_resolution : Resolution;
  s_from : option Z;
  s_to : option Z;
  s_bars : Z;
  s_asOf : option Z;
  s_currentPrice : JsVal;
  s_currentPriceSource : string;
  s_warnings : list Warning;
  s_indicators : gmap string IndicatorResult;
  s_derived : gmap string float;
  s_microSummary : option MicroSummary }.

Record WindowOutput := {
  w_marketId : string;
  w_resolution : Resolution;
  w_from : option Z;
  w_to : option Z;
  w_bars : Z;
  w_warnings : list Warning;
  w_timestamps : list Z;
  w_indicators : gmap string JsVal }.

(** The payload handed to [toToolResponse]: [{ ok: false, error, status? }]
    or [{ ok: true, data }]. *)
Inductive ToolPayload :=
| Failure (message : string) (httpStatus : option Z)
| SnapshotData (out : SnapshotOutput)
| WindowData (out : WindowOutput).

Definition periods : list (string * Z) :=
  [ ("1h", 60 * 60 * 1000); ("24h", 24 * 60 * 60 * 1000);
    ("7d", 7 * 24 * 60 * 60 * 1000); ("30d", 30 * 24 * 60 * 60 * 1000) ].

Definition periodKey (p : Period) : string :=
  match p with P1h => "1h" | P24h => "24h" | P7d => "7d" | P30d => "30d" end.

Definition normalizePeriod (now : Z) (p : Period) : Z * Z :=
  let duration := JsString.orElse (assoc (periodKey p) periods) (24 * 60 * 60 * 1000) in
  (now - duration, now).

Definition resolutionMs : list (string * Z) :=
  [ ("1m", 60 * 1000); ("5m", 5 * 60 * 1000); ("15m", 15 * 60 * 1000);
    ("30m", 30 * 60 * 1000); ("1h", 60 * 60 * 1000); ("4h", 4 * 60 * 60 * 1000);
    ("1d", 24 * 60 * 60 * 1000); ("1w", 7 * 24 * 60 * 60 * 1000) ].

Definition resolutionKey (r : Resolution) : string :=
  match r with
  | R1m => "1m" | R5m => "5m" | R15m => "15m" | R30m => "30m"
  | R1h => "1h" | R4h => "4h" | R1d => "1d" | R1w => "1w"
  end.

Definition barDuration (r : Resolution) : Z :=
  JsString.orElse (assoc (resolutionKey r) resolutionMs) (5 * 60 * 1000).

(** [typeof t === "string" ? parseInt(t) : t] *)
Definition timeOf (t : TimeParam) : option Z :=
  match t with TNum z => Some z | TStr s => JsString.parseInt s end.

(** The block guarded by [!includeIncompleteLastBar && bars.length > 0]. *)
Definition trimIncompleteLastBar (includeIncomplete : bool) (r : Resolution) (now : Z)
    (bars : list RawBar) (warnings : list Warning) : list RawBar * list Warning :=
  if negb includeIncomplete && (0 <? len bars) then
    match last bars with
    | Some lastBar =>
        let isComplete := barDuration r <=? now - raw_timestamp lastBar in
        if negb isComplete
        then (removelast bars, warnings ++ [INCOMPLETE_LAST_BAR (raw_timestamp lastBar)])%list
        else (bars, warnings)
    | None => (bars, warnings)
    end
  else (bars, warnings).

(** [arr.slice(start)] *)
Definition sliceFrom {A : Type} (arr : list A) (start : Z) : list A :=
  let k := if start <? 0 then Z.max (len arr + start) 0 else Z.min start (len arr) in
  drop (Z.to_nat k) arr.

(** A non-empty message is truthy. *)
Definition hasError (r : IndicatorResult) : bool :=
  match error r with Some msg => negb (String.eqb msg "") | None => false end.

Definition isNull (v : JsVal) : bool :=
  match v with VNull => true | _ => false end.

(** The entry of [formattedIndicators] built from a result. *)
Definition formatIndicator (r : IndicatorResult) : IndicatorResult :=
  if hasError r
  then {| value := VNull; prev := VUndefined; delta := VUndefined;
          levels := levels r; meta := meta r; error := error r |}
  else {| value := value r; prev := prev r; delta := delta r;
          levels := levels r; meta := meta r; error := None |}.

(** The entry of [windowIndicators] built from a result. *)
Definition windowValue (r : option IndicatorResult) : JsVal :=
  match r with
  | Some r => if negb (isNull (value r)) && negb (hasError r) then value r else VNull
  | None => VNull
  end.

(** The result stored for an indicator whose calculation returned [null]. *)
Definition insufficientResult (indicator : string) (nbars : Z) : IndicatorResult :=
  {| value := VNull; prev := VUndefined; delta := VUndefined; levels := None;
     meta := mkMeta (getIndicatorLookback indicator) nbars 0 [];
     error := Some "INSUFFICIENT_BARS" |}.

Fixpoint mapExn {A B : Type} (f : A -> Exn B) (l : list A) : Exn (list B) :=
  match l with
  | [] => Ret []
  | a :: r => b <-! f a; bs <-! mapExn f r; Ret (b :: bs)
  end.

Section Orchestrator.
Context `{Ext : Externals}.

(** The loop over [normalizedIndicators]: [inl] is an early [return] of the
    tool, [inr] the filled [calculatedIndicators]. *)
Fixpoint calculateAll (strictMode : bool) (tb : TransformedBars) (options : TransformOptions)
    (nbars : Z) (names : list string) (calculated : gmap string (option IndicatorResult))
  : Exn (ToolPayload + gmap string (option IndicatorResult)) :=
  match names with
  | [] => Ret (inr calculated)
  | indicator :: rest =>
      result <-! calculateIndicator indicator tb options;
      match result with
      | None =>
          if strictMode
          then Ret (inl (Failure ("Failed to calculate indicator: " ++ indicator
                                    ++ ". Insufficient data.") None))
          else calculateAll strictMode tb options nbars rest
                 (<[indicator := Some (insufficientResult indicator nbars)]> calculated)
      | Some r =>
          if hasError r && strictMode
          then Ret (inl (Failure ("Failed to calculate indicator: " ++ indicator
                                    ++ ". Error: " ++ default "" (error r)) None))
          else calculateAll strictMode tb options nbars rest (<[indicator := Some r]> calculated)
      end
  end.

(** The [try] block from the bars kept after trimming: the check of their
    number, the decoder, the loop over the indicators and the answer. *)
Definition afterTrim (req : Request) (names : list string) (maxLookback : Count)
    (fromTs toTs : option Z) (bars : list RawBar) (warnings : list Warning)
  : Exn ToolPayload :=
  let strictMode := default false (strict req) in
  let source := default SrcClose (req_priceSource req) in
  let options := {| priceDecimals := None; volumeDecimals := None; priceSource := Some source |} in
  if ltCount (len bars) maxLookback && strictMode
  then Ret (Failure ("Insufficient bars. Required: " ++ showCount maxLookback
                       ++ ", Available: " ++ JsString.ofZ (len bars)) None)
  else
    let warnings :=
      if ltCount (len bars) maxLookback
      then (warnings ++ [INSUFFICIENT_BARS maxLookback (len bars)])%list
      else warnings in
    transformedBars <-! transformBarsToArrays bars options;
    let currentPrice := item (close transformedBars) (len (close transformedBars) - 1) in
    looped <-! calculateAll strictMode transformedBars options (len bars) names ∅;
    match looped with
    | inl early => Ret early
    | inr calculated =>
        match default Snapshot (mode req) with
        | Snapshot =>
            Ret (SnapshotData
              {| s_marketId := marketId req;
                 s_resolution := resolution req;
                 s_from := fromTs;
                 s_to := toTs;
                 s_bars := len bars;
                 s_asOf := toTs;
                 s_currentPrice := currentPrice;
                 s_currentPriceSource := "last_close";
                 s_warnings := warnings;
                 s_indicators := omap (fmap formatIndicator) calculated;
                 s_derived := computeDerivedFields calculated (toNumber currentPrice);
                 s_microSummary :=
                   if default false (microSummary req)
                   then Some (generateMicroSummary calculated (toNumber currentPrice))
                   else None |})
        | Window =>
            let timestamps :=
              sliceFrom (timestamp transformedBars) (- default 100 (windowSize req)) in
            Ret (WindowData
              {| w_marketId := marketId req;
                 w_resolution := resolution req;
                 w_from := fromTs;
                 w_to := toTs;
                 w_bars := len timestamps;
                 w_warnings := warnings;
                 w_timestamps := timestamps;
                 w_indicators := windowValue <$> calculated |})
        end
    end.

(** The [try] block from the point where the provider has answered. *)
Definition afterFetch (w : World) (req : Request) (names : list string) (maxLookback : Count)
    (fromTs toTs : option Z) (warnings : list Warning) (response : RawResponse)
  : Exn ToolPayload :=
  if negb (ok response)
  then Ret (Failure ("API error: " ++ statusText response) (Some (status response)))
  else
    fetched <-! match data response with
                | DataNull => Throw "Cannot read properties of null (reading 'bars')"
                | DataNoBars => Ret []
                | DataBars bars => Ret bars
                end;
    if len fetched =? 0 then Ret (Failure "No bars returned from API" None) else
    let '(bars, warnings) :=
      trimIncompleteLastBar (default false (includeIncompleteLastBar req)) (resolution req)
                            (now_trim w) fetched warnings in
    afterTrim req names maxLookback fromTs toTs bars warnings.

(** [from], [to] and the warnings known before the provider is asked. *)
Definition resolveWindow (w : World) (req : Request) : option Z * option Z * list Warning :=
  let '(fromTs, toTs) :=
    match from req, to req with
    | Some f, Some t => (timeOf f, timeOf t)
    | _, _ =>
        let '(f, t) := normalizePeriod (now_period w) (default P24h (period req)) in
        (Some f, Some t)
    end in
  match asOf req with
  | Some a => (fromTs, timeOf a, [AS_OF_TIMESTAMP (timeOf a)])
  | None => (fromTs, toTs, [])
  end.

Definition buildQuery (w : World) (req : Request) (maxLookback : Count) : Query :=
  let '(fromTs, toTs, _) := resolveWindow w req in
  let requiredBars :=
    match default Snapshot (mode req) with
    | Window => countAdd maxLookback (default 100 (windowSize req))
    | Snapshot => countAdd maxLookback 50
    end in
  {| q_market_id := marketId req; q_resolution := resolution req;
     q_count_back := requiredBars; q_from := fromTs; q_to := toTs;
     q_apiBaseUrl := apiBaseUrl req |}.

(** [normalizedIndicators.map((ind) => getIndicatorLookback(ind))], keeping
    each name next to its lookback; a name that is not a string throws. *)
Definition lookbacks (normalizedIndicators : list JsVal) : Exn (list (string * Z)) :=
  mapExn (fun v => withString "indicator" v (fun s => Ret (s, getIndicatorLookback s)))
         normalizedIndicators.

(** The tool: its outcome ([Throw] is a rejected promise) and the requests it
    sent to the provider, in order. *)
Definition o2_indicators (w : World) (req : Request) : Exn ToolPayload * list Query :=
  if 20 <? len (indicators req)
  then (Ret (Failure "Too many indicators requested. Maximum is 20." None), [])
  else
    let normalizedIndicators := map normalizeIndicatorName (indicators req) in
    match lookbacks normalizedIndicators with
    | Throw msg => (Throw msg, [])
    | Ret named =>
        let maxLookback := mathMax (map snd named) in
        let '(fromTs, toTs, warnings) := resolveWindow w req in
        let query := buildQuery w req maxLookback in
        (tryCatch (response <-! o2RequestRaw w query;
                   afterFetch w req (map fst named) maxLookback fromTs toTs warnings response)
                  (fun msg => Ret (Failure msg None)),
         [query])
    end.

End Orchestrator.

(** ** The specification's own formulas

    Each definition below follows the words of the specification; the
    properties compare it with what the code computes. *)

(** The resolution table: milliseconds per bar. *)
Definition resolutionDurationMs (r : Resolution) : Z :=
  match r with
  | R1m => 60000 | R5m => 300000 | R15m => 900000 | R30m => 1800000
  | R1h => 3600000 | R4h => 14400000 | R1d => 86400000 | R1w => 604800000
  end.

(** Trend bias, first rule: price above SMA20 above SMA50 is bullish, price
    below SMA20 below SMA50 is bearish, anything else stays neutral. *)
Definition smaCross (price sma20 sma50 : float) : TrendBias :=
  if gt price sma20 && gt sma20 sma50 then bullish
  else if (price <? sma20)%float && (sma20 <? sma50)%float then bearish
  else neutral.

(** Trend bias, second rule: +DI above -DI moves the bias one step toward
    bullish, otherwise one step toward bearish. *)
Definition diAdjust (plusDI minusDI : float) (bias : TrendBias) : TrendBias :=
  if gt plusDI minusDI
  then match bias with bearish => neutral | neutral => bullish | bullish => bullish end
  else match bias with bullish => neutral | neutral => bearish | bearish => bearish end.

(** Distance of the price from a reference value in ATR units, as the
    specification words it: present when the ATR is a number above 0 and the
    reference is a number. *)
Definition distanceAsSpecified (currentPrice : float) (atr ref : option IndicatorResult)
  : option float :=
  match numericValue atr, numericValue ref with
  | Some a, Some x => if gt a 0 then Some ((currentPrice - x) / a)%float else None
  | _, _ => None
  end.

(** The same distance as the code grants it: the reference must also be a
    truthy number, neither zero nor NaN. *)
Definition distanceInAtr (currentPrice : float) (atr ref : option IndicatorResult)
  : option float :=
  match numericValue atr, numericValue ref with
  | Some a, Some x =>
      if gt a 0 && isTruthyNum x then Some ((currentPrice - x) / a)%float else None
  | _, _ => None
  end.

(** The sums of the VWAP formula over the first [n] bars, added in bar order. *)
Definition sumPV (bars : TransformedBars) (n : nat) : float :=
  fold_left (fun acc i => (acc + typicalPrice bars i * num (volume bars) i)%float) (seq 0 n) 0%float.

Definition sumVolume (bars : TransformedBars) (n : nat) : float :=
  fold_left (fun acc i => (acc + num (volume bars) i)%float) (seq 0 n) 0%float.

(** The same request with another [vwapAnchor]. *)
Definition withVwapAnchor (a : option VwapAnchor) (req : Request) : Request :=
  {| marketId := marketId req; indicators := indicators req; resolution := resolution req;
     mode := mode req; period := period req; from := from req; to := to req;
     windowSize := windowSize req; req_priceSource := req_priceSource req;
     vwapAnchor := a; strict := strict req; asOf := asOf req;
     microSummary := microSummary req;
     includeIncompleteLastBar := includeIncompleteLastBar req;
     apiBaseUrl := apiBaseUrl req |}.

(** ** Reading an answer of the tool *)

(** The warnings attached to a successful answer. *)
Definition payloadWarnings (p : ToolPayload) : option (list Warning) :=
  match p with
  | Failure _ _ => None
  | SnapshotData out => Some (s_warnings out)
  | WindowData out => Some (w_warnings out)
  end.

(** What a successful answer reports as the value of an indicator: the
    [value] member of its entry in snapshot mode, its entry in window mode. *)
Definition reportedValue (p : ToolPayload) (name : string) : option JsVal :=
  match p with
  | Failure _ _ => None
  | SnapshotData out => value <$> (s_indicators out !! name)
  | WindowData out => w_indicators out !! name
  end.

(** The result the orchestrator stores for an indicator in lenient mode. *)
Definition storedResult `{Ext : Externals} (tb : TransformedBars) (options : TransformOptions)
    (nbars : Z) (indicator : string) : IndicatorResult :=
  match calculateIndicator indicator tb options with
  | Ret (Some r) => r
  | _ => insufficientResult indicator nbars
  end.

(** The options the orchestrator hands to the decoder and the calculator. *)
Definition requestOptions (req : Request) : TransformOptions :=
  {| priceDecimals := None; volumeDecimals := None;
     priceSource := Some (default SrcClose (req_priceSource req)) |}.

(** ** An instance of the libraries, for running the pipeline

    Decimals are exact fractions of integers, read from strings of digits with
    an optional sign; on integers below 2^53 the quotient they convert to a
    number is the correctly rounded one, as in decimal.js; [parseFloat]
    reads integers only. No talib function is available: every call fails. *)

Module Reference.

Definition allDigits (s : string) : bool :=
  negb (String.eqb s "")
  && forallb (fun c => (48 <=? JsString.code c)%nat && (JsString.code c <=? 57)%nat)
             (list_ascii_of_string s).

Definition readDecimal (s : string) : Exn (Z * Z) :=
  let '(sign, digits) :=
    match s with String "-" r => (-1, r) | _ => (1, s) end in
  if allDigits digits
  then Ret (sign * default 0 (JsString.readDigits 10 digits None), 1)
  else Throw ("[DecimalError] Invalid argument: " ++ s).

Definition floatOfZ (z : Z) : float :=
  if z <? 0 then (- PrimFloat.of_uint63 (Uint63.of_Z (- z)))%float
  else PrimFloat.of_uint63 (Uint63.of_Z z).

#[export] Instance externals : Externals := {|
  Decimal := Z * Z;
  Decimal_new := readDecimal;
  Decimal_ofZ := fun z => (z, 1);
  Decimal_add := fun a b => (fst a * snd b + fst b * snd a, snd a * snd b);
  Decimal_pow := fun a n => (fst a ^ n, snd a ^ n);
  Decimal_div := fun a b => (fst a * snd b, snd a * fst b);
  Decimal_toNumber := fun a => (floatOfZ (fst a) / floatOfZ (snd a))%float;
  Decimal_toString := fun a => JsString.ofZ (fst a / snd a);
  parseFloat := fun s => floatOfZ (default 0 (JsString.parseInt s));
  talib_execute := fun call => Throw ("talib: " ++ t_name call ++ " is not available") |}.

(** A bar whose open, high, low and close are [price] and whose two volumes
    are [vol], all in units of 10^-9. *)
Definition flatBar (price vol : string) (ts : Z) : RawBar :=
  {| raw_buy_volume := vol; raw_close := price; raw_high := price; raw_low := price;
     raw_open := price; raw_sell_volume := vol; raw_timestamp := ts |}.

(** A provider that answers every query with the same bars. *)
Definition serving (bars : list RawBar) (now : Z) : World :=
  {| now_period := now; now_trim := now;
     o2RequestRaw := fun _ =>
       Ret {| ok := true; status := 200; statusText := "OK"; data := DataBars bars |} |}.

Definition request (names : list string) (m : Mode) (strictMode : bool) : Request :=
  {| marketId := "0xmarket"; indicators := names; resolution := R5m; mode := Some m;
     period := None; from := None; to := None; windowSize := None;
     req_priceSource := None; vwapAnchor := None; strict := Some strictMode; asOf := None;
     microSummary := None; includeIncompleteLastBar := Some true; apiBaseUrl := None |}.

(** The tool and the calculator over these libraries. *)
Definition run (w : World) (req : Request) : Exn ToolPayload * list Query :=
  o2_indicators (Ext := externals) w req.

Definition calculate (indicator : string) (bars : TransformedBars) (options : TransformOptions)
  : Exn (option IndicatorResult) :=
  calculateIndicator (Ext := externals) indicator bars options.

End Reference.

(** The answer of the rule that limits the number of indicators: the failure,
    and no query sent. *)
Definition tooManyIndicators : Exn ToolPayload * list Query :=
  (Ret (Failure "Too many indicators requested. Maximum is 20." None), []).

(** ** Sample inputs *)

Definition plain (x : float) : option IndicatorResult :=
  Some {| value := VNum x; prev := VNull; delta := VNull; levels := None;
          meta := mkMeta 0 0 0 []; error := None |}.

(** The scenario of the specification: price 110 over SMA20 105 over SMA50
    100, +DI 30 over -DI 20. *)
Definition scenario : gmap string (option IndicatorResult) :=
  <["sma_20" := plain 105%float]> (<["sma_50" := plain 100%float]>
    (<["plus_di" := plain 30%float]> (<["minus_di" := plain 20%float]> ∅))).

(** An ATR of 1 and an SMA20 that is the number 0. *)
Definition zeroSma : gmap string (option IndicatorResult) :=
  <["atr_14" := plain 1%float]> (<["sma_20" := plain 0%float]> ∅).

(** Two flat bars at 3 and 6 with no volume at all, and one bar with high 5,
    low 2, close 3 and volume 11. *)
Definition zeroVolumeBars : TransformedBars :=
  {| open := [3; 6]%float; high := [3; 6]%float; low := [3; 6]%float;
     close := [3; 6]%float; volume := [0; 0]%float; timestamp := [1000; 2000] |}.

Definition oneBar : TransformedBars :=
  {| open := [2]%float; high := [5]%float; low := [2]%float; close := [3]%float;
     volume := [11]%float; timestamp := [1000] |}.

Definition noOptions : TransformOptions :=
  {| priceDecimals := None; volumeDecimals := None; priceSource := None |}.

(** The VWAP formula of the specification over all the bars. *)
Definition vwapAsSpecified (bars : TransformedBars) : float :=
  (sumPV bars (length (close bars)) / sumVolume bars (length (close bars)))%float.

(** Two fetched bars, at 3 and at 4, each with volume 1 + 1. *)
Definition twoBars : list RawBar :=
  [ Reference.flatBar "3000000000" "1000000000" 1000;
    Reference.flatBar "4000000000" "1000000000" 2000 ].

Definition twoDecoded : TransformedBars :=
  {| open := [3; 4]%float; high := [3; 4]%float; low := [3; 4]%float;
     close := [3; 4]%float; volume := [2; 2]%float; timestamp := [1000; 2000] |}.

(** An ATR of 2 and an SMA20 of 100. *)
Definition atrAndSma : gmap string (option IndicatorResult) :=
  <["atr_14" := plain 2%float]> (<["sma_20" := plain 100%float]> ∅).

(** ** Auxiliary notions for the properties *)

(** [c] occurs in [s]. *)
Fixpoint hasChar (c : ascii) (s : string) : bool :=
  match s with
  | EmptyString => false
  | String a r => Ascii.eqb a c || hasChar c r
  end.

(** The sign and the radix prefix that [parseInt] strips, on their own. *)
Definition signOf (s1 : string) : Z * string :=
  match s1 with
  | String "-" r => (-1, r)
  | String "+" r => (1, r)
  | _ => (1, s1)
  end.

Definition radixOf (s2 : string) : Z * string :=
  match s2 with
  | String "0" (String "x" r) => (16, r)
  | String "0" (String "X" r) => (16, r)
  | _ => (10, s2)
  end.

(** The VWAP after bar [k]: the quotient of the running sums when the running
    volume is above 0, else the typical price of bar [k]. *)
Definition vwapAt (bars : TransformedBars) (k : nat) : float :=
  if (0 <? sumVolume bars (S k))%float
  then (sumPV bars (S k) / sumVolume bars (S k))%float
  else typicalPrice bars k.

(** The summary of a market about which nothing is known. *)
Definition defaultSummary : MicroSummary :=
  {| trendBias := neutral; trendStrength := weak; momentum := momentum_neutral;
     volatility := vol_moderate; inputs := [] |}.

(** [tag] is among the inputs of a summary. *)
Definition hasTag (s : MicroSummary) (tag : string) : bool :=
  existsb (String.eqb tag) (inputs s).

(** All six series of [tb] have [n] entries. *)
Definition sameLength (tb : TransformedBars) (n : nat) : Prop :=
  length (open tb) = n /\ length (high tb) = n /\ length (low tb) = n
  /\ length (close tb) = n /\ length (volume tb) = n /\ length (timestamp tb) = n.

(** The name the normaliser looks up: lower case, dashes as underscores. *)
Definition normalizedName (name : string) : string :=
  JsString.replaceDashes (JsString.toLowerCase name).

(** What an answer reports for a stored result, by mode. *)
Definition reportedOf (m : Mode) (r : IndicatorResult) : JsVal :=
  match m with
  | Snapshot => value (formatIndicator r)
  | Window => windowValue (Some r)
  end.

(** The successful answer the orchestrator builds from the bars kept, the
    warnings, the decoded series and the stored results. *)
Definition successPayload (req : Request) (fromTs toTs : option Z) (bars : list RawBar)
    (warnings : list Warning) (tb : TransformedBars)
    (calculated : gmap string (option IndicatorResult)) : ToolPayload :=
  let currentPrice := item (close tb) (len (close tb) - 1) in
  match default Snapshot (mode req) with
  | Snapshot =>
      SnapshotData
        {| s_marketId := marketId req;
           s_resolution := resolution req;
           s_from := fromTs;
           s_to := toTs;
           s_bars := len bars;
           s_asOf := toTs;
           s_currentPrice := currentPrice;
           s_currentPriceSource := "last_close";
           s_warnings := warnings;
           s_indicators := omap (fmap formatIndicator) calculated;
           s_derived := computeDerivedFields calculated (toNumber currentPrice);
           s_microSummary :=
             if default false (microSummary req)
             then Some (generateMicroSummary calculated (toNumber currentPrice))
             else None |}
  | Window =>
      let timestamps := sliceFrom (timestamp tb) (- default 100 (windowSize req)) in
      WindowData
        {| w_marketId := marketId req;
           w_resolution := resolution req;
           w_from := fromTs;
           w_to := toTs;
           w_bars := len timestamps;
           w_warnings := warnings;
           w_timestamps := timestamps;
           w_indicators := windowValue <$> calculated |}
  end.

(** The warnings once the number of bars kept is known. *)
Definition withInsufficient (maxLookback : Count) (bars : list RawBar)
    (warnings : list Warning) : list Warning :=
  if ltCount (len bars) maxLookback
  then (warnings ++ [INSUFFICIENT_BARS maxLookback (len bars)])%list
  else warnings.

(** The preset spans in milliseconds. *)
Definition periodDurationMs (p : Period) : Z :=
  match p with
  | P1h => 3600000 | P24h => 86400000 | P7d => 604800000 | P30d => 2592000000
  end.

(** The warning a request with [asOf] starts with. *)
Definition asOfWarnings (req : Request) : list Warning :=
  match asOf req with
  | Some t => [AS_OF_TIMESTAMP (timeOf t)]
  | None => []
  end.

(** The same request with another [includeIncompleteLastBar]. *)
Definition withIncludeIncomplete (flag : bool) (req : Request) : Request :=
  {| marketId := marketId req; indicators := indicators req; resolution := resolution req;
     mode := mode req; period := period req; from := from req; to := to req;
     windowSize := windowSize req; req_priceSource := req_priceSource req;
     vwapAnchor := vwapAnchor req; strict := strict req; asOf := asOf req;
     microSummary := microSummary req;
     includeIncompleteLastBar := Some flag;
     apiBaseUrl := apiBaseUrl req |}.

(** ** Session store (o2-session-store.ts, o2-config.ts)

    The store is a JSON file holding [{ sessions: { <id>: session } }]. The
    object [sessions] is the list of its own properties in the order of their
    creation, which is the order [Object.values] follows for keys that are
    not array indices, as UUIDs are. A file whose [sessions] member is truthy
    holds what the type [SessionStore] says. *)

Record StoredSession := {
  sessionId : string;
  sessionPrivateKey : string;
  sessionAddress : option string;
  tradeAccountId : option string;
  createdAt : string;
  expiryMs : option Z }.

(** What a path holds: nothing that parses (missing file, not JSON); JSON
    without a usable [sessions] member, for which listing the sessions of the
    parsed value throws [listError] or, when [None], lists nothing; or a
    store. *)
Inductive FileContent :=
| Unreadable
| NoSessions (listError : option string)
| Store (sessions : list (string * StoredSession)).

(** The disk: the file each path names (two spellings of a path, a relative
    and an absolute one, or a link and its target name one file; writing a
    store changes no name), what each file holds, and the paths that cannot
    be written with the error writing them throws. *)
Record Disk := {
  fileOf : string -> string;
  files : gmap string FileContent;
  writeError : string -> option string }.

(** What [fs.readFile(path)] and [JSON.parse] find at a path. *)
Definition readFile (disk : Disk) (path : string) : option FileContent :=
  files disk !! fileOf disk path.

(** The process around the store: the environment variable, the default path
    under the home directory, the next UUID and the current ISO time. *)
Record SessionEnv := {
  envSessionStorePath : option string;
  defaultSessionStorePath : string;
  randomUUID : string;
  nowIso : string }.

(** [s.trim()] *)
Fixpoint trimEndAux (s : string) : string * bool :=
  match s with
  | EmptyString => (EmptyString, true)
  | String c r =>
      let '(r', blank) := trimEndAux r in
      if blank && JsString.isWhiteSpace c then (EmptyString, true)
      else (String c r', false)
  end.

Definition trim (s : string) : string := fst (trimEndAux (JsString.trimStart s)).

(** [override?.trim()] when that is truthy. *)
Definition trimmedOverride (override : option string) : option string :=
  match override with
  | Some o => if String.eqb (trim o) "" then None else Some (trim o)
  | None => None
  end.

Definition resolveSessionStorePath (env : SessionEnv) (override : option string) : string :=
  match trimmedOverride override with
  | Some directOverride => directOverride
  | None =>
      match trimmedOverride (envSessionStorePath env) with
      | Some envPath => envPath
      | None => defaultSessionStorePath env
      end
  end.

Definition readStore (disk : Disk) (filePath : string) : list (string * StoredSession) :=
  match readFile disk filePath with
  | Some (Store sessions) => sessions
  | _ => []
  end.

Definition writeStore (disk : Disk) (filePath : string)
    (sessions : list (string * StoredSession)) : Exn unit * Disk :=
  match writeError disk filePath with
  | Some msg => (Throw msg, disk)
  | None =>
      (Ret tt, {| fileOf := fileOf disk;
                  files := <[fileOf disk filePath := Store sessions]> (files disk);
                  writeError := writeError disk |})
  end.

(** A value read from [sessions[key]]. *)
Inductive SessionRef :=
| OwnSession (session : StoredSession)
| InheritedMember (name : string).

(** [sessions[key]]: an own property, else a member of [Object.prototype],
    else [undefined]. *)
Definition sessionsGet (sessions : list (string * StoredSession)) (key : string)
  : option SessionRef :=
  match assoc key sessions with
  | Some session => Some (OwnSession session)
  | None =>
      if existsb (String.eqb key) objectPrototype then Some (InheritedMember key) else None
  end.

Fixpoint replaceOwn (key : string) (session : StoredSession)
    (sessions : list (string * StoredSession)) : list (string * StoredSession) :=
  match sessions with
  | [] => []
  | (k, s) :: rest =>
      if String.eqb key k then (k, session) :: rest
      else (k, s) :: replaceOwn key session rest
  end.

(** [sessions[key] = session]: an own property is replaced in its place;
    otherwise the key "__proto__" sets the prototype and creates no property,
    and any other key becomes the last property. *)
Definition sessionsSet (sessions : list (string * StoredSession)) (key : string)
    (session : StoredSession) : list (string * StoredSession) :=
  match assoc key sessions with
  | Some _ => replaceOwn key session sessions
  | None =>
      if String.eqb key "__proto__" then sessions
      else (sessions ++ [(key, session)])%list
  end.

Record SaveParams := {
  p_sessionPrivateKey : string;
  p_sessionAddress : option string;
  p_tradeAccountId : option string;
  p_expiryMs : option Z;
  p_storePath : option string }.

Definition newSession (env : SessionEnv) (params : SaveParams) : StoredSession :=
  {| sessionId := randomUUID env;
     sessionPrivateKey := p_sessionPrivateKey params;
     sessionAddress := p_sessionAddress params;
     tradeAccountId := p_tradeAccountId params;
     createdAt := nowIso env;
     expiryMs := p_expiryMs params |}.

(** [saveSession]: the outcome, [{ sessionId, storePath }] or what writing
    threw, and the disk afterwards. *)
Definition saveSession (env : SessionEnv) (disk : Disk) (params : SaveParams)
  : Exn (string * string) * Disk :=
  let storePath := resolveSessionStorePath env (p_storePath params) in
  let sessions := readStore disk storePath in
  let id := randomUUID env in
  let sessions := sessionsSet sessions id (newSession env params) in
  match writeStore disk storePath sessions with
  | (Throw msg, disk') => (Throw msg, disk')
  | (Ret _, disk') => (Ret (id, storePath), disk')
  end.

Definition getSession (env : SessionEnv) (disk : Disk) (id : string)
    (storePath : option string) : Exn (SessionRef * string) :=
  let resolvedPath := resolveSessionStorePath env storePath in
  match sessionsGet (readStore disk resolvedPath) id with
  | Some session => Ret (session, resolvedPath)
  | None => Throw ("Session not found for session_id: " ++ id)
  end.

(** [session.sessionPrivateKey]; [None] is [undefined]. *)
Definition getSessionPrivateKey (env : SessionEnv) (disk : Disk) (id : string)
    (storePath : option string) : Exn (option string) :=
  found <-! getSession env disk id storePath;
  match fst found with
  | OwnSession session => Ret (Some (sessionPrivateKey session))
  | InheritedMember _ => Ret None
  end.

(** [session.expiryMs && session.expiryMs > now] *)
Definition expiresAfter (now : Z) (session : StoredSession) : bool :=
  match expiryMs session with
  | Some e => negb (e =? 0) && (now <? e)
  | None => false
  end.

Definition isFor (account : string) (session : StoredSession) : bool :=
  match tradeAccountId session with
  | Some t => String.eqb t account
  | None => false
  end.

Definition findValidSessionForTradeAccount (env : SessionEnv) (disk : Disk) (now : Z)
    (account : string) (storePath : option string) : option StoredSession :=
  let resolvedPath := resolveSessionStorePath env storePath in
  List.find (fun session => isFor account session && expiresAfter now session)
            (map snd (readStore disk resolvedPath)).

(** ** The session tools (o2_session_get.ts, o2_sessions_list.ts) *)

(** [session.expiryMs ? session.expiryMs > now : true] *)
Definition isActiveAt (now : Z) (expiry : option Z) : bool :=
  match expiry with
  | Some e => if e =? 0 then true else now <? e
  | None => true
  end.

Record SessionInfo := {
  info_sessionId : option string;
  info_sessionAddress : option string;
  info_tradeAccountId : option string;
  info_createdAt : option string;
  info_expiryMs : option Z;
  info_isActive : bool }.

Inductive SessionGetAnswer :=
| GetFailure (message : string)
| GetOk (storePath : string) (session : SessionInfo).

Definition o2SessionGet (env : SessionEnv) (disk : Disk) (now : Z) (id : string)
    (sessionStorePath : option string) : SessionGetAnswer :=
  match getSession env disk id sessionStorePath with
  | Throw msg => GetFailure msg
  | Ret (OwnSession session, storePath) =>
      GetOk storePath
        {| info_sessionId := Some (sessionId session);
           info_sessionAddress := sessionAddress session;
           info_tradeAccountId := tradeAccountId session;
           info_createdAt := Some (createdAt session);
           info_expiryMs := expiryMs session;
           info_isActive := isActiveAt now (expiryMs session) |}
  | Ret (InheritedMember _, storePath) =>
      GetOk storePath
        {| info_sessionId := None; info_sessionAddress := None;
           info_tradeAccountId := None; info_createdAt := None;
           info_expiryMs := None; info_isActive := true |}
  end.

Record ListedSession := {
  l_sessionId : string;
  l_createdAt : string;
  l_expiryMs : option Z;
  l_isActive : bool }.

Inductive SessionsListAnswer :=
| ListFailure (message : string)
| ListOk (totalSessions : Z) (sessions : list ListedSession).

(** [!session.expiryMs || session.expiryMs > now] *)
Definition notExpired (now : Z) (session : StoredSession) : bool :=
  match expiryMs session with
  | Some e => (e =? 0) || (now <? e)
  | None => true
  end.

Definition listed (now : Z) (session : StoredSession) : ListedSession :=
  {| l_sessionId := sessionId session; l_createdAt := createdAt session;
     l_expiryMs := expiryMs session; l_isActive := isActiveAt now (expiryMs session) |}.

Definition o2SessionsList (env : SessionEnv) (disk : Disk) (now : Z)
    (sessionStorePath : option string) (includeExpired : option bool) : SessionsListAnswer :=
  let storePath := resolveSessionStorePath env sessionStorePath in
  let stored : Exn (list StoredSession) :=
    match readFile disk storePath with
    | Some (Store sessions) => Ret (map snd sessions)
    | Some (NoSessions (Some msg)) => Throw msg
    | Some (NoSessions None) => Ret []
    | Some Unreadable | None => Ret []
    end in
  match stored with
  | Throw msg => ListFailure msg
  | Ret all =>
      let sessions :=
        map (listed now)
            (List.filter (fun session =>
                       if default false includeExpired then true else notExpired now session)
                    all) in
      ListOk (len sessions) sessions
  end.

(** Every key of the store is the [sessionId] of its session. *)
Definition keyedById (sessions : list (string * StoredSession)) : Prop :=
  Forall (fun entry => sessionId (snd entry) = fst entry) sessions.

(** A disk with no file, on which every path names a file of its own and
    every write succeeds, and a process with the default store path. *)
Definition emptyDisk : Disk :=
  {| fileOf := fun path => path; files := ∅; writeError := fun _ => None |}.


Definition sampleEnv : SessionEnv :=
  {| envSessionStorePath := None;
     defaultSessionStorePath := "/home/user/.o2-mcp/sessions.json";
     randomUUID := "3f2b8c1e-0000-4000-8000-000000000001";
     nowIso := "2025-01-01T00:00:00.000Z" |}.

Definition sampleParams : SaveParams :=
  {| p_sessionPrivateKey := "0xkey"; p_sessionAddress := Some "0xaddress";
     p_tradeAccountId := Some "0xaccount"; p_expiryMs := Some 2000;
     p_storePath := None |}.

(** ** Placing an order (o2_place_order.ts)

    The tool is read with the two functions of o2-sdk.ts it calls as
    parameters; their own embedding follows in [O2Sdk]. Their answer is
    [{ response, side, orderType, scaledPrice, scaledQuantity }], where
    [response] may be missing, [response.orders] may be no array and an order
    may carry no [order_id]. *)

Inductive Side := Buy | Sell.
Inductive OrderType := Spot | Market | FillOrKill | PostOnly.

(** A value of [z.union([z.number(), z.string()])]. *)
Inductive Amount :=
| AmountNumber (x : float)
| AmountString (s : string).

Record PlaceOrderParams := {
  o_tradeAccountId : string;
  o_pair : string * string;
  o_sessionId : string;
  o_side : Side;
  o_orderType : option OrderType;
  o_rawPrice : option Amount;
  o_rawQuantity : option Amount;
  o_price : option Amount;
  o_quantity : option Amount;
  o_apiBaseUrl : option string;
  o_providerUrl : option string;
  o_sessionStorePath : option string }.

(** What both submitting functions are given. *)
Record Submission := {
  sub_tradeAccountId : string;
  sub_pair : string * string;
  sub_sessionPrivateKey : option string;
  sub_side : Side;
  sub_orderType : option OrderType;
  sub_apiBaseUrl : option string;
  sub_providerUrl : option string }.

Inductive PlaceCall :=
| ViaRestApi (order : Submission) (rawPrice rawQuantity : Amount)
| ViaSdk (order : Submission) (price quantity : Amount).

Record OrderResponse := {
  tx_id : option string;
  orders : option (list (option string)) }.

Record Placement := {
  response : option OrderResponse;
  placedSide : Side;
  placedOrderType : OrderType;
  scaledPrice : option string;
  scaledQuantity : option string }.

Record Exchange := {
  placeOrderWithRestApi : Submission -> Amount -> Amount -> Exn Placement;
  placeOrderWithSdk : Submission -> Amount -> Amount -> Exn Placement }.

Record OrderAnswer := {
  ans_tx_id : option string;
  ans_order_ids : list string;
  ans_scaled_price : option string;
  ans_scaled_quantity : option string }.

(** [x && { key: x }], spread: a member only for a string that is not empty. *)
Definition whenTruthy (x : option string) : option string :=
  match x with
  | Some s => if String.eqb s "" then None else Some s
  | None => None
  end.

(** [orders.map((order) => order.order_id).filter((orderId) => orderId)] *)
Definition orderIdsOf (orderList : list (option string)) : list string :=
  omap whenTruthy orderList.

(** [rawPrice !== undefined && rawQuantity !== undefined], with the two values. *)
Definition bothGiven (a b : option Amount) : option (Amount * Amount) :=
  match a, b with
  | Some x, Some y => Some (x, y)
  | _, _ => None
  end.

(** The tool's answer for an order the exchange took. *)
Definition orderAnswer (result : Placement) : OrderAnswer :=
  let orderIds :=
    match response result with
    | Some r => match orders r with Some l => orderIdsOf l | None => [] end
    | None => []
    end in
  {| ans_tx_id := response result ≫= tx_id;
     ans_order_ids := orderIds;
     ans_scaled_price := whenTruthy (scaledPrice result);
     ans_scaled_quantity := whenTruthy (scaledQuantity result) |}.

(** [o2PlaceOrder]: what it returns or throws, and the calls it made to the
    exchange, in order. *)
Definition o2PlaceOrder (env : SessionEnv) (disk : Disk) (exchange : Exchange)
    (params : PlaceOrderParams) : Exn OrderAnswer * list PlaceCall :=
  match getSessionPrivateKey env disk (o_sessionId params) (o_sessionStorePath params) with
  | Throw msg => (Throw msg, [])
  | Ret resolvedSessionKey =>
      let useRawValues := bothGiven (o_rawPrice params) (o_rawQuantity params) in
      let useScaledValues := bothGiven (o_price params) (o_quantity params) in
      let order :=
        {| sub_tradeAccountId := o_tradeAccountId params;
           sub_pair := o_pair params;
           sub_sessionPrivateKey := resolvedSessionKey;
           sub_side := o_side params;
           sub_orderType := o_orderType params;
           sub_apiBaseUrl := o_apiBaseUrl params;
           sub_providerUrl := o_providerUrl params |} in
      match useRawValues, useScaledValues with
      | None, None =>
          (Throw "Either (rawPrice and rawQuantity) or (price and quantity) must be provided",
           [])
      | Some _, Some _ =>
          (Throw "Cannot use both raw and pre-scaled values. Use either (rawPrice and rawQuantity) OR (price and quantity)",
           [])
      | Some (rawPrice, rawQuantity), None =>
          (result <-! placeOrderWithRestApi exchange order rawPrice rawQuantity;
           Ret (orderAnswer result),
           [ViaRestApi order rawPrice rawQuantity])
      | None, Some (price, quantity) =>
          (result <-! placeOrderWithSdk exchange order price quantity;
           Ret (orderAnswer result),
           [ViaSdk order price quantity])
      end
  end.

(** The session key a call to the exchange was given. *)
Definition keyOf (call : PlaceCall) : option string :=
  match call with
  | ViaRestApi order _ _ | ViaSdk order _ _ => sub_sessionPrivateKey order
  end.

(** Exactly one of the pairs (rawPrice, rawQuantity), (price, quantity) is
    complete. *)
Definition onePairGiven (params : PlaceOrderParams) : bool :=
  xorb (bool_decide (is_Some (bothGiven (o_rawPrice params) (o_rawQuantity params))))
       (bool_decide (is_Some (bothGiven (o_price params) (o_quantity params)))).

(** A store that holds one session whose expiry has passed at time 1000. *)
Definition expiredSession : StoredSession :=
  {| sessionId := "old"; sessionPrivateKey := "0xoldkey"; sessionAddress := None;
     tradeAccountId := Some "0xaccount"; createdAt := "2024-01-01T00:00:00.000Z";
     expiryMs := Some 500 |}.

Definition activeSession : StoredSession :=
  {| sessionId := "new"; sessionPrivateKey := "0xnewkey"; sessionAddress := None;
     tradeAccountId := Some "0xaccount"; createdAt := "2024-06-01T00:00:00.000Z";
     expiryMs := Some 2000 |}.

Definition twoSessionsDisk : Disk :=
  {| fileOf := fun path => path;
     files := {[ "/home/user/.o2-mcp/sessions.json" :=
                   Store [("old", expiredSession); ("new", activeSession)] ]};
     writeError := fun _ => None |}.

(** ** Base URL and path of a request (o2-config.ts, o2-api.ts) *)

Record ApiEnv := {
  envApiBaseUrl : option string;
  envNetwork : option string }.

(** [baseUrl.replace(/\/+$/, "")]: the slashes at the end are removed. *)
Fixpoint normalizeBaseUrl (baseUrl : string) : string :=
  match baseUrl with
  | EmptyString => EmptyString
  | String c r =>
      let r' := normalizeBaseUrl r in
      if Ascii.eqb c "/" && String.eqb r' "" then EmptyString else String c r'
  end.

Definition resolveApiBaseUrl (env : ApiEnv) (override : option string) : string :=
  match trimmedOverride override with
  | Some directOverride => normalizeBaseUrl directOverride
  | None =>
      match trimmedOverride (envApiBaseUrl env) with
      | Some envBaseUrl => normalizeBaseUrl envBaseUrl
      | None =>
          match envNetwork env with
          | Some network =>
              if String.eqb (JsString.toLowerCase (trim network)) "testnet"
              then "https://api.devnet.o2.app"
              else "https://api.o2.app"
          | None => "https://api.o2.app"
          end
      end
  end.

Definition normalizePath (path : string) : string :=
  if JsString.startsWith path "/" then path else "/" ++ path.

(** [`${baseUrl}${path}`], the URL of a request before its query. *)
Definition requestUrl (env : ApiEnv) (override : option string) (path : string) : string :=
  resolveApiBaseUrl env override ++ normalizePath path.

(** The string ends with a slash. *)
Fixpoint endsWithSlash (s : string) : bool :=
  match s with
  | EmptyString => false
  | String c EmptyString => Ascii.eqb c "/"
  | String _ r => endsWithSlash r
  end.

(** The string is made of slashes only. *)
Fixpoint onlySlashes (s : string) : bool :=
  match s with
  | EmptyString => true
  | String c r => Ascii.eqb c "/" && onlySlashes r
  end.

Definition mainnet : ApiEnv := {| envApiBaseUrl := None; envNetwork := None |}.

(** ** The guards of the calculator (indicators.ts) *)

(** The guard of each branch of [calculateIndicator]: the number of bars
    below which the branch answers [null] before any library is called;
    [None] for a name no branch handles, which is answered [null] whatever
    the bars. *)
Definition minimumBars (indicator : string) : option Z :=
  let normalized := JsString.replaceDashes (JsString.toLowerCase indicator) in
  if JsString.startsWith normalized "sma_" then Some (periodOf normalized 20)
  else if JsString.startsWith normalized "ema_" then Some (periodOf normalized 12)
  else if JsString.startsWith normalized "rsi_" then Some (periodOf normalized 14 + 1)
  else if String.eqb normalized "macd" || JsString.startsWith normalized "macd_" then Some 35
  else if String.eqb normalized "bbands" || JsString.startsWith normalized "bbands_"
       then Some 20
  else if JsString.startsWith normalized "atr_" then Some (periodOf normalized 14)
  else if JsString.startsWith normalized "adx_" then Some (periodOf normalized 14 * 2)
  else if String.eqb normalized "plus_di" || String.eqb normalized "plusdi" then Some (14 * 2)
  else if String.eqb normalized "minus_di" || String.eqb normalized "minusdi" then Some (14 * 2)
  else if String.eqb normalized "vwap" then Some 1
  else if JsString.startsWith normalized "cci_" then Some (periodOf normalized 20)
  else if String.eqb normalized "stoch" then Some 14
  else if JsString.startsWith normalized "mfi_" then Some (periodOf normalized 14)
  else if String.eqb normalized "obv" then Some 1
  else None.

(** [nbars] bars are too few for the guard of the indicator. *)
Definition tooFewBars (indicator : string) (nbars : Z) : bool :=
  match minimumBars indicator with
  | Some minimum => nbars <? minimum
  | None => true
  end.

(** ** A talib that has no output yet

    TA-Lib's ATR looks back [optInTimePeriod] bars: over a series that is no
    longer it answers with an empty [outReal]. The instance below is the
    reference one with that answer; every other call fails as before. *)

Module WarmingUp.

Definition execute (call : TalibCall) : Exn (list (string * list float)) :=
  if String.eqb (t_name call) "ATR"
     && (t_endIdx call - t_startIdx call + 1
         <=? default 0 (assoc "optInTimePeriod" (t_options call)))
  then Ret [("outReal", [])]
  else Throw ("talib: " ++ t_name call ++ " is not available").

Definition externals : Externals := {|
  Decimal := @Decimal Reference.externals;
  Decimal_new := @Decimal_new Reference.externals;
  Decimal_ofZ := @Decimal_ofZ Reference.externals;
  Decimal_add := @Decimal_add Reference.externals;
  Decimal_pow := @Decimal_pow Reference.externals;
  Decimal_div := @Decimal_div Reference.externals;
  Decimal_toNumber := @Decimal_toNumber Reference.externals;
  Decimal_toString := @Decimal_toString Reference.externals;
  parseFloat := @parseFloat Reference.externals;
  talib_execute := execute |}.

Definition run (w : World) (req : Request) : Exn ToolPayload * list Query :=
  o2_indicators (Ext := externals) w req.

End WarmingUp.

(** ** More sample data *)

(** Fourteen fetched bars at 3, one per second. *)
Definition fourteenBars : list RawBar :=
  map (fun i => Reference.flatBar "3000000000" "1000000000" (1000 * Z.of_nat i)) (seq 1 14).

Definition fourteenDecoded : TransformedBars :=
  {| open := repeat 3%float 14; high := repeat 3%float 14; low := repeat 3%float 14;
     close := repeat 3%float 14; volume := repeat 2%float 14;
     timestamp := map (fun i => 1000 * Z.of_nat i) (seq 1 14) |}.

(** A provider whose answer is ok with an empty body. *)
Definition emptyBody : World :=
  {| now_period := 5000000; now_trim := 5000000;
     o2RequestRaw := fun _ =>
       Ret {| ok := true; status := 200; statusText := "OK"; data := DataNull |} |}.

(** Three stored results, none with a number: a calculation that failed, one
    that had too few bars, and a MACD, whose value is an object. *)
Definition failedAndStructured : gmap string (option IndicatorResult) :=
  <["rsi_14" := Some (errorResult "rsi_14" twoDecoded
                        "talib: RSI is not available")]>
    (<["atr_14" := Some (insufficientResult "atr_14" 2)]>
       (<["macd" := Some {| value := VObj [("macd", VNum 1); ("signal", VNum 2);
                                           ("histogram", VNum (-1))];
                            prev := VNull; delta := VNull; levels := None;
                            meta := mkMeta 35 40 33 []; error := None |}]> ∅)).

(** ** The two ways of placing an order (o2-sdk.ts, scaling.ts)

    The exchange SDK, the fuels wallet, the REST client with its signer,
    decimal.js and the conversions built into JavaScript are libraries: each
    of their operations is a parameter that answers or throws, and a run
    records the calls it makes, in order. Console output is left out, except
    that building its text can throw. *)

Record Asset := {
  symbol : string;
  decimals : Z;
  max_precision : Z }.

Record MarketResponse := {
  contract_id : string;
  base : Asset;
  quote : Asset }.

(** A [FuelSessionSigner]: its [privateKey] and its [address.toString()]. *)
Record Signer := {
  signerPrivateKey : string;
  signerAddress : string }.

(** A call to a library that reaches the outside. *)
Inductive LibraryCall :=
| TraderAccountCreate (api provider : string) (pair : string * string)
    (tradeAccountId sessionKey : string)
| ExecuteActions (orderType : OrderType) (side : Side) (price quantity : Z)
| NewRestAPI (basePath : string)
| GetProvider (url : string)
| WalletFromPrivateKey (privateKey : string)
| GetMarkets
| NewSigner (privateKey : option string)
| InitTradeAccountManager (ownerPrivateKey : string) (signer : Signer)
    (tradeAccountId : string) (contractIds : list string)
| SessionSubmitTransaction (market : MarketResponse) (side : Side) (orderType : OrderType)
    (price quantity : string).

Record Libraries := {
  numberToString : float -> string;
  bigIntOfString : string -> Exn Z;
  BigDecimal : Type;
  decimalOfString : string -> Exn BigDecimal;
  decimalOfZ : Z -> BigDecimal;
  decimalMul : BigDecimal -> BigDecimal -> BigDecimal;
  decimalDiv : BigDecimal -> BigDecimal -> BigDecimal;
  decimalPow : BigDecimal -> Z -> BigDecimal;
  decimalFloor : BigDecimal -> BigDecimal;
  decimalCeil : BigDecimal -> BigDecimal;
  decimalToString : BigDecimal -> string;
  traderAccountCreate :
    string -> string -> string * string -> string -> string -> Exn unit;
  executeActions : OrderType -> Side -> Z -> Z -> Exn (option OrderResponse);
  newRestAPI : string -> Exn unit;
  getProvider : string -> Exn unit;
  walletFromPrivateKey : string -> Exn unit;
  getMarkets : Exn (list MarketResponse);
  newSigner : option string -> Exn Signer;
  initTradeAccountManager : string -> Signer -> string -> list string -> Exn unit;
  sessionSubmitTransaction :
    MarketResponse -> Side -> OrderType -> string -> string -> Exn (option OrderResponse) }.

(** The process: the variables of the environment, the session store's
    surroundings, and the clock at its two reads. *)
Record OrderEnv := {
  apiEnv : ApiEnv;
  envProviderUrl : option string;
  envOwnerPrivateKey : option string;
  envSessionPrivateKey : option string;
  sessionEnv : SessionEnv;
  nowFind : Z;
  nowSave : Z }.

(** A run: from the disk and the calls made so far to an outcome, the disk
    and the calls made. *)
Definition Run (A : Type) : Type := Disk -> list LibraryCall -> Exn A * Disk * list LibraryCall.

Definition done {A : Type} (a : A) : Run A := fun disk calls => (Ret a, disk, calls).

Definition throw {A : Type} (msg : string) : Run A := fun disk calls => (Throw msg, disk, calls).

Definition andThen {A B : Type} (m : Run A) (k : A -> Run B) : Run B :=
  fun disk calls =>
    match m disk calls with
    | (Ret a, disk', calls') => k a disk' calls'
    | (Throw msg, disk', calls') => (Throw msg, disk', calls')
    end.

Notation "x <-- m ;; k" := (andThen m (fun x => k))
  (at level 100, m at next level, right associativity).

(** A call to a library: recorded, then answered. *)
Definition call {A : Type} (c : LibraryCall) (answer : Exn A) : Run A :=
  fun disk calls => (answer, disk, (calls ++ [c])%list).

(** A computation that touches neither the disk nor the outside. *)
Definition pure {A : Type} (outcome : Exn A) : Run A := fun disk calls => (outcome, disk, calls).

Definition reading {A : Type} (f : Disk -> A) : Run A := fun disk calls => (Ret (f disk), disk, calls).

Definition writing {A : Type} (f : Disk -> Exn A * Disk) : Run A :=
  fun disk calls => let '(outcome, disk') := f disk in (outcome, disk', calls).

Module O2Sdk.

Definition DEFAULT_SESSION_EXPIRY_MS : Z := 48 * 60 * 60 * 1000.

Definition resolveProviderUrl (env : OrderEnv) (override : option string) : string :=
  match trimmedOverride override with
  | Some directOverride => directOverride
  | None =>
      match trimmedOverride (envProviderUrl env) with
      | Some envProvider => envProvider
      | None =>
          match envNetwork (apiEnv env) with
          | Some network =>
              if String.eqb (JsString.toLowerCase (trim network)) "testnet"
              then "https://devnet.fuel.network/v1/graphql"
              else "https://mainnet.fuel.network/v1/graphql"
          | None => "https://mainnet.fuel.network/v1/graphql"
          end
      end
  end.

(** [undefined] is [None]. *)
Definition resolveOwnerPrivateKey (env : OrderEnv) (override : option string) : option string :=
  match trimmedOverride override with
  | Some directOverride => Some directOverride
  | None => trimmedOverride (envOwnerPrivateKey env)
  end.

Definition resolveSessionPrivateKey (env : OrderEnv) (override : option string)
  : option string :=
  match trimmedOverride override with
  | Some directOverride => Some directOverride
  | None => trimmedOverride (envSessionPrivateKey env)
  end.

(** [type] after [normalizeOrderType] and [normalizeRestOrderType]. *)
Definition normalizeOrderType (type : option OrderType) : OrderType := default Spot type.

Section WithLibraries.
Variable lib : Libraries.

(** [String(value)] *)
Definition stringOf (value : Amount) : string :=
  match value with
  | AmountNumber x => numberToString lib x
  | AmountString s => s
  end.

Definition toBigInt (value : Amount) : Exn Z := bigIntOfString lib (stringOf value).

(** [new Date(t).toISOString()]: a [RangeError] outside the range of dates. *)
Definition checkDate (t : option Z) : Exn unit :=
  match t with
  | Some ms => if Z.abs ms <=? 8640000000000000 then Ret tt else Throw "Invalid time value"
  | None => Throw "Invalid time value"
  end.

(** scaling.ts *)
Definition scaleUpAndTruncateToInt (amount : BigDecimal lib) (decimalPlaces maxPrecision : Z)
  : BigDecimal lib :=
  let priceInt := decimalMul lib amount (decimalPow lib (decimalOfZ lib 10) decimalPlaces) in
  let truncateFactor := decimalPow lib (decimalOfZ lib 10) (decimalPlaces - maxPrecision) in
  decimalMul lib (decimalFloor lib (decimalDiv lib priceInt truncateFactor)) truncateFactor.

Definition calculateBaseQuantity (quantityInQuote price : BigDecimal lib)
    (baseDecimals baseMaxPrecision : Z) : BigDecimal lib :=
  let quantityInBase := decimalDiv lib quantityInQuote price in
  let scaledQuantity :=
    decimalMul lib quantityInBase (decimalPow lib (decimalOfZ lib 10) baseDecimals) in
  let truncateFactor := decimalPow lib (decimalOfZ lib 10) (baseDecimals - baseMaxPrecision) in
  decimalMul lib (decimalCeil lib (decimalDiv lib scaledQuantity truncateFactor)) truncateFactor.

Definition placeOrderWithSdk (env : OrderEnv) (params : Submission) (price quantity : Amount)
  : Run Placement :=
  let apiBaseUrl := resolveApiBaseUrl (apiEnv env) (sub_apiBaseUrl params) in
  let providerUrl := resolveProviderUrl env (sub_providerUrl params) in
  match resolveSessionPrivateKey env (sub_sessionPrivateKey params) with
  | None =>
      throw "Session private key is required. Provide sessionPrivateKey or set O2_SESSION_PRIVATE_KEY."
  | Some sessionPrivateKey =>
      _ <-- call (TraderAccountCreate apiBaseUrl providerUrl (sub_pair params)
                    (sub_tradeAccountId params) sessionPrivateKey)
                 (traderAccountCreate lib apiBaseUrl providerUrl (sub_pair params)
                    (sub_tradeAccountId params) sessionPrivateKey);;
      let side := sub_side params in
      let orderType := normalizeOrderType (sub_orderType params) in
      bigPrice <-- pure (toBigInt price);;
      bigQuantity <-- pure (toBigInt quantity);;
      response <-- call (ExecuteActions orderType side bigPrice bigQuantity)
                        (executeActions lib orderType side bigPrice bigQuantity);;
      done {| response := response;
              placedSide := sub_side params;
              placedOrderType := default Spot (sub_orderType params);
              scaledPrice := None;
              scaledQuantity := None |}
  end.

(** The price and the quantity of the order, as the strings submitted. *)
Definition finalAmounts (market : MarketResponse) (rawPrice rawQuantity price quantity : option Amount)
  : Exn (string * string) :=
  match rawPrice, rawQuantity with
  | Some rawPrice, Some rawQuantity =>
      rawPriceDecimal <-! decimalOfString lib (stringOf rawPrice);
      rawQuantityDecimal <-! decimalOfString lib (stringOf rawQuantity);
      let scaledPrice :=
        scaleUpAndTruncateToInt rawPriceDecimal (decimals (quote market))
          (max_precision (quote market)) in
      let scaledQuantity :=
        calculateBaseQuantity rawQuantityDecimal rawPriceDecimal (decimals (base market))
          (max_precision (base market)) in
      Ret (decimalToString lib scaledPrice, decimalToString lib scaledQuantity)
  | _, _ =>
      match price, quantity with
      | Some price, Some quantity => Ret (stringOf price, stringOf quantity)
      | _, _ =>
          Throw "Either (rawPrice and rawQuantity) or (price and quantity) must be provided"
      end
  end.

Definition placeOrderWithRestApi (env : OrderEnv) (params : Submission)
    (rawPrice rawQuantity price quantity : option Amount) : Run Placement :=
  let apiBaseUrl := resolveApiBaseUrl (apiEnv env) (sub_apiBaseUrl params) in
  let providerUrl := resolveProviderUrl env (sub_providerUrl params) in
  match resolveOwnerPrivateKey env (sub_sessionPrivateKey params) with
  | None =>
      throw "Owner private key is required. Provide sessionPrivateKey or set O2_PRIVATE_KEY."
  | Some ownerPrivateKey =>
      let sessionStorePath := resolveSessionStorePath (sessionEnv env) None in
      _ <-- call (NewRestAPI apiBaseUrl) (newRestAPI lib apiBaseUrl);;
      _ <-- call (GetProvider providerUrl) (getProvider lib providerUrl);;
      _ <-- call (WalletFromPrivateKey ownerPrivateKey)
                 (walletFromPrivateKey lib ownerPrivateKey);;
      markets <-- call GetMarkets (getMarkets lib);;
      let marketContractIds := map contract_id markets in
      existingSession <--
        reading (fun disk =>
                   findValidSessionForTradeAccount (sessionEnv env) disk (nowFind env)
                     (sub_tradeAccountId params) (Some sessionStorePath));;
      signer <--
        match existingSession with
        | Some existing =>
            _ <-- pure (checkDate (expiryMs existing));;
            call (NewSigner (Some (sessionPrivateKey existing)))
                 (newSigner lib (Some (sessionPrivateKey existing)))
        | None => call (NewSigner None) (newSigner lib None)
        end;;
      _ <-- call (InitTradeAccountManager ownerPrivateKey signer (sub_tradeAccountId params)
                    marketContractIds)
                 (initTradeAccountManager lib ownerPrivateKey signer
                    (sub_tradeAccountId params) marketContractIds);;
      _ <--
        match existingSession with
        | Some _ => done tt
        | None =>
            let expiry := nowSave env + DEFAULT_SESSION_EXPIRY_MS in
            _ <-- writing (fun disk =>
                             saveSession (sessionEnv env) disk
                               {| p_sessionPrivateKey := signerPrivateKey signer;
                                  p_sessionAddress := Some (signerAddress signer);
                                  p_tradeAccountId := Some (sub_tradeAccountId params);
                                  p_expiryMs := Some expiry;
                                  p_storePath := Some sessionStorePath |});;
            pure (checkDate (Some expiry))
        end;;
      match List.find (fun m => String.eqb (symbol (base m)) (fst (sub_pair params))
                                && String.eqb (symbol (quote m)) (snd (sub_pair params)))
                      markets with
      | None =>
          throw ("Market " ++ fst (sub_pair params) ++ "/" ++ snd (sub_pair params)
                   ++ " not found")
      | Some market =>
          amounts <-- pure (finalAmounts market rawPrice rawQuantity price quantity);;
          let '(finalPrice, finalQuantity) := amounts in
          let side := sub_side params in
          let orderType := normalizeOrderType (sub_orderType params) in
          data <-- call (SessionSubmitTransaction market side orderType finalPrice finalQuantity)
                        (sessionSubmitTransaction lib market side orderType finalPrice
                           finalQuantity);;
          done {| response := data;
                  placedSide := sub_side params;
                  placedOrderType := default Spot (sub_orderType params);
                  scaledPrice := Some finalPrice;
                  scaledQuantity := Some finalQuantity |}
      end
  end.

End WithLibraries.

End O2Sdk.

(** The two functions as [o2PlaceOrder] calls them, on a given disk. *)
Definition sdkExchange (lib : Libraries) (env : OrderEnv) (disk : Disk) : Exchange :=
  {| placeOrderWithRestApi := fun order rawPrice rawQuantity =>
       fst (fst (O2Sdk.placeOrderWithRestApi lib env order (Some rawPrice) (Some rawQuantity)
                   None None disk []));
     placeOrderWithSdk := fun order price quantity =>
       fst (fst (O2Sdk.placeOrderWithSdk lib env order price quantity disk [])) |}.

(** The session [placeOrderWithRestApi] saves for a signer it made anew. *)
Definition signerSession (env : OrderEnv) (order : Submission) (signer : Signer) : SaveParams :=
  {| p_sessionPrivateKey := signerPrivateKey signer;
     p_sessionAddress := Some (signerAddress signer);
     p_tradeAccountId := Some (sub_tradeAccountId order);
     p_expiryMs := Some (nowSave env + 48 * 60 * 60 * 1000);
     p_storePath := Some (resolveSessionStorePath (sessionEnv env) None) |}.

(** ** Reading the calls of a run *)

(** The keys the owner wallet and the trade account manager were given. *)
Definition ownerKeys (calls : list LibraryCall) : list string :=
  omap (fun c => match c with
                 | WalletFromPrivateKey key | InitTradeAccountManager key _ _ _ => Some key
                 | _ => None
                 end) calls.

(** The keys signers were made from; [None] is a signer with a new key. *)
Definition signerKeys (calls : list LibraryCall) : list (option string) :=
  omap (fun c => match c with NewSigner key => Some key | _ => None end) calls.

(** The session keys trader accounts were created with. *)
Definition accountKeys (calls : list LibraryCall) : list string :=
  omap (fun c => match c with TraderAccountCreate _ _ _ _ key => Some key | _ => None end)
       calls.

(** An order reached the exchange. *)
Definition submitted (calls : list LibraryCall) : bool :=
  existsb (fun c => match c with
                    | ExecuteActions _ _ _ _ | SessionSubmitTransaction _ _ _ _ _ => true
                    | _ => false
                    end) calls.

(** Libraries that accept everything: decimals are exact fractions of
    integers read from strings of digits, a number prints as "0", a new
    signer has the key "0xfresh", and the one market is FUEL/USDC. *)
Definition acceptingLibraries : Libraries :=
  {| numberToString := fun _ => "0";
     bigIntOfString := fun s => d <-! Reference.readDecimal s; Ret (fst d);
     BigDecimal := Z * Z;
     decimalOfString := Reference.readDecimal;
     decimalOfZ := fun z => (z, 1);
     decimalMul := fun a b => (fst a * fst b, snd a * snd b);
     decimalDiv := fun a b => (fst a * snd b, snd a * fst b);
     decimalPow := fun a n => (fst a ^ n, snd a ^ n);
     decimalFloor := fun a => (fst a / snd a, 1);
     decimalCeil := fun a => (- (- fst a / snd a), 1);
     decimalToString := fun a => JsString.ofZ (fst a / snd a);
     traderAccountCreate := fun _ _ _ _ _ => Ret tt;
     executeActions := fun _ _ _ _ =>
       Ret (Some {| tx_id := Some "0xtx"; orders := Some [Some "0xorder"] |});
     newRestAPI := fun _ => Ret tt;
     getProvider := fun _ => Ret tt;
     walletFromPrivateKey := fun _ => Ret tt;
     getMarkets :=
       Ret [{| contract_id := "0xmarket";
               base := {| symbol := "FUEL"; decimals := 9; max_precision := 3 |};
               quote := {| symbol := "USDC"; decimals := 6; max_precision := 4 |} |}];
     newSigner := fun key =>
       Ret {| signerPrivateKey := default "0xfresh" key; signerAddress := "0xsigner" |};
     initTradeAccountManager := fun _ _ _ _ => Ret tt;
     sessionSubmitTransaction := fun _ _ _ _ _ =>
       Ret (Some {| tx_id := Some "0xtx"; orders := Some [Some "0xorder"] |}) |}.

(** A process on the main network, with no key in its environment, at time
    [now]. *)
Definition orderEnv (now : Z) : OrderEnv :=
  {| apiEnv := mainnet; envProviderUrl := None; envOwnerPrivateKey := None;
     envSessionPrivateKey := None; sessionEnv := sampleEnv; nowFind := now; nowSave := now |}.

(** An order for 10 USDC of FUEL at 2, by raw values or by scaled ones. *)
Definition rawOrder (id : string) : PlaceOrderParams :=
  {| o_tradeAccountId := "0xaccount"; o_pair := ("FUEL", "USDC"); o_sessionId := id;
     o_side := Buy; o_orderType := None;
     o_rawPrice := Some (AmountString "2"); o_rawQuantity := Some (AmountString "10");
     o_price := None; o_quantity := None;
     o_apiBaseUrl := None; o_providerUrl := None; o_sessionStorePath := None |}.

Definition scaledOrder (id : string) : PlaceOrderParams :=
  {| o_tradeAccountId := "0xaccount"; o_pair := ("FUEL", "USDC"); o_sessionId := id;
     o_side := Buy; o_orderType := None;
     o_rawPrice := None; o_rawQuantity := None;
     o_price := Some (AmountString "2000000"); o_quantity := Some (AmountString "5000000000");
     o_apiBaseUrl := None; o_providerUrl := None; o_sessionStorePath := None |}.

(** * Properties *)

Example lookback_sma_hex : getIndicatorLookback "SMA-0x10" = 16.
Proof. reflexivity. Qed.

Example lookback_list :
  map getIndicatorLookback
    ["sma_50"; "ema_26"; "rsi_14"; "macd"; "bbands_20_2"; "atr_20"; "adx_7";
     "vwap"; "cci_14"; "mfi_20"; "sma_"; "sma_0"; "nope"]
  = [50; 52; 15; 35; 20; 14; 14; 1; 20; 14; 20; 20; 50].
Proof. reflexivity. Qed.

Example normalize_examples :
  map normalizeIndicatorName ["RSI14"; "Plus-DI"; "macd_12_26_9"; "Foo-Bar"; "constructor"]
  = [VStr "rsi_14"; VStr "plus_di"; VStr "macd"; VStr "foo_bar"; VBuiltin "constructor"].
Proof. reflexivity. Qed.

(** ** Alias normalisation *)

Lemma normalizeChar_idempotent (c : ascii) :
  JsString.dashToUnderscore (JsString.lowerChar
    (JsString.dashToUnderscore (JsString.lowerChar c)))
  = JsString.dashToUnderscore (JsString.lowerChar c).
Proof. destruct c as [[] [] [] [] [] [] [] []]; reflexivity. Qed.

Lemma normalizeString_idempotent (s : string) :
  JsString.replaceDashes (JsString.toLowerCase
    (JsString.replaceDashes (JsString.toLowerCase s)))
  = JsString.replaceDashes (JsString.toLowerCase s).
Proof.
  unfold JsString.replaceDashes, JsString.toLowerCase.
  induction s as [|c s IH]; [reflexivity|].
  cbn [JsString.mapChars]. f_equal; [apply normalizeChar_idempotent | exact IH].
Qed.

(** Every value of the alias table is a name the normaliser leaves alone. *)
Lemma alias_values_fixed (key v : string) :
  assoc key aliases = Some v -> normalizeIndicatorName v = VStr v.
Proof.
  unfold aliases. cbn [assoc].
  repeat (destruct (String.eqb key _);
          [ intros [= <-]; reflexivity | ]).
  discriminate.
Qed.

(** Whenever the normaliser answers with a string, that string is a fixed
    point: on those inputs normalising twice is normalising once. *)
Lemma normalizeIndicatorName_fixed_on_strings (s t : string) :
  normalizeIndicatorName s = VStr t -> normalizeIndicatorName t = VStr t.
Proof.
  unfold normalizeIndicatorName at 1.
  set (lower := JsString.replaceDashes (JsString.toLowerCase s)).
  unfold lookupProperty.
  destruct (assoc lower aliases) as [v|] eqn:Hown.
  - cbn [truthy]. destruct (negb (String.eqb v "")) eqn:E; intros [= <-].
    + eapply alias_values_fixed; eassumption.
    + unfold normalizeIndicatorName. subst lower.
      rewrite normalizeString_idempotent.
      unfold lookupProperty. rewrite Hown. cbn [truthy]. now rewrite E.
  - destruct (existsb (String.eqb lower) objectPrototype) eqn:Hproto;
      cbn [truthy]; [discriminate|].
    intros [= <-]. unfold normalizeIndicatorName. subst lower.
    rewrite normalizeString_idempotent.
    unfold lookupProperty. now rewrite Hown, Hproto.
Qed.

(** C10. The normaliser is not idempotent on every string: for the input
    "constructor" the lookup [aliases[lower]] finds the member every object
    inherits, the normaliser returns that member instead of a string, and
    normalising its answer again throws; so does the tool for a request that
    names it, before any query is sent. *)
Theorem normalizeIndicatorName_constructor :
  normalizeIndicatorName "constructor" = VBuiltin "constructor"
  /\ withString "name" (normalizeIndicatorName "constructor")
       (fun s => Ret (normalizeIndicatorName s))
     = Throw "name.toLowerCase is not a function"
  /\ withString "name" (normalizeIndicatorName "constructor")
       (fun s => Ret (normalizeIndicatorName s))
     <> Ret (normalizeIndicatorName "constructor")
  /\ normalizeIndicatorName "--PROTO--" = VBuiltin "__proto__"
  /\ (forall (Ext : Externals) (w : World),
        o2_indicators w (Reference.request ["constructor"] Snapshot false)
        = (Throw "indicator.toLowerCase is not a function", [])).
Proof. repeat split; try reflexivity. discriminate. Qed.

(** ** Lookback resolver *)

(** C2. For the ATR, CCI and MFI families the resolver ignores the period of
    the identifier: it answers 14, 20 and 14 for every suffix, so for atr_20
    it answers 14 where the table asks for 20, while the calculator of the
    same module reads the period and refuses 15 bars for atr_20. *)
Theorem getIndicatorLookback_ignores_period :
  (forall suffix : string,
     getIndicatorLookback ("atr_" ++ suffix) = 14
     /\ getIndicatorLookback ("cci_" ++ suffix) = 20
     /\ getIndicatorLookback ("mfi_" ++ suffix) = 14)
  /\ getIndicatorLookback "atr_20" = 14
  /\ getIndicatorLookback "cci_14" = 20
  /\ getIndicatorLookback "mfi_20" = 14
  /\ (forall (Ext : Externals) (bars : TransformedBars) (options : TransformOptions),
        len (close bars) = 15 ->
        calculateIndicator "atr_20" bars options = Ret None).
Proof.
  split; [intros suffix; destruct suffix; repeat split; vm_compute; reflexivity|].
  repeat split; try reflexivity.
  intros Ext bars options Hn.
  unfold calculateIndicator, calculateIndicatorBody.
  cbn -[len]. rewrite Hn. reflexivity.
Qed.

(** ** Trailing-bar trimming *)

Lemma barDuration_table (r : Resolution) : barDuration r = resolutionDurationMs r.
Proof. destruct r; reflexivity. Qed.

Lemma len_snoc {A : Type} (l : list A) (x : A) : len (l ++ [x])%list = len l + 1.
Proof. unfold len. rewrite length_app. cbn. lia. Qed.

Lemma trimIncompleteLastBar_last
    (r : Resolution) (now : Z) (front : list RawBar) (lastBar : RawBar)
    (warnings : list Warning) :
  (trimIncompleteLastBar false r now (front ++ [lastBar]) warnings
   = if now - raw_timestamp lastBar <? resolutionDurationMs r
     then (front, warnings ++ [INCOMPLETE_LAST_BAR (raw_timestamp lastBar)])
     else (front ++ [lastBar], warnings))%list.
Proof.
  unfold trimIncompleteLastBar.
  rewrite len_snoc, last_snoc, barDuration_table, removelast_last.
  assert ((0 <? len front + 1) = true) as -> by (apply Z.ltb_lt; unfold len; lia).
  cbn [negb andb]. rewrite Z.leb_antisym, negb_involutive. reflexivity.
Qed.

(** ** Too many indicators *)

(** C4. A request with more than 20 indicators is answered with the fatal
    failure before anything else happens: no query reaches the provider and
    the answer carries no indicator. A request with at most 20, so one with
    exactly 20, is never answered by that rule. *)
Theorem too_many_indicators_rejected_first
    `{Ext : Externals} (w : World) (req : Request) :
  (20 < len (indicators req) -> o2_indicators w req = tooManyIndicators)
  /\ (len (indicators req) <= 20 -> o2_indicators w req <> tooManyIndicators).
Proof.
  unfold o2_indicators, tooManyIndicators. split; intros H.
  - apply Z.ltb_lt in H. now rewrite H.
  - apply Z.ltb_ge in H. rewrite H.
    destruct (lookbacks _); [discriminate|].
    destruct (resolveWindow w req) as [[? ?] ?]. discriminate.
Qed.

Lemma too_many_indicators_rejected_first_witness :
  Reference.run (Reference.serving [] 0)
    (Reference.request (repeat "vwap" 21) Snapshot false) = tooManyIndicators
  /\ Reference.run (Reference.serving [] 0)
       (Reference.request (repeat "vwap" 20) Snapshot false) <> tooManyIndicators.
Proof.
  split.
  - apply (proj1 (too_many_indicators_rejected_first (Ext := Reference.externals)
              (Reference.serving [] 0)
              (Reference.request (repeat "vwap" 21) Snapshot false))).
    vm_compute. reflexivity.
  - apply (proj2 (too_many_indicators_rejected_first (Ext := Reference.externals)
              (Reference.serving [] 0)
              (Reference.request (repeat "vwap" 20) Snapshot false))).
    vm_compute. discriminate.
Defined.

(** ** Regime classifier: trend bias *)

Lemma diAdjust_one_step (p m : float) :
  diAdjust p m bullish <> bearish /\ diAdjust p m bearish <> bullish.
Proof. unfold diAdjust. destruct (gt p m); split; discriminate. Qed.

(** C7. When the SMA20, SMA50, +DI and -DI results all carry numbers, the
    trend bias is the SMA rule followed by the DI rule; the DI rule moves the
    bias by one step, so a bias the SMA rule made bullish never ends bearish
    and one it made bearish never ends bullish. *)
Theorem trendBias_sma_then_di
    (indicators : gmap string (option IndicatorResult)) (currentPrice : float)
    (sma20 sma50 plusDI minusDI : IndicatorResult) (s20 s50 p m : float) :
  entry indicators "sma_20" = Some sma20 -> value sma20 = VNum s20 ->
  entry indicators "sma_50" = Some sma50 -> value sma50 = VNum s50 ->
  entry indicators "plus_di" = Some plusDI -> value plusDI = VNum p ->
  entry indicators "minus_di" = Some minusDI -> value minusDI = VNum m ->
  let bias := trendBias (generateMicroSummary indicators currentPrice) in
  bias = diAdjust p m (smaCross currentPrice s20 s50)
  /\ (smaCross currentPrice s20 s50 = bullish -> bias <> bearish)
  /\ (smaCross currentPrice s20 s50 = bearish -> bias <> bullish).
Proof.
  intros H20 V20 H50 V50 Hp Vp Hm Vm bias.
  assert (bias = diAdjust p m (smaCross currentPrice s20 s50)) as Hbias.
  { subst bias. unfold generateMicroSummary.
    rewrite H20, H50, Hp, Hm.
    unfold smaBias, diBias, numericValue. rewrite V20, V50, Vp, Vm.
    unfold smaCross, diAdjust.
    destruct (gt currentPrice s20 && gt s20 s50);
      [|destruct ((currentPrice <? s20)%float && (s20 <? s50)%float)];
      cbn [fst snd];
      destruct (gt p m); cbn [fst snd];
      repeat match goal with
             | |- context [let '(_, _) := ?x in _] => destruct x
             end; reflexivity. }
  split; [exact Hbias|].
  rewrite Hbias. split; intros ->; apply diAdjust_one_step.
Qed.

Lemma trendBias_sma_then_di_witness :
  trendBias (generateMicroSummary scenario 110%float) = bullish.
Proof.
  apply (trendBias_sma_then_di scenario 110%float _ _ _ _ 105%float 100%float 30%float 20%float
           eq_refl eq_refl eq_refl eq_refl eq_refl eq_refl eq_refl eq_refl).
Defined.

(** ** Derived fields *)

Lemma positive_is_truthy (x : float) : gt x 0 = true -> isTruthyNum x = true.
Proof.
  unfold gt, isTruthyNum. rewrite FloatAxioms.ltb_spec, !FloatAxioms.eqb_spec.
  change (Prim2SF 0) with (S754_zero false).
  destruct (Prim2SF x) as [s|s| |s mant e]; cbn; try discriminate.
  - destruct s; [discriminate|reflexivity].
  - destruct s; [discriminate|]. intros _.
    rewrite Z.compare_refl. fold (Pos.compare mant mant).
    now rewrite Pos.compare_refl.
Qed.

(** The guard on the ATR result: a number above 0. *)
Lemma atr_guard (v : JsVal) :
  truthy v && isNumber v && gt (toNumber v) 0
  = match v with VNum a => gt a 0 | _ => false end.
Proof.
  destruct v; cbn [truthy isNumber toNumber andb]; try reflexivity.
  - destruct (gt x 0) eqn:E; [now rewrite positive_is_truthy|].
    now rewrite !andb_false_r.
  - now rewrite andb_false_r.
Qed.

(** The guard on the SMA20 and VWAP results: a number that is truthy. *)
Lemma reference_guard (v : JsVal) :
  truthy v && isNumber v = match v with VNum x => isTruthyNum x | _ => false end.
Proof.
  destruct v; cbn [truthy isNumber andb]; try reflexivity;
    now rewrite ?andb_true_r, ?andb_false_r.
Qed.

(** C9, as stated, fails: with an ATR of 1 and an SMA20 result whose value is
    the number 0 the field is due (and would be 5 at price 5), yet the code
    leaves it out. *)
Lemma zero_sma20_is_omitted :
  computeDerivedFields zeroSma 5 !! "dist_sma20_atr"
  <> distanceAsSpecified 5 (entry zeroSma "atr_14") (entry zeroSma "sma_20").
Proof. vm_compute. discriminate. Qed.

(** C9, amended. [dist_sma20_atr] is present exactly when the atr_14 value is
    a number above 0 and the sma_20 value is a number other than 0 and NaN,
    and then equals (currentPrice - sma20) / atr14; likewise [dist_vwap_atr]
    with the vwap value; no other field is ever produced. The function is
    total: no input makes it fail. *)
Theorem computeDerivedFields_fields
    (indicators : gmap string (option IndicatorResult)) (currentPrice : float) :
  let atr := entry indicators "atr_14" in
  computeDerivedFields indicators currentPrice !! "dist_sma20_atr"
    = distanceInAtr currentPrice atr (entry indicators "sma_20")
  /\ computeDerivedFields indicators currentPrice !! "dist_vwap_atr"
    = distanceInAtr currentPrice atr (entry indicators "vwap")
  /\ (forall key : string,
        key <> "dist_sma20_atr" -> key <> "dist_vwap_atr" ->
        computeDerivedFields indicators currentPrice !! key = None).
Proof.
  cbv zeta. unfold computeDerivedFields, distanceInAtr, numericValue.
  destruct (entry indicators "atr_14") as [atr|]; [|by rewrite !lookup_empty].
  rewrite atr_guard.
  destruct (value atr) as [| |a| | |]; try by rewrite !lookup_empty.
  all: try (repeat split; intros; repeat case_match; by rewrite ?lookup_empty).
  cbn [toNumber].
  destruct (gt a 0); [|repeat split; intros; repeat case_match; by rewrite ?lookup_empty].
  cbn [andb].
  destruct (entry indicators "sma_20") as [sma20|],
           (entry indicators "vwap") as [vwap|];
    rewrite ?reference_guard;
    repeat match goal with
           | r : IndicatorResult |- _ => destruct (value r) as [| |?| | |]; clear r
           end;
    repeat match goal with
           | |- context [isTruthyNum ?x] => destruct (isTruthyNum x)
           end;
    cbn [toNumber];
    repeat split; intros; by simplify_map_eq.
Qed.

Lemma computeDerivedFields_fields_witness :
  computeDerivedFields atrAndSma 110 !! "dist_sma20_atr" = Some 5%float
  /\ computeDerivedFields atrAndSma 110 !! "dist_vwap_atr" = None.
Proof.
  split.
  - exact (proj1 (computeDerivedFields_fields atrAndSma 110)).
  - exact (proj1 (proj2 (computeDerivedFields_fields atrAndSma 110))).
Defined.

(** ** VWAP *)

Section Vwap.
Context `{Ext : Externals}.
Variable bars : TransformedBars.

Let addPV (acc : float) (i : nat) : float :=
  (acc + typicalPrice bars i * num (volume bars) i)%float.
Let addVolume (acc : float) (i : nat) : float := (acc + num (volume bars) i)%float.

(** The loop keeps the two running sums of the formula. *)
Lemma vwapLoop_sums (k a : nat) (st : VwapState) :
  cumulativePV (fold_left (vwapStep bars) (seq a k) st)
    = fold_left addPV (seq a k) (cumulativePV st)
  /\ cumulativeVolume (fold_left (vwapStep bars) (seq a k) st)
    = fold_left addVolume (seq a k) (cumulativeVolume st).
Proof.
  revert a st. induction k as [|k IH]; intros a st; [split; reflexivity|].
  cbn [seq fold_left]. apply IH.
Qed.

Lemma item_last (l : list float) (x : float) :
  item (l ++ [x])%list (len (l ++ [x])%list - 1) = VNum x.
Proof.
  unfold item, len. rewrite length_app. cbn [length].
  assert ((Z.of_nat (length l + 1) - 1 <? 0) = false) as -> by (apply Z.ltb_ge; lia).
  replace (Z.to_nat (Z.of_nat (length l + 1) - 1)) with (length l) by lia.
  rewrite nth_error_app2 by lia. now rewrite Nat.sub_diag.
Qed.

(** The last value the loop pushes, when there are [S n] bars. *)
Lemma vwapLoop_last (n : nat) :
  length (close bars) = S n ->
  exists earlier : list float,
    vwapValues (vwapLoop bars)
    = (earlier ++ [if (0 <? sumVolume bars (S n))%float
                   then (sumPV bars (S n) / sumVolume bars (S n))%float
                   else typicalPrice bars n])%list.
Proof.
  intros Hn. unfold vwapLoop, sumPV, sumVolume. rewrite Hn, seq_S, !fold_left_app.
  cbn [fold_left Nat.add].
  set (init := {| cumulativePV := 0; cumulativeVolume := 0; vwapValues := [] |}).
  destruct (vwapLoop_sums n 0 init) as [Hpv Hvol].
  set (st := fold_left (vwapStep bars) (seq 0 n) init) in *.
  exists (vwapValues st). unfold vwapStep. cbn [vwapValues].
  rewrite Hpv, Hvol. reflexivity.
Qed.

Lemma calculateIndicator_vwap (options : TransformOptions) :
  calculateIndicator "vwap" bars options
  = if len (close bars) <? 1 then Ret None
    else Ret (Some (scalarResult (vwapValues (vwapLoop bars)) None
                      (mkMeta 1 (len (close bars)) 0 [("anchor", MStr "window")]))).
Proof.
  unfold calculateIndicator, calculateIndicatorBody. cbn -[len vwapLoop scalarResult].
  now destruct (len (close bars) <? 1).
Qed.

End Vwap.

Lemma vwapAnchor_is_ignored `{Ext : Externals} (w : World) (req : Request)
    (a : option VwapAnchor) :
  o2_indicators w (withVwapAnchor a req) = o2_indicators w req.
Proof. destruct req. reflexivity. Qed.

Lemma float_differs (x y : float) : (x =? x)%float = true -> (x =? y)%float = false -> x <> y.
Proof. intros Hx Hxy ->. congruence. Qed.

(** C6, as stated, fails. With two bars of zero volume the code answers the
    typical price of the last bar, 6, where the quotient of the sums is 0/0;
    and with the single bar (high 5, low 2, close 3, volume 11) it answers
    (tp0 * 11) / 11, which rounding makes differ from tp0. *)
Lemma vwap_is_not_the_quotient :
  (exists r, Reference.calculate "vwap" zeroVolumeBars noOptions = Ret (Some r)
             /\ value r = VNum 6
             /\ value r <> VNum (vwapAsSpecified zeroVolumeBars))
  /\ (exists r, Reference.calculate "vwap" oneBar noOptions = Ret (Some r)
                /\ value r = VNum (vwapAsSpecified oneBar)
                /\ value r <> VNum (typicalPrice oneBar 0)).
Proof.
  split; eexists; (split; [vm_compute; reflexivity|]); cbn [value];
    (split; [vm_compute; reflexivity|]);
    intros [= H]; revert H; apply float_differs; vm_compute; reflexivity.
Qed.

(** C6, amended. For a non-empty series the vwap value is the quotient of the
    cumulative sums of typicalPrice * volume and of volume over all the bars,
    added in bar order, when the cumulative volume is above 0, and the typical
    price of the last bar otherwise; the anchor is always the start of the
    fetched window, and the request's [vwapAnchor] changes nothing in the
    tool's answer. For one bar the value is (tp0 * v0) / v0 when v0 is above 0
    and tp0 otherwise. *)
Theorem vwap_is_cumulative_from_window_start
    `{Ext : Externals} (bars : TransformedBars) (options : TransformOptions) (n : nat) :
  length (close bars) = S n ->
  (exists r,
     calculateIndicator "vwap" bars options = Ret (Some r)
     /\ value r = VNum (if (0 <? sumVolume bars (S n))%float
                        then (sumPV bars (S n) / sumVolume bars (S n))%float
                        else typicalPrice bars n)
     /\ assoc "anchor" (params (meta r)) = Some (MStr "window")
     /\ (n = 0%nat ->
         let tp0 := typicalPrice bars 0 in
         let v0 := num (volume bars) 0 in
         value r = VNum (if (0 <? 0 + v0)%float
                         then ((0 + tp0 * v0) / (0 + v0))%float else tp0)))
  /\ (forall (w : World) (req : Request) (a : option VwapAnchor),
        o2_indicators w (withVwapAnchor a req) = o2_indicators w req).
Proof.
  intros Hn. split; [|intros; apply vwapAnchor_is_ignored].
  rewrite calculateIndicator_vwap.
  assert ((len (close bars) <? 1) = false) as ->
    by (apply Z.ltb_ge; unfold len; lia).
  destruct (vwapLoop_last bars n Hn) as [earlier Hlast].
  eexists. split; [reflexivity|].
  cbn [value scalarResult meta mkMeta params]. rewrite Hlast, item_last.
  repeat split. intros ->. reflexivity.
Qed.

Lemma vwap_is_cumulative_from_window_start_witness :
  exists r,
    Reference.calculate "vwap" zeroVolumeBars noOptions = Ret (Some r)
    /\ value r = VNum 6.
Proof.
  destruct (vwap_is_cumulative_from_window_start (Ext := Reference.externals)
              zeroVolumeBars noOptions 1 eq_refl) as [[r (Hr & Hv & _)] _].
  exists r. split; [exact Hr|]. rewrite Hv. vm_compute. reflexivity.
Defined.

(** ** The calculator never throws *)

Section Calculator.
Context `{Ext : Externals}.

Lemma calculateIndicator_returns (indicator : string) (bars : TransformedBars)
    (options : TransformOptions) :
  exists r, calculateIndicator indicator bars options = Ret r.
Proof.
  unfold calculateIndicator, tryCatch.
  destruct (calculateIndicatorBody _ _ _); eauto.
Qed.

(** A result the [try] block itself returns carries no error. *)
Lemma calculateIndicatorBody_no_error (indicator : string) (bars : TransformedBars)
    (priceArray : list float) (r : IndicatorResult) :
  calculateIndicatorBody indicator bars priceArray = Ret (Some r) -> error r = None.
Proof.
  unfold calculateIndicatorBody, bindExn, talib, output.
  repeat case_match; intros [= <-]; reflexivity.
Qed.

(** So a result with an error comes from the [catch] clause: its value is
    [null]. *)
Lemma calculateIndicator_error_is_null (indicator : string) (bars : TransformedBars)
    (options : TransformOptions) (r : IndicatorResult) :
  calculateIndicator indicator bars options = Ret (Some r) ->
  error r <> None -> value r = VNull.
Proof.
  unfold calculateIndicator, tryCatch.
  destruct (calculateIndicatorBody _ _ _) as [msg|[r'|]] eqn:Hbody.
  - intros [= <-]. reflexivity.
  - intros [= <-] Herr. apply calculateIndicatorBody_no_error in Hbody. contradiction.
  - discriminate.
Qed.

(** In lenient mode the loop of the orchestrator neither throws nor returns
    early: it stores a result under every name. *)
Lemma calculateAll_lenient (tb : TransformedBars) (options : TransformOptions) (nbars : Z)
    (names : list string) (calculated : gmap string (option IndicatorResult)) :
  exists m : gmap string (option IndicatorResult),
    calculateAll false tb options nbars names calculated = Ret (inr m)
    /\ (forall name, In name names ->
          m !! name = Some (Some (storedResult tb options nbars name)))
    /\ (forall name, ~ In name names -> m !! name = calculated !! name).
Proof.
  revert calculated. induction names as [|indicator rest IH]; intros calculated.
  { exists calculated. split; [reflexivity|]. split; [intros ? []|reflexivity]. }
  cbn [calculateAll].
  destruct (calculateIndicator_returns indicator tb options) as [res Hres].
  rewrite Hres. cbn [bindExn].
  set (stored := storedResult tb options nbars indicator).
  assert (calculateAll false tb options nbars rest (<[indicator := Some stored]> calculated)
          = match res with
            | None => calculateAll false tb options nbars rest
                        (<[indicator := Some (insufficientResult indicator nbars)]> calculated)
            | Some r => if hasError r && false
                        then Ret (inl (Failure ("Failed to calculate indicator: " ++ indicator
                                                  ++ ". Error: " ++ default "" (error r)) None))
                        else calculateAll false tb options nbars rest
                               (<[indicator := Some r]> calculated)
            end) as <-.
  { subst stored. unfold storedResult. rewrite Hres.
    destruct res; [now rewrite andb_false_r | reflexivity]. }
  destruct (IH (<[indicator := Some stored]> calculated)) as (m & Hm & Hin & Hout).
  exists m. split; [exact Hm|]. split.
  - intros name [<-|Hrest].
    + destruct (in_dec string_dec indicator rest) as [Hi|Hi]; [now apply Hin|].
      rewrite (Hout _ Hi). apply lookup_insert_eq.
    + now apply Hin.
  - intros name Hnot. rewrite Hout by (cbn in Hnot; tauto).
    apply lookup_insert_ne. cbn in Hnot. tauto.
Qed.

End Calculator.

(** C8. [calculateIndicator] always returns: whatever the libraries do, for
    every identifier and series the outcome is a value, never an exception;
    when its computation throws, the value is a result with [value = null],
    the message as [error], and a meta object with the resolver's lookback,
    the number of bars and no warm-up. In lenient mode the orchestrator's loop
    over the indicators therefore always runs to its end; only strict mode
    turns such a result into a failure of the request. *)
Theorem calculateIndicator_never_throws
    `{Ext : Externals} (indicator : string) (bars : TransformedBars)
    (options : TransformOptions) :
  (exists r, calculateIndicator indicator bars options = Ret r)
  /\ (forall msg,
        calculateIndicatorBody indicator bars
          (getPriceArray bars (default SrcClose (priceSource options))) = Throw msg ->
        exists r,
          calculateIndicator indicator bars options = Ret (Some r)
          /\ value r = VNull /\ error r = Some msg
          /\ meta r = mkMeta (getIndicatorLookback indicator) (len (close bars)) 0 [])
  /\ (forall nbars names calculated,
        exists m, calculateAll false bars options nbars names calculated = Ret (inr m)).
Proof.
  split; [apply calculateIndicator_returns|]. split.
  - intros msg Hbody. unfold calculateIndicator, tryCatch. rewrite Hbody.
    eexists. split; [reflexivity|]. repeat split.
  - intros nbars names calculated.
    destruct (calculateAll_lenient bars options nbars names calculated) as (m & Hm & _).
    eauto.
Qed.

Lemma calculateIndicator_never_throws_witness :
  exists r,
    Reference.calculate "sma_2" twoDecoded noOptions = Ret (Some r)
    /\ value r = VNull /\ error r = Some "talib: SMA is not available".
Proof.
  destruct (proj1 (proj2 (calculateIndicator_never_throws (Ext := Reference.externals)
                            "sma_2" twoDecoded noOptions))
              "talib: SMA is not available" eq_refl) as (r & Hr & Hv & He & _).
  exists r. auto.
Defined.

(** ** Window mode *)

(** Whatever the request, a successful lenient answer in window mode holds,
    under each requested name, the window value of that indicator's one
    result, next to the last timestamps of the decoded bars. *)
Lemma window_entries_are_window_values `{Ext : Externals}
    (w : World) (req : Request) (names : list string) (maxLookback : Count)
    (fromTs toTs : option Z) (warnings : list Warning) (response : RawResponse)
    (out : WindowOutput) :
  default false (strict req) = false ->
  afterFetch w req names maxLookback fromTs toTs warnings response = Ret (WindowData out) ->
  exists (tb : TransformedBars) (nbars : Z),
    w_timestamps out = sliceFrom (timestamp tb) (- default 100 (windowSize req))
    /\ forall name, In name names ->
         w_indicators out !! name
         = Some (windowValue (Some (storedResult tb (requestOptions req) nbars name))).
Proof.
  intros Hstrict. unfold afterFetch, afterTrim. rewrite Hstrict.
  destruct (negb (ok response)); [discriminate|].
  destruct (data response) as [| |fetched]; cbn [bindExn]; try discriminate.
  all: match goal with |- context [len ?l =? 0] => destruct (len l =? 0) end;
    try discriminate.
  all: destruct (trimIncompleteLastBar _ _ _ _ _) as [bars ws].
  all: rewrite andb_false_r; fold (requestOptions req).
  all: destruct (transformBarsToArrays bars (requestOptions req)) as [|tb];
    cbn [bindExn]; try discriminate.
  all: destruct (calculateAll_lenient tb (requestOptions req) (len bars) names ∅)
    as (m & Hm & Hin & _); rewrite Hm; cbn [bindExn].
  all: destruct (default Snapshot (mode req)); intros [= <-].
  all: exists tb, (len bars); split; [reflexivity|].
  all: intros name Hname; cbn [w_indicators]; now rewrite lookup_fmap, (Hin _ Hname).
Qed.

(** C1. In window mode the entry of an indicator is the [value] of its
    result, the latest value alone: for two fetched bars and the indicator
    vwap the answer carries two timestamps and, under "vwap", the single
    number 3.5, not an array of two values. *)
Theorem window_mode_reports_latest_value_only :
  exists out,
    fst (Reference.run (Reference.serving twoBars 5000000)
           (Reference.request ["vwap"] Window false)) = Ret (WindowData out)
    /\ w_timestamps out = [1000; 2000]
    /\ w_indicators out !! "vwap" = Some (VNum 3.5).
Proof.
  eexists. split; [vm_compute; reflexivity|].
  split; vm_compute; reflexivity.
Qed.

(** * Further properties of the code *)

(** ** Periods and lookbacks are positive *)

Lemma replaceDashes_no_dash (s : string) : hasChar "-" (JsString.replaceDashes s) = false.
Proof.
  unfold JsString.replaceDashes. induction s as [|c s IH]; [reflexivity|].
  cbn [JsString.mapChars hasChar]. rewrite IH, orb_false_r.
  unfold JsString.dashToUnderscore. destruct (Ascii.eqb c "-") eqn:E; [reflexivity|exact E].
Qed.

Lemma split_no_char (c sep : ascii) (s : string) :
  hasChar c s = false -> Forall (fun seg => hasChar c seg = false) (JsString.split sep s).
Proof.
  induction s as [|a s IH]; intros H.
  - repeat constructor.
  - cbn [hasChar] in H. apply orb_false_iff in H as [Ha Hs]. specialize (IH Hs).
    cbn [JsString.split]. destruct (Ascii.eqb a sep).
    + constructor; [reflexivity|exact IH].
    + destruct (JsString.split sep s) as [|h t].
      * repeat constructor. cbn. now rewrite Ha.
      * inversion IH; subst. constructor; [|assumption]. cbn. now rewrite Ha.
Qed.

Lemma at_no_dash (parts : list string) (i : nat) :
  Forall (fun seg => hasChar "-" seg = false) parts ->
  hasChar "-" (JsString.at_ parts i) = false.
Proof.
  unfold JsString.at_. intros H. revert i.
  induction H as [|seg parts Hseg _ IH]; intros [|i]; cbn [nth]; auto.
Qed.

Lemma trimStart_no_char (c : ascii) (s : string) :
  hasChar c s = false -> hasChar c (JsString.trimStart s) = false.
Proof.
  induction s as [|a s IH]; intros H; [exact H|].
  cbn [JsString.trimStart]. destruct (JsString.isWhiteSpace a); [|exact H].
  cbn [hasChar] in H. apply orb_false_iff in H as [_ Hs]. auto.
Qed.

Lemma digitValue_nonneg (c : ascii) (d : Z) : JsString.digitValue c = Some d -> 0 <= d.
Proof.
  unfold JsString.digitValue.
  repeat match goal with
         | |- context [(?a <=? ?b)%nat] => destruct (Nat.leb_spec a b)
         end; cbn [andb]; intros [= <-]; lia.
Qed.

Lemma readDigits_nonneg (radix : Z) (s : string) (acc : option Z) (z : Z) :
  0 < radix -> (forall a, acc = Some a -> 0 <= a) ->
  JsString.readDigits radix s acc = Some z -> 0 <= z.
Proof.
  intros Hr. revert acc. induction s as [|c s IH]; intros acc Hacc; cbn [JsString.readDigits].
  - auto.
  - destruct (JsString.digitValue c) as [d|] eqn:Hd; [|auto].
    destruct (d <? radix); [|auto].
    apply IH. intros a [= <-]. apply digitValue_nonneg in Hd.
    apply Z.add_nonneg_nonneg; [|exact Hd].
    apply Z.mul_nonneg_nonneg; [lia|].
    destruct acc as [a0|]; cbn; [now apply Hacc | lia].
Qed.

Lemma parseInt_unfold (s : string) :
  JsString.parseInt s
  = let '(sign, s2) := signOf (JsString.trimStart s) in
    let '(radix, s3) := radixOf s2 in
    Z.mul sign <$> JsString.readDigits radix s3 None.
Proof. reflexivity. Qed.

Lemma signOf_no_dash (s : string) : hasChar "-" s = false -> fst (signOf s) = 1.
Proof.
  destruct s as [|c r]; [reflexivity|].
  destruct c as [[] [] [] [] [] [] [] []]; try reflexivity. discriminate.
Qed.

Lemma radixOf_positive (s : string) : 0 < fst (radixOf s).
Proof.
  destruct s as [|c r]; [reflexivity|].
  destruct c as [[] [] [] [] [] [] [] []]; try reflexivity.
  destruct r as [|c' r']; [reflexivity|].
  destruct c' as [[] [] [] [] [] [] [] []]; reflexivity.
Qed.

(** [parseInt] of a string without a minus sign is never negative. *)
Lemma parseInt_nonneg (s : string) (z : Z) :
  hasChar "-" s = false -> JsString.parseInt s = Some z -> 0 <= z.
Proof.
  intros Hs. rewrite parseInt_unfold.
  pose proof (signOf_no_dash _ (trimStart_no_char _ _ Hs)) as Hsign.
  destruct (signOf (JsString.trimStart s)) as [sign s2]. cbn [fst] in Hsign. subst sign.
  pose proof (radixOf_positive s2) as Hradix.
  destruct (radixOf s2) as [radix s3]. cbn [fst] in Hradix.
  destruct (JsString.readDigits radix s3 None) as [v|] eqn:Hv; [|discriminate].
  cbn. intros [= <-]. apply readDigits_nonneg in Hv; [lia | assumption | discriminate].
Qed.

(** The period read from a normalised identifier is at least 1 whenever the
    default is. *)
Lemma periodOf_positive (indicator : string) (dflt : Z) :
  1 <= dflt ->
  1 <= periodOf (JsString.replaceDashes (JsString.toLowerCase indicator)) dflt.
Proof.
  intros Hd. unfold periodOf, JsString.orElse.
  destruct (JsString.parseInt _) as [z|] eqn:Hz; [|exact Hd].
  apply parseInt_nonneg in Hz.
  - destruct (Z.eqb_spec z 0); lia.
  - apply at_no_dash, split_no_char, replaceDashes_no_dash.
Qed.

Lemma lookback_at_least_one (indicator : string) : 1 <= getIndicatorLookback indicator.
Proof.
  unfold getIndicatorLookback.
  pose proof (periodOf_positive indicator 20 ltac:(lia)).
  pose proof (periodOf_positive indicator 12 ltac:(lia)).
  pose proof (periodOf_positive indicator 14 ltac:(lia)).
  repeat match goal with
         | |- context [if ?b then _ else _] => destruct b
         end; lia.
Qed.

Lemma mathMax_from (l : list Z) (c : Count) :
  fold_left (fun acc z => countMax acc (Finite z)) l c
  = match c, l with
    | NegInfinity, [] => NegInfinity
    | NegInfinity, z :: r => Finite (fold_left Z.max r z)
    | Finite x, _ => Finite (fold_left Z.max l x)
    end.
Proof.
  revert c. induction l as [|z l IH]; intros c; [now destruct c|].
  cbn [fold_left]. rewrite IH. now destruct c.
Qed.

Lemma fold_max_lower (l : list Z) (x : Z) : x <= fold_left Z.max l x.
Proof.
  revert x. induction l as [|z l IH]; intros x; cbn [fold_left]; [lia|].
  specialize (IH (Z.max x z)). lia.
Qed.

Lemma fold_max_upper (l : list Z) (x z : Z) : In z l -> z <= fold_left Z.max l x.
Proof.
  revert x. induction l as [|y l IH]; intros x; [intros []|].
  cbn [fold_left]. intros [->|Hin]; [|now apply IH].
  pose proof (fold_max_lower l (Z.max x z)). lia.
Qed.

(** X1. The lookback of every identifier is at least 1: no spelling of a
    period, whether zero, signed, hexadecimal or missing, makes the resolver
    answer zero or a negative count. So for a non-empty list of names the
    largest lookback is a number, at least 1 and at least each name's
    lookback, while for the empty list it is -Infinity. *)
Theorem getIndicatorLookback_positive :
  (forall indicator : string, 1 <= getIndicatorLookback indicator)
  /\ (forall (name : string) (names : list string),
        exists m, mathMax (map getIndicatorLookback (name :: names)) = Finite m
                  /\ 1 <= m
                  /\ forall n, In n (name :: names) -> getIndicatorLookback n <= m)
  /\ mathMax (map getIndicatorLookback []) = NegInfinity.
Proof.
  split; [exact lookback_at_least_one|]. split; [|reflexivity].
  intros name names. unfold mathMax. rewrite mathMax_from. cbn [map].
  eexists. split; [reflexivity|]. split.
  - pose proof (lookback_at_least_one name).
    pose proof (fold_max_lower (map getIndicatorLookback names) (getIndicatorLookback name)).
    lia.
  - intros n [<-|Hn]; [apply fold_max_lower|].
    apply fold_max_upper. now apply in_map.
Qed.

(** ** The calculator on short and empty series *)

Ltac ltb_facts :=
  repeat match goal with
         | H : (_ <? _) = false |- _ => apply Z.ltb_ge in H
         | H : (_ <? _) = true |- _ => apply Z.ltb_lt in H
         end.

Lemma empty_series_is_null
    `{Ext : Externals} (indicator : string) (bars : TransformedBars)
    (options : TransformOptions) :
  close bars = [] -> calculateIndicator indicator bars options = Ret None.
Proof.
  intros Hempty. unfold calculateIndicator, calculateIndicatorBody.
  rewrite Hempty. cbv zeta. change (len (@nil float)) with 0.
  pose proof (periodOf_positive indicator 20 ltac:(lia)).
  pose proof (periodOf_positive indicator 12 ltac:(lia)).
  pose proof (periodOf_positive indicator 14 ltac:(lia)).
  repeat match goal with
         | |- context [if ?b then _ else _] => destruct b eqn:?
         end; try reflexivity; exfalso; ltb_facts; lia.
Qed.

(** X2. On an empty series the calculator answers [null] for every
    identifier, known or not, and never reaches talib: the answer is the same
    whatever the libraries are. *)
Theorem calculateIndicator_empty_series
    `{Ext : Externals} (indicator : string) (bars : TransformedBars)
    (options : TransformOptions) :
  close bars = [] ->
  calculateIndicator indicator bars options = Ret None
  /\ forall Ext' : Externals,
       calculateIndicator (Ext := Ext') indicator bars options = Ret None.
Proof. intros H. split; [|intros Ext']; now apply empty_series_is_null. Qed.

Lemma calculateIndicator_empty_series_witness :
  Reference.calculate "sma_0x10" emptyBars noOptions = Ret None.
Proof.
  exact (proj1 (calculateIndicator_empty_series (Ext := Reference.externals)
                  "sma_0x10" emptyBars noOptions eq_refl)).
Defined.

(** ** What a result's meta says *)

Lemma prefix_app (p q s : string) :
  String.prefix (String.append p q) s = true -> String.prefix p s = true.
Proof.
  revert s. induction p as [|c p IH]; intros s; [now destruct s|].
  destruct s as [|a s]; [discriminate|].
  change (String.append (String c p) q) with (String c (String.append p q)).
  cbn [String.prefix]. destruct (ascii_dec c a); [apply IH|discriminate].
Qed.

Lemma prefix_of_eq (p s : string) : String.eqb s p = true -> String.prefix p s = true.
Proof.
  intros H. apply String.eqb_eq in H. subst s.
  induction p as [|c p IH]; [reflexivity|].
  cbn [String.prefix]. now destruct (ascii_dec c c).
Qed.

Lemma prefix_head (c d : ascii) (p q s : string) :
  String.prefix (String c p) s = true -> String.prefix (String d q) s = true -> c = d.
Proof.
  destruct s as [|a s]; [discriminate|]. cbn [String.prefix].
  destruct (ascii_dec c a), (ascii_dec d a); congruence.
Qed.

(** X3. Whatever a calculation returns, a computed value or a caught error,
    its meta counts the bars it was given, and its warm-up is a number from 0
    up to, but not including, its required bars. *)
Theorem calculateIndicator_meta_bounds
    `{Ext : Externals} (indicator : string) (bars : TransformedBars)
    (options : TransformOptions) (r : IndicatorResult) :
  calculateIndicator indicator bars options = Ret (Some r) ->
  providedBars (meta r) = len (close bars)
  /\ 0 <= warmupBars (meta r) < requiredBars (meta r).
Proof.
  pose proof (periodOf_positive indicator 20 ltac:(lia)).
  pose proof (periodOf_positive indicator 12 ltac:(lia)).
  pose proof (periodOf_positive indicator 14 ltac:(lia)).
  pose proof (lookback_at_least_one indicator).
  unfold calculateIndicator, tryCatch.
  destruct (calculateIndicatorBody _ _ _) as [msg|res] eqn:Hbody.
  { intros [= <-]. cbn. split; [reflexivity|lia]. }
  intros [= ->]. revert Hbody.
  unfold calculateIndicatorBody, bindExn, talib, output. cbv zeta.
  repeat case_match; intros [= <-];
    cbn [meta providedBars warmupBars requiredBars mkMeta scalarResult];
    (split; [reflexivity|]); ltb_facts;
    first [lia | split; [apply Z.div_pos; lia | apply Z.div_lt_upper_bound; lia]].
Qed.

Lemma calculateIndicator_meta_bounds_witness :
  exists r,
    Reference.calculate "sma_2" twoDecoded noOptions = Ret (Some r)
    /\ providedBars (meta r) = 2
    /\ 0 <= warmupBars (meta r) < requiredBars (meta r).
Proof.
  eexists. split; [reflexivity|].
  exact (calculateIndicator_meta_bounds (Ext := Reference.externals)
           "sma_2" twoDecoded noOptions _ eq_refl).
Defined.

(** X4. Outside the ATR, CCI and MFI families and the unaliased spellings
    plusdi and minusdi, the required bars a result reports are the lookback
    the resolver gives for the same identifier. *)
Theorem requiredBars_is_the_lookback
    `{Ext : Externals} (indicator : string) (bars : TransformedBars)
    (options : TransformOptions) (r : IndicatorResult) :
  let normalized := JsString.replaceDashes (JsString.toLowerCase indicator) in
  JsString.startsWith normalized "atr_" = false ->
  JsString.startsWith normalized "cci_" = false ->
  JsString.startsWith normalized "mfi_" = false ->
  String.eqb normalized "plusdi" = false ->
  String.eqb normalized "minusdi" = false ->
  calculateIndicator indicator bars options = Ret (Some r) ->
  requiredBars (meta r) = getIndicatorLookback indicator.
Proof.
  intros normalized Hatr Hcci Hmfi Hplus Hminus.
  unfold calculateIndicator, tryCatch.
  destruct (calculateIndicatorBody _ _ _) as [msg|res] eqn:Hbody;
    [intros [= <-]; reflexivity|].
  intros [= ->]. revert Hbody.
  unfold calculateIndicatorBody, getIndicatorLookback, bindExn, talib, output.
  cbv zeta. fold normalized. unfold JsString.startsWith in *.
  rewrite Hatr, Hcci, Hmfi, Hplus, Hminus, ?orb_false_r.
  assert (String.prefix "bbands" normalized = false ->
          String.eqb normalized "bbands" || String.prefix "bbands_" normalized = false) as Hbb.
  { intros Hno. apply orb_false_iff. split.
    - destruct (String.eqb normalized "bbands") eqn:E; [|reflexivity].
      apply prefix_of_eq in E. congruence.
    - destruct (String.prefix "bbands_" normalized) eqn:E; [|reflexivity].
      apply (prefix_app "bbands" "_") in E. congruence. }
  destruct (String.prefix "sma_" normalized);
    [repeat case_match; intros [= <-]; reflexivity|].
  destruct (String.prefix "ema_" normalized);
    [repeat case_match; intros [= <-]; reflexivity|].
  destruct (String.prefix "rsi_" normalized);
    [repeat case_match; intros [= <-]; reflexivity|].
  destruct (String.eqb normalized "macd" || String.prefix "macd_" normalized);
    [repeat case_match; intros [= <-]; reflexivity|].
  destruct (String.prefix "bbands" normalized) eqn:Hb.
  { repeat case_match; intros [= <-]; try reflexivity; exfalso;
      repeat match goal with
             | H : String.eqb normalized _ = true |- _ => apply prefix_of_eq in H
             end;
      match goal with
      | H : String.prefix (String _ _) normalized = true |- _ =>
          pose proof (prefix_head _ _ _ _ _ Hb H); discriminate
      end. }
  rewrite (Hbb eq_refl).
  destruct (String.prefix "adx_" normalized);
    [repeat case_match; intros [= <-]; reflexivity|].
  destruct (String.eqb normalized "plus_di");
    [cbn [orb]; repeat case_match; intros [= <-]; reflexivity|].
  destruct (String.eqb normalized "minus_di");
    [cbn [orb]; repeat case_match; intros [= <-]; reflexivity|].
  cbn [orb].
  repeat case_match; intros [= <-]; reflexivity.
Qed.

Lemma requiredBars_is_the_lookback_witness :
  exists r,
    Reference.calculate "EMA-2" twoDecoded noOptions = Ret (Some r)
    /\ requiredBars (meta r) = 4.
Proof.
  eexists. split; [reflexivity|].
  exact (requiredBars_is_the_lookback (Ext := Reference.externals)
           "EMA-2" twoDecoded noOptions _ eq_refl eq_refl eq_refl eq_refl eq_refl eq_refl).
Defined.

(** ** VWAP: the whole series, the previous value and the delta *)

Section VwapSeries.
Context `{Ext : Externals}.
Variable bars : TransformedBars.

(** The loop pushes, for every bar in turn, the VWAP after that bar. *)
Lemma vwapLoop_prefix (n : nat) :
  let st := fold_left (vwapStep bars) (seq 0 n)
              {| cumulativePV := 0; cumulativeVolume := 0; vwapValues := [] |} in
  cumulativePV st = sumPV bars n
  /\ cumulativeVolume st = sumVolume bars n
  /\ vwapValues st = map (vwapAt bars) (seq 0 n).
Proof.
  induction n as [|n (Hpv & Hvol & Hvals)]; [repeat split|].
  cbv zeta in *. unfold sumPV, sumVolume in *.
  rewrite seq_S, !fold_left_app, map_app. cbn [fold_left Nat.add map].
  unfold vwapStep at 1 3 5. cbn [cumulativePV cumulativeVolume vwapValues].
  rewrite Hpv, Hvol, Hvals. repeat split.
  unfold vwapAt, sumPV, sumVolume. now rewrite seq_S, !fold_left_app.
Qed.

Lemma vwapValues_series :
  vwapValues (vwapLoop bars) = map (vwapAt bars) (seq 0 (length (close bars))).
Proof. apply vwapLoop_prefix. Qed.

Lemma item_map_seq (f : nat -> float) (n : nat) (i : Z) :
  0 <= i < Z.of_nat n -> item (map f (seq 0 n)) i = VNum (f (Z.to_nat i)).
Proof.
  intros Hi. unfold item.
  assert ((i <? 0) = false) as -> by (apply Z.ltb_ge; lia).
  rewrite nth_error_map, nth_error_seq.
  destruct (Nat.ltb_spec (Z.to_nat i) n); [reflexivity | lia].
Qed.

End VwapSeries.

(** X5. For the indicator vwap over [S n] bars: the value is the VWAP after
    the last bar; with one bar [prev] and [delta] are null; with more, [prev]
    is the VWAP after the bar before the last, the value the same call gives
    on the series cut by one bar, and [delta] is value minus prev. The answer
    depends neither on talib nor on the options, so not on the price
    source. *)
Theorem vwap_prev_and_delta
    `{Ext : Externals} (bars : TransformedBars) (options : TransformOptions) (n : nat) :
  length (close bars) = S n ->
  (exists r,
     calculateIndicator "vwap" bars options = Ret (Some r)
     /\ value r = VNum (vwapAt bars n)
     /\ match n with
        | O => prev r = VNull /\ delta r = VNull
        | S m => prev r = VNum (vwapAt bars m)
                 /\ delta r = VNum (vwapAt bars n - vwapAt bars m)
        end)
  /\ (forall (Ext' : Externals) (options' : TransformOptions),
        calculateIndicator (Ext := Ext') "vwap" bars options'
        = calculateIndicator "vwap" bars options).
Proof.
  intros Hn. split; [|intros; now rewrite !calculateIndicator_vwap].
  rewrite calculateIndicator_vwap.
  assert ((len (close bars) <? 1) = false) as ->
    by (apply Z.ltb_ge; unfold len; lia).
  eexists. split; [reflexivity|].
  cbn [value prev delta scalarResult]. rewrite vwapValues_series, Hn.
  unfold len. rewrite length_map, length_seq.
  rewrite item_map_seq by lia.
  replace (Z.to_nat (Z.of_nat (S n) - 1)) with n by lia.
  split; [reflexivity|]. destruct n as [|m].
  - split; reflexivity.
  - assert ((1 <? Z.of_nat (S (S m))) = true) as -> by (apply Z.ltb_lt; lia).
    rewrite item_map_seq by lia.
    replace (Z.to_nat (Z.of_nat (S (S m)) - 2)) with m by lia.
    split; reflexivity.
Qed.

Lemma vwap_prev_and_delta_witness :
  exists r,
    Reference.calculate "vwap" twoDecoded noOptions = Ret (Some r)
    /\ value r = VNum 3.5 /\ prev r = VNum 3 /\ delta r = VNum 0.5.
Proof.
  destruct (proj1 (vwap_prev_and_delta (Ext := Reference.externals)
                     twoDecoded noOptions 1 eq_refl)) as (r & Hr & Hv & Hp & Hd).
  exists r. split; [exact Hr|]. rewrite Hv, Hp, Hd.
  repeat split; vm_compute; reflexivity.
Defined.

(** ** Regime classifier: defaults and tags *)

(** X6. The summary needs numbers: from a map in which no stored result has a
    numeric value (every indicator failed, or only structured ones such as
    MACD and Bollinger were computed) every category is its default and no
    input is recorded. *)
Theorem generateMicroSummary_without_numbers
    (indicators : gmap string (option IndicatorResult)) (currentPrice : float) :
  (forall key r, entry indicators key = Some r -> isNumber (value r) = false) ->
  generateMicroSummary indicators currentPrice = defaultSummary.
Proof.
  intros Hno.
  assert (forall key, numericValue (entry indicators key) = None) as Hnum.
  { intros key. unfold numericValue.
    destruct (entry indicators key) as [r|] eqn:E; [|reflexivity].
    specialize (Hno key r E). now destruct (value r). }
  unfold generateMicroSummary, smaBias, diBias, adxStrength, momentumOf, volatilityOf.
  rewrite !Hnum.
  destruct (entry indicators "rsi_14") as [rsi|] eqn:Ersi;
    [rewrite (Hno _ _ Ersi)|];
    (destruct (entry indicators "atr_14") as [atr|] eqn:Eatr;
       [rewrite (Hno _ _ Eatr)|]);
    cbn [andb]; repeat case_match; simplify_eq; reflexivity.
Qed.

Lemma generateMicroSummary_without_numbers_witness :
  generateMicroSummary failedAndStructured 110 = defaultSummary.
Proof.
  apply generateMicroSummary_without_numbers.
  intros key r. unfold entry, failedAndStructured.
  destruct (String.eqb_spec key "rsi_14") as [->|H1].
  { rewrite lookup_insert_eq. intros [= <-]. reflexivity. }
  rewrite lookup_insert_ne by congruence.
  destruct (String.eqb_spec key "atr_14") as [->|H2].
  { rewrite lookup_insert_eq. intros [= <-]. reflexivity. }
  rewrite lookup_insert_ne by congruence.
  destruct (String.eqb_spec key "macd") as [->|H3].
  { rewrite lookup_insert_eq. intros [= <-]. reflexivity. }
  rewrite lookup_insert_ne by congruence.
  rewrite lookup_empty. discriminate.
Defined.

Lemma smaBias_cases (sma20 sma50 : option IndicatorResult) (p : float)
    (st : TrendBias * list string) :
  smaBias sma20 sma50 p st = st
  \/ smaBias sma20 sma50 p st = (bullish, push (snd st) "price>sma20>sma50")
  \/ smaBias sma20 sma50 p st = (bearish, push (snd st) "price<sma20<sma50").
Proof. unfold smaBias. repeat case_match; auto. Qed.

Lemma diBias_cases (plusDI minusDI : option IndicatorResult) (st : TrendBias * list string) :
  diBias plusDI minusDI st = st
  \/ diBias plusDI minusDI st
     = (match fst st with bearish => neutral | neutral => bullish | b => b end,
        push (snd st) "+di>-di")
  \/ diBias plusDI minusDI st
     = (match fst st with bullish => neutral | neutral => bearish | b => b end,
        push (snd st) "+di<-di").
Proof.
  unfold diBias.
  destruct (numericValue plusDI), (numericValue minusDI); auto.
  destruct (gt _ _); auto.
Qed.

Lemma adxStrength_cases (adx : option IndicatorResult) (st : TrendStrength * list string) :
  adxStrength adx st = st
  \/ adxStrength adx st = (strong, push (snd st) "adx>25")
  \/ adxStrength adx st = (moderate, push (snd st) "adx>15")
  \/ adxStrength adx st = (weak, push (snd st) "adx<15").
Proof. unfold adxStrength. repeat case_match; auto. Qed.

Lemma momentumOf_cases (rsi macd : option IndicatorResult) (st : Momentum * list string) :
  momentumOf rsi macd st = st
  \/ momentumOf rsi macd st = (positive_strong, push (snd st) "macd_hist>0_rising")
  \/ momentumOf rsi macd st = (positive_weakening, push (snd st) "macd_hist>0_falling")
  \/ momentumOf rsi macd st = (negative_strong, push (snd st) "macd_hist<0_falling")
  \/ momentumOf rsi macd st = (negative_weakening, push (snd st) "macd_hist<0_rising").
Proof.
  unfold momentumOf.
  destruct rsi as [rsi|], macd as [macd|]; auto.
  destruct (isNumber (value rsi) && truthy (value macd)
            && isNumber (getField (value macd) "histogram")); auto.
  cbv zeta.
  destruct (gt (toNumber (value rsi)) 50 && gt _ 0).
  { destruct (gt _ 0); auto 6. }
  destruct ((toNumber (value rsi) <? 50)%float && (_ <? 0)%float); auto.
  destruct (_ <? 0)%float; auto 6.
Qed.

Lemma volatilityOf_cases (atr bbands : option IndicatorResult) (p : float)
    (st : Volatility * list string) :
  volatilityOf atr bbands p st = st
  \/ volatilityOf atr bbands p st = (vol_low, push (snd st) "low_volatility")
  \/ volatilityOf atr bbands p st = (vol_high, push (snd st) "high_volatility")
  \/ volatilityOf atr bbands p st = (vol_moderate, snd st).
Proof. unfold volatilityOf. repeat case_match; auto. Qed.

(** X7. Every category other than its default is backed by a recorded input.
    A tag of the ADX, momentum and volatility rules is among the inputs
    exactly when the category has the matching value; a bullish bias comes
    with the tag of the SMA rule or of +DI above -DI, a bearish one with the
    opposite tags; and no summary records more than five inputs. *)
Theorem inputs_explain_the_summary
    (indicators : gmap string (option IndicatorResult)) (currentPrice : float) :
  let s := generateMicroSummary indicators currentPrice in
  hasTag s "adx>25" = match trendStrength s with strong => true | _ => false end
  /\ hasTag s "adx>15" = match trendStrength s with moderate => true | _ => false end
  /\ hasTag s "macd_hist>0_rising"
     = match momentum s with positive_strong => true | _ => false end
  /\ hasTag s "macd_hist>0_falling"
     = match momentum s with positive_weakening => true | _ => false end
  /\ hasTag s "macd_hist<0_falling"
     = match momentum s with negative_strong => true | _ => false end
  /\ hasTag s "macd_hist<0_rising"
     = match momentum s with negative_weakening => true | _ => false end
  /\ hasTag s "low_volatility" = match volatility s with vol_low => true | _ => false end
  /\ hasTag s "high_volatility" = match volatility s with vol_high => true | _ => false end
  /\ match trendBias s with
     | bullish => hasTag s "price>sma20>sma50" || hasTag s "+di>-di"
     | bearish => hasTag s "price<sma20<sma50" || hasTag s "+di<-di"
     | neutral => true
     end = true
  /\ (length (inputs s) <= 5)%nat.
Proof.
  unfold generateMicroSummary.
  match goal with
  | |- context [smaBias ?a ?b ?p ?st] =>
      destruct (smaBias_cases a b p st) as [E|[E|E]]; rewrite E; clear E
  end;
  cbn [fst snd];
  match goal with
  | |- context [diBias ?a ?b ?st] =>
      destruct (diBias_cases a b st) as [E|[E|E]]; rewrite E; clear E
  end;
  cbn [fst snd];
  match goal with
  | |- context [adxStrength ?a ?st] =>
      destruct (adxStrength_cases a st) as [E|[E|[E|E]]]; rewrite E; clear E
  end;
  cbn [fst snd];
  match goal with
  | |- context [momentumOf ?a ?b ?st] =>
      destruct (momentumOf_cases a b st) as [E|[E|[E|[E|E]]]]; rewrite E; clear E
  end;
  cbn [fst snd];
  match goal with
  | |- context [volatilityOf ?a ?b ?p ?st] =>
      destruct (volatilityOf_cases a b p st) as [E|[E|[E|E]]]; rewrite E; clear E
  end;
  vm_compute; repeat split; lia.
Qed.

(** ** Bar decoder *)

Section Decoder.
Context `{Ext : Externals}.

Lemma pushBar_grows (pd vd : Z) (acc acc' : TransformedBars) (bar : RawBar) (n : nat) :
  sameLength acc n -> pushBar pd vd acc bar = Ret acc' ->
  sameLength acc' (S n) /\ timestamp acc' = (timestamp acc ++ [raw_timestamp bar])%list.
Proof.
  intros (Ho & Hh & Hl & Hc & Hv & Ht). unfold pushBar, bindExn.
  repeat case_match; try discriminate. intros [= <-].
  unfold sameLength. cbn. rewrite !length_app. cbn. repeat split; lia.
Qed.

Lemma pushBars_grows (pd vd : Z) (bars : list RawBar) (acc tb : TransformedBars) (n : nat) :
  sameLength acc n -> pushBars pd vd acc bars = Ret tb ->
  sameLength tb (n + length bars)
  /\ timestamp tb = (timestamp acc ++ map raw_timestamp bars)%list.
Proof.
  revert acc n. induction bars as [|bar bars IH]; intros acc n Hacc; cbn [pushBars].
  - intros [= <-]. rewrite Nat.add_0_r, app_nil_r. auto.
  - destruct (pushBar pd vd acc bar) as [msg|acc'] eqn:Hpush; [discriminate|].
    cbn [bindExn]. intros Hrest.
    destruct (pushBar_grows _ _ _ _ _ _ Hacc Hpush) as [Hacc' Hts].
    destruct (IH _ _ Hacc' Hrest) as [Hlen Htb].
    split.
    + cbn [length]. now rewrite Nat.add_succ_r.
    + rewrite Htb, Hts, <- app_assoc. reflexivity.
Qed.

Lemma transformBarsToArrays_aligned (bars : list RawBar) (options : TransformOptions)
    (tb : TransformedBars) :
  transformBarsToArrays bars options = Ret tb ->
  sameLength tb (length bars) /\ timestamp tb = map raw_timestamp bars.
Proof.
  intros H. apply (pushBars_grows _ _ _ _ _ 0%nat) in H; [exact H|].
  repeat split.
Qed.

Lemma transformBarsToArrays_nil (options : TransformOptions) :
  transformBarsToArrays [] options = Ret emptyBars.
Proof. reflexivity. Qed.

End Decoder.

(** X8. When the decoder succeeds, the six decoded series all have one entry
    per raw bar, the timestamps are those of the bars in their order, and the
    price series of every price source has that length too. *)
Theorem decoded_series_are_aligned
    `{Ext : Externals} (bars : list RawBar) (options : TransformOptions)
    (tb : TransformedBars) :
  transformBarsToArrays bars options = Ret tb ->
  length (open tb) = length bars /\ length (high tb) = length bars
  /\ length (low tb) = length bars /\ length (close tb) = length bars
  /\ length (volume tb) = length bars
  /\ timestamp tb = map raw_timestamp bars
  /\ forall source, length (getPriceArray tb source) = length bars.
Proof.
  intros H. destruct (transformBarsToArrays_aligned _ _ _ H)
    as [(Ho & Hh & Hl & Hc & Hv & _) Hts].
  repeat split; try assumption.
  intros []; cbn [getPriceArray]; rewrite ?length_imap; assumption.
Qed.

Lemma decoded_series_are_aligned_witness :
  transformBarsToArrays (Ext := Reference.externals) twoBars noOptions = Ret twoDecoded
  /\ length (close twoDecoded) = 2%nat.
Proof.
  split; [vm_compute; reflexivity|].
  exact (proj1 (proj2 (proj2 (proj2
           (decoded_series_are_aligned (Ext := Reference.externals)
              twoBars noOptions twoDecoded eq_refl))))).
Defined.

(** ** Trimming drops at most one bar *)

(** X9. Whatever the flag, the resolution and the clock, trimming splits the
    fetched bars into the bars kept and at most one dropped bar at the end;
    it appends one INCOMPLETE_LAST_BAR warning, with the timestamp of the
    dropped bar, exactly when a bar is dropped; and it drops nothing when
    [includeIncompleteLastBar] is set. *)
Theorem trimIncompleteLastBar_shape
    (includeIncomplete : bool) (r : Resolution) (now : Z) (bars : list RawBar)
    (warnings : list Warning) :
  exists dropped : list RawBar,
    (bars = fst (trimIncompleteLastBar includeIncomplete r now bars warnings) ++ dropped)%list
    /\ (length dropped <= 1)%nat
    /\ snd (trimIncompleteLastBar includeIncomplete r now bars warnings)
       = (warnings ++ map (fun bar => INCOMPLETE_LAST_BAR (raw_timestamp bar)) dropped)%list
    /\ (includeIncomplete = true -> dropped = []).
Proof.
  unfold trimIncompleteLastBar.
  destruct (negb includeIncomplete && (0 <? len bars)) eqn:Hguard.
  - destruct (last bars) as [lastBar|] eqn:Hlast.
    + destruct (negb (barDuration r <=? now - raw_timestamp lastBar)).
      * exists [lastBar]. cbn [fst snd map length].
        apply last_Some in Hlast as [front ->]. rewrite removelast_last.
        repeat split; [lia|].
        intros ->. discriminate.
      * exists []. cbn. rewrite !app_nil_r. repeat split; lia.
    + exists []. cbn. rewrite !app_nil_r. repeat split; lia.
  - exists []. cbn. rewrite !app_nil_r. repeat split; lia.
Qed.

(** ** The tool rejects only for inherited names *)

Lemma normalizeIndicatorName_shape (name : string) :
  (exists t, normalizeIndicatorName name = VStr t)
  \/ (normalizedName name = "constructor"
      /\ normalizeIndicatorName name = VBuiltin "constructor")
  \/ (normalizedName name = "__proto__"
      /\ normalizeIndicatorName name = VBuiltin "__proto__").
Proof.
  pose proof (normalizeString_idempotent name) as Hidem.
  unfold normalizeIndicatorName, normalizedName, lookupProperty.
  set (lower := JsString.replaceDashes (JsString.toLowerCase name)) in *.
  destruct (assoc lower aliases) as [v|].
  { left. cbn [truthy]. destruct (negb (String.eqb v "")); eauto. }
  destruct (existsb (String.eqb lower) objectPrototype) eqn:Hproto; [|left; cbn; eauto].
  cbn [truthy]. unfold objectPrototype in Hproto. cbn [existsb] in Hproto.
  repeat match type of Hproto with
         | (String.eqb lower ?k || _) = true =>
             destruct (String.eqb_spec lower k) as [Hk|_];
             [ clear Hproto | cbn [orb] in Hproto ]
         end;
    try (rewrite Hk in Hidem; vm_compute in Hidem; discriminate Hidem);
    try discriminate Hproto.
  - right; left. now rewrite Hk.
  - right; right. now rewrite Hk.
Qed.

Lemma lookbacks_of_strings (names : list string) :
  lookbacks (map VStr names) = Ret (map (fun s => (s, getIndicatorLookback s)) names).
Proof.
  unfold lookbacks. induction names as [|s names IH]; [reflexivity|].
  cbn [map mapExn withString bindExn]. now rewrite IH.
Qed.

Lemma lookbacks_inherited (l : list JsVal) (k : string) :
  In (VBuiltin k) l ->
  (forall v, In v l -> (exists s, v = VStr s) \/ (exists k', v = VBuiltin k')) ->
  lookbacks l = Throw "indicator.toLowerCase is not a function".
Proof.
  unfold lookbacks. induction l as [|v l IH]; [intros []|].
  intros Hin Hall. cbn [mapExn].
  destruct (Hall v (or_introl eq_refl)) as [[s ->]|[k' ->]]; [|reflexivity].
  cbn [withString bindExn].
  destruct Hin as [Hv|Hin]; [discriminate|].
  rewrite IH; [reflexivity | assumption | intros; apply Hall; now right].
Qed.

Lemma tryCatch_returns {A : Type} (body : Exn A) (f : string -> A) :
  exists a, tryCatch body (fun msg => Ret (f msg)) = Ret a.
Proof. destruct body; cbn; eauto. Qed.

Lemma o2_indicators_after_guard `{Ext : Externals} (w : World) (req : Request)
    (named : list (string * Z)) :
  len (indicators req) <= 20 ->
  lookbacks (map normalizeIndicatorName (indicators req)) = Ret named ->
  o2_indicators w req
  = (tryCatch (response <-! o2RequestRaw w (buildQuery w req (mathMax (map snd named)));
               afterFetch w req (map fst named) (mathMax (map snd named))
                 (fst (fst (resolveWindow w req))) (snd (fst (resolveWindow w req)))
                 (snd (resolveWindow w req)) response)
              (fun msg => Ret (Failure msg None)),
     [buildQuery w req (mathMax (map snd named))]).
Proof.
  intros Hlen Hlook. unfold o2_indicators.
  assert ((20 <? len (indicators req)) = false) as -> by now apply Z.ltb_ge.
  rewrite Hlook. now destruct (resolveWindow w req) as [[? ?] ?].
Qed.

(** X10. A request within the limit of 20 makes the tool throw exactly when one
    of its names, lower-cased and with dashes as underscores, is "constructor"
    or "__proto__": then it throws a TypeError and sends no query. For every
    other request within the limit the tool returns an answer, a failure or a
    success, and has sent exactly one query. *)
Theorem o2_indicators_throws_only_for_inherited_names
    `{Ext : Externals} (w : World) (req : Request) :
  len (indicators req) <= 20 ->
  ((exists name, In name (indicators req)
                 /\ (normalizedName name = "constructor"
                     \/ normalizedName name = "__proto__")) ->
   o2_indicators w req = (Throw "indicator.toLowerCase is not a function", []))
  /\ ((forall name, In name (indicators req) ->
         normalizedName name <> "constructor" /\ normalizedName name <> "__proto__") ->
      exists payload query, o2_indicators w req = (Ret payload, [query])).
Proof.
  intros Hlen. split.
  - intros (name & Hin & Hname). unfold o2_indicators.
    assert ((20 <? len (indicators req)) = false) as -> by now apply Z.ltb_ge.
    assert (exists k, In (VBuiltin k) (map normalizeIndicatorName (indicators req)))
      as [k Hk].
    { destruct (normalizeIndicatorName_shape name) as [[t Ht]|[[Hn Hb]|[Hn Hb]]].
      - exfalso. revert Ht. unfold normalizeIndicatorName, lookupProperty.
        fold (normalizedName name).
        destruct Hname as [-> | ->]; vm_compute; discriminate.
      - exists "constructor". rewrite <- Hb. now apply in_map.
      - exists "__proto__". rewrite <- Hb. now apply in_map. }
    rewrite (lookbacks_inherited _ k Hk); [reflexivity|].
    intros v Hv. apply in_map_iff in Hv as (n & <- & _).
    destruct (normalizeIndicatorName_shape n) as [[t ->]|[[_ ->]|[_ ->]]]; eauto.
  - intros Hok.
    assert (map normalizeIndicatorName (indicators req)
            = map VStr (map (fun n => match normalizeIndicatorName n with
                                      | VStr t => t | _ => "" end) (indicators req)))
      as Hstr.
    { rewrite map_map. apply map_ext_in. intros n Hn.
      destruct (normalizeIndicatorName_shape n) as [[t ->]|[[E _]|[E _]]];
        [reflexivity| |]; destruct (Hok n Hn); contradiction. }
    erewrite o2_indicators_after_guard;
      [|assumption | rewrite Hstr; apply lookbacks_of_strings].
    edestruct (tryCatch_returns (A := ToolPayload)) as [payload ->]. eauto.
Qed.

Lemma o2_indicators_throws_only_for_inherited_names_witness :
  Reference.run (Reference.serving twoBars 5000000)
    (Reference.request ["vwap"; "Constructor"] Snapshot false)
  = (Throw "indicator.toLowerCase is not a function", [])
  /\ exists payload query,
       Reference.run (Reference.serving twoBars 5000000)
         (Reference.request ["vwap"] Snapshot false) = (Ret payload, [query]).
Proof.
  split.
  - apply (proj1 (o2_indicators_throws_only_for_inherited_names
                    (Ext := Reference.externals) (Reference.serving twoBars 5000000)
                    (Reference.request ["vwap"; "Constructor"] Snapshot false)
                    ltac:(vm_compute; discriminate))).
    exists "Constructor". split; [right; left; reflexivity | left; reflexivity].
  - apply (proj2 (o2_indicators_throws_only_for_inherited_names
                    (Ext := Reference.externals) (Reference.serving twoBars 5000000)
                    (Reference.request ["vwap"] Snapshot false)
                    ltac:(vm_compute; discriminate))).
    intros name [<-|[]]. split; vm_compute; discriminate.
Defined.

(** ** Anatomy of a successful answer *)

Section Success.
Context `{Ext : Externals}.

(** What the loop over the names has stored when it runs to its end, in
    either mode. *)
Lemma calculateAll_stored (strictMode : bool) (tb : TransformedBars)
    (options : TransformOptions) (nbars : Z) (names : list string)
    (calculated m : gmap string (option IndicatorResult)) :
  calculateAll strictMode tb options nbars names calculated = Ret (inr m) ->
  (forall name, In name names ->
     m !! name = Some (Some (storedResult tb options nbars name)))
  /\ (forall name, ~ In name names -> m !! name = calculated !! name)
  /\ (strictMode = true ->
      forall name, In name names ->
        exists r, calculateIndicator name tb options = Ret (Some r) /\ hasError r = false).
Proof.
  revert calculated. induction names as [|indicator rest IH]; intros calculated.
  { intros [= <-]. repeat split; [intros ? []|intros _ ? []]. }
  cbn [calculateAll].
  destruct (calculateIndicator_returns indicator tb options) as [res Hres].
  rewrite Hres. cbn [bindExn].
  assert (storedResult tb options nbars indicator
          = match res with Some r => r | None => insufficientResult indicator nbars end)
    as Hstored by (unfold storedResult; rewrite Hres; now destruct res).
  intros Hrun.
  assert (exists acc, calculateAll strictMode tb options nbars rest acc = Ret (inr m)
                      /\ acc = <[indicator := Some (storedResult tb options nbars indicator)]>
                                 calculated
                      /\ (strictMode = true ->
                          exists r, res = Some r /\ hasError r = false))
    as (acc & Hacc & -> & Hstrict).
  { rewrite Hstored. destruct res as [r|].
    - destruct (hasError r) eqn:Herr, strictMode; try discriminate Hrun;
        eexists; (split; [exact Hrun|]); split; eauto; discriminate.
    - destruct strictMode; [discriminate Hrun|].
      eexists; (split; [exact Hrun|]); split; eauto; discriminate. }
  destruct (IH _ Hacc) as (Hin & Hout & Hs). repeat split.
  - intros name [<-|Hname].
    + destruct (in_dec string_dec indicator rest) as [Hi|Hi]; [now apply Hin|].
      rewrite (Hout _ Hi). apply lookup_insert_eq.
    + now apply Hin.
  - intros name Hnot. rewrite Hout by (cbn in Hnot; tauto).
    apply lookup_insert_ne. cbn in Hnot. tauto.
  - intros Hmode name [<-|Hname]; [|now apply Hs].
    destruct (Hstrict Hmode) as (r & -> & Herr). eauto.
Qed.

(** A successful answer comes from one path through the [try] block. *)
Lemma afterFetch_success (w : World) (req : Request) (names : list string)
    (maxLookback : Count) (fromTs toTs : option Z) (warnings : list Warning)
    (response : RawResponse) (payload : ToolPayload) (reported : list Warning) :
  afterFetch w req names maxLookback fromTs toTs warnings response = Ret payload ->
  payloadWarnings payload = Some reported ->
  exists (fetched bars : list RawBar) (kept : list Warning) (tb : TransformedBars)
         (m : gmap string (option IndicatorResult)),
    ok response = true
    /\ data response = DataBars fetched
    /\ fetched <> []
    /\ trimIncompleteLastBar (default false (includeIncompleteLastBar req)) (resolution req)
         (now_trim w) fetched warnings = (bars, kept)
    /\ ltCount (len bars) maxLookback && default false (strict req) = false
    /\ reported = withInsufficient maxLookback bars kept
    /\ transformBarsToArrays bars (requestOptions req) = Ret tb
    /\ calculateAll (default false (strict req)) tb (requestOptions req) (len bars) names ∅
       = Ret (inr m)
    /\ payload = successPayload req fromTs toTs bars reported tb m.
Proof.
  unfold afterFetch, afterTrim.
  destruct (ok response); cbn [negb]; [|intros [= <-]; discriminate].
  destruct (data response) as [| |fetched] eqn:Hdata; cbn [bindExn];
    [discriminate | intros [= <-]; discriminate |].
  destruct (len fetched =? 0) eqn:Hlen; [intros [= <-]; discriminate|].
  destruct (trimIncompleteLastBar _ _ _ _ _) as [bars kept] eqn:Htrim.
  destruct (ltCount (len bars) maxLookback && default false (strict req)) eqn:Hfatal;
    [intros [= <-]; discriminate|].
  fold (requestOptions req). fold (withInsufficient maxLookback bars kept).
  destruct (transformBarsToArrays bars (requestOptions req)) as [|tb] eqn:Htb;
    cbn [bindExn]; [discriminate|].
  destruct (calculateAll _ _ _ _ _ _) as [|[early|m]] eqn:Hall; cbn [bindExn];
    [discriminate | |].
  { intros [= <-] Hw. exfalso. revert Hall Hw. clear.
    generalize (∅ : gmap string (option IndicatorResult)).
    induction names as [|indicator rest IH]; intros acc; cbn [calculateAll];
      [discriminate|].
    destruct (calculateIndicator indicator tb (requestOptions req)) as [|[r|]];
      cbn [bindExn]; [discriminate| |].
    - destruct (hasError r && default false (strict req)); [|apply IH].
      intros [= <-]. discriminate.
    - destruct (default false (strict req)); [|apply IH].
      intros [= <-]. discriminate. }
  intros Hpayload Hw.
  assert (payload = successPayload req fromTs toTs bars
                      (withInsufficient maxLookback bars kept) tb m) as ->.
  { unfold successPayload. destruct (default Snapshot (mode req));
      now injection Hpayload as <-. }
  assert (reported = withInsufficient maxLookback bars kept) as ->.
  { unfold successPayload in Hw. destruct (default Snapshot (mode req));
      cbn in Hw; congruence. }
  exists fetched, bars, kept, tb, m. repeat split; try assumption.
  intros ->. discriminate Hlen.
Qed.

(** A successful answer of the tool went through the guard, the resolver and
    one answered query. *)
Lemma o2_indicators_success (w : World) (req : Request) (payload : ToolPayload)
    (reported : list Warning) :
  fst (o2_indicators w req) = Ret payload ->
  payloadWarnings payload = Some reported ->
  exists (named : list (string * Z)) (response : RawResponse),
    len (indicators req) <= 20
    /\ lookbacks (map normalizeIndicatorName (indicators req)) = Ret named
    /\ o2RequestRaw w (buildQuery w req (mathMax (map snd named))) = Ret response
    /\ afterFetch w req (map fst named) (mathMax (map snd named))
         (fst (fst (resolveWindow w req))) (snd (fst (resolveWindow w req)))
         (snd (resolveWindow w req)) response = Ret payload.
Proof.
  destruct (Z.ltb_spec 20 (len (indicators req))) as [Hmany|Hlen].
  { unfold o2_indicators. apply Z.ltb_lt in Hmany. rewrite Hmany.
    intros [= <-]. discriminate. }
  destruct (lookbacks (map normalizeIndicatorName (indicators req))) as [msg|named] eqn:Hlook.
  { unfold o2_indicators. apply Z.ltb_ge in Hlen. rewrite Hlen, Hlook. discriminate. }
  rewrite (o2_indicators_after_guard w req named Hlen Hlook). cbn [fst].
  destruct (o2RequestRaw w _) as [msg|response] eqn:Hreq; cbn [bindExn tryCatch].
  { intros [= <-]. discriminate. }
  destruct (afterFetch _ _ _ _ _ _ _ _) as [msg|p] eqn:Hafter; cbn [tryCatch].
  { intros [= <-]. discriminate. }
  intros [= ->] _. eauto 10.
Qed.

End Success.

Lemma lookbacks_names (l : list JsVal) (named : list (string * Z)) :
  lookbacks l = Ret named ->
  l = map VStr (map fst named)
  /\ map snd named = map getIndicatorLookback (map fst named).
Proof.
  unfold lookbacks. revert named. induction l as [|v l IH]; intros named; cbn [mapExn].
  - intros [= <-]. split; reflexivity.
  - destruct v; cbn [withString bindExn]; try discriminate.
    destruct (mapExn _ l) as [|rest]; cbn [bindExn]; [discriminate|].
    intros [= <-]. destruct (IH rest eq_refl) as [-> Hsnd].
    cbn [map fst snd]. now rewrite Hsnd.
Qed.

Lemma reportedValue_success (req : Request) (fromTs toTs : option Z) (bars : list RawBar)
    (warnings : list Warning) (tb : TransformedBars)
    (m : gmap string (option IndicatorResult)) (k : string) :
  reportedValue (successPayload req fromTs toTs bars warnings tb m) k
  = match m !! k with
    | Some (Some r) => Some (reportedOf (default Snapshot (mode req)) r)
    | Some None =>
        match default Snapshot (mode req) with Snapshot => None | Window => Some VNull end
    | None => None
    end.
Proof.
  unfold successPayload, reportedOf. destruct (default Snapshot (mode req));
    cbn [reportedValue s_indicators w_indicators].
  - rewrite lookup_omap. now destruct (m !! k) as [[r|]|].
  - rewrite lookup_fmap. now destruct (m !! k) as [[r|]|].
Qed.

(** X11. A successful answer, in either mode, has an entry for exactly the
    names requested, as normalised: aliases and repeated names share one
    entry, and nothing else appears. *)
Theorem success_reports_exactly_the_names
    `{Ext : Externals} (w : World) (req : Request) (payload : ToolPayload)
    (reported : list Warning) :
  fst (o2_indicators w req) = Ret payload ->
  payloadWarnings payload = Some reported ->
  forall key : string,
    is_Some (reportedValue payload key)
    <-> exists name, In name (indicators req) /\ normalizeIndicatorName name = VStr key.
Proof.
  intros Hrun Hw key.
  destruct (o2_indicators_success w req payload reported Hrun Hw)
    as (named & response & _ & Hlook & _ & Hafter).
  destruct (afterFetch_success _ _ _ _ _ _ _ _ _ _ Hafter Hw)
    as (fetched & bars & kept & tb & m & _ & _ & _ & _ & _ & _ & _ & Hall & ->).
  destruct (calculateAll_stored _ _ _ _ _ _ _ Hall) as (Hin & Hout & _).
  apply lookbacks_names in Hlook as [Hnames _].
  assert (In key (map fst named)
          <-> exists name, In name (indicators req) /\ normalizeIndicatorName name = VStr key)
    as <-.
  { split.
    - intros H. apply (in_map VStr) in H. rewrite <- Hnames in H.
      apply in_map_iff in H as (name & Hn & Hin'). eauto.
    - intros (name & Hin' & Hn). apply (in_map normalizeIndicatorName) in Hin'.
      rewrite Hnames, Hn in Hin'. apply in_map_iff in Hin' as (x & [= ->] & H).
      exact H. }
  rewrite reportedValue_success.
  destruct (in_dec string_dec key (map fst named)) as [Hk|Hk].
  - rewrite (Hin _ Hk). split; [auto | intros _; eauto].
  - rewrite (Hout _ Hk), lookup_empty. split; [intros [? [=]] | contradiction].
Qed.

Lemma success_reports_exactly_the_names_witness :
  exists payload,
    fst (Reference.run (Reference.serving twoBars 5000000)
           (Reference.request ["VWAP"; "vwap"; "rsi14"] Snapshot false)) = Ret payload
    /\ is_Some (reportedValue payload "rsi_14")
    /\ ~ is_Some (reportedValue payload "rsi14").
Proof.
  eexists. split; [vm_compute; reflexivity|].
  split.
  - eapply (success_reports_exactly_the_names (Ext := Reference.externals)
              (Reference.serving twoBars 5000000)
              (Reference.request ["VWAP"; "vwap"; "rsi14"] Snapshot false));
      [vm_compute; reflexivity | vm_compute; reflexivity |].
    exists "rsi14". split; [cbn; auto | reflexivity].
  - intros H.
    eapply (success_reports_exactly_the_names (Ext := Reference.externals)
              (Reference.serving twoBars 5000000)
              (Reference.request ["VWAP"; "vwap"; "rsi14"] Snapshot false)) in H;
      [| vm_compute; reflexivity | vm_compute; reflexivity].
    destruct H as (name & [<-|[<-|[<-|[]]]] & Hn); discriminate Hn.
Defined.

Lemma mathMax_upper (l : list Z) (z n : Z) :
  In z l -> ltCount n (mathMax l) = false -> z <= n.
Proof.
  unfold mathMax. rewrite mathMax_from. destruct l as [|x l]; [intros []|].
  cbn [ltCount]. intros Hin Hlt. apply Z.ltb_ge in Hlt.
  pose proof (fold_max_lower l x). destruct Hin as [<-|Hin]; [lia|].
  pose proof (fold_max_upper l x z Hin). lia.
Qed.

(** X12. A strict request that succeeds is complete. The provider answered
    with bars; the bars kept after trimming are at least as many as the
    lookback of every requested name, so as the largest one; they decode; the
    answer carries no INSUFFICIENT_BARS warning; and under every requested
    name it reports the value of the result the calculator returns, without
    an error, for the decoded bars kept. (That value is what the computation
    gives: it is [undefined] when talib has no output.) *)
Theorem strict_success_is_complete
    `{Ext : Externals} (w : World) (req : Request) (payload : ToolPayload)
    (reported : list Warning) :
  default false (strict req) = true ->
  fst (o2_indicators w req) = Ret payload ->
  payloadWarnings payload = Some reported ->
  exists (named : list (string * Z)) (response : RawResponse) (fetched : list RawBar)
         (tb : TransformedBars),
    lookbacks (map normalizeIndicatorName (indicators req)) = Ret named
    /\ o2RequestRaw w (buildQuery w req (mathMax (map snd named))) = Ret response
    /\ data response = DataBars fetched
    /\ let bars :=
         fst (trimIncompleteLastBar (default false (includeIncompleteLastBar req))
                (resolution req) (now_trim w) fetched (snd (resolveWindow w req))) in
       ltCount (len bars) (mathMax (map snd named)) = false
       /\ (forall key, In key (map fst named) -> getIndicatorLookback key <= len bars)
       /\ transformBarsToArrays bars (requestOptions req) = Ret tb
       /\ (forall required available, ~ In (INSUFFICIENT_BARS required available) reported)
       /\ forall name key,
            In name (indicators req) -> normalizeIndicatorName name = VStr key ->
            exists r,
              calculateIndicator key tb (requestOptions req) = Ret (Some r)
              /\ hasError r = false
              /\ reportedValue payload key = Some (value r).
Proof.
  intros Hstrict Hrun Hw.
  destruct (o2_indicators_success w req payload reported Hrun Hw)
    as (named & response & _ & Hlook & Hreq & Hafter).
  destruct (afterFetch_success _ _ _ _ _ _ _ _ _ _ Hafter Hw)
    as (fetched & bars & kept & tb & m & _ & Hdata & _ & Htrim & Hfatal & -> & Htb & Hall & ->).
  rewrite Hstrict in *. rewrite andb_true_r in Hfatal.
  destruct (calculateAll_stored _ _ _ _ _ _ _ Hall) as (Hin & _ & Hs).
  exists named, response, fetched, tb.
  split; [exact Hlook|]. split; [exact Hreq|]. split; [exact Hdata|].
  rewrite Htrim. cbn [fst]. pose proof Hlook as Hnamed.
  apply lookbacks_names in Hnamed as [Hnames Hsnd].
  split; [exact Hfatal|]. split.
  { intros key Hkey. apply (mathMax_upper (map snd named)); [|exact Hfatal].
    rewrite Hsnd. now apply in_map. }
  split; [exact Htb|]. split.
  - unfold withInsufficient. rewrite Hfatal. intros required available Hbad.
    pose proof Htrim as Hshape. unfold trimIncompleteLastBar in Hshape.
    assert (forall x, In x (snd (resolveWindow w req)) ->
                      x <> INSUFFICIENT_BARS required available) as Hinit.
    { unfold resolveWindow.
      destruct (from req), (to req), (asOf req); cbn;
        intros x Hx ->; intuition discriminate. }
    repeat case_match; injection Hshape as <- <-;
      try (apply in_app_iff in Hbad as [Hbad|[Hbad|[]]]; [|discriminate Hbad]);
      exact (Hinit _ Hbad eq_refl).
  - intros name key Hname Hkey.
    assert (In key (map fst named)) as Hk.
    { apply (in_map normalizeIndicatorName) in Hname.
      rewrite Hnames, Hkey in Hname. apply in_map_iff in Hname as (x & [= ->] & H).
      exact H. }
    destruct (Hs eq_refl _ Hk) as (r & Hr & Herr).
    exists r. split; [exact Hr|]. split; [exact Herr|].
    rewrite reportedValue_success, (Hin _ Hk).
    unfold storedResult. rewrite Hr. f_equal.
    unfold reportedOf, formatIndicator, windowValue. rewrite Herr.
    destruct (default Snapshot (mode req)); [reflexivity|].
    cbn [negb andb]. now destruct (value r).
Qed.

Lemma strict_success_is_complete_witness :
  exists payload r,
    fst (Reference.run (Reference.serving twoBars 5000000)
           (Reference.request ["vwap"] Snapshot true)) = Ret payload
    /\ Reference.calculate "vwap" twoDecoded
         (requestOptions (Reference.request ["vwap"] Snapshot true)) = Ret (Some r)
    /\ reportedValue payload "vwap" = Some (value r)
    /\ getIndicatorLookback "vwap" <= len twoBars.
Proof.
  eexists.
  destruct (strict_success_is_complete (Ext := Reference.externals)
              (Reference.serving twoBars 5000000)
              (Reference.request ["vwap"] Snapshot true) _ _
              eq_refl ltac:(vm_compute; reflexivity) ltac:(vm_compute; reflexivity))
    as (named & response & fetched & tb & Hlook & Hreq & Hdata & Hrest).
  injection Hlook as <-. injection Hreq as <-. injection Hdata as <-.
  cbv zeta in Hrest. destruct Hrest as (_ & Hbars & Htb & _ & Hvalues).
  assert (tb = twoDecoded) as ->.
  { assert (@Ret TransformedBars tb = Ret twoDecoded) as E
      by (rewrite <- Htb; vm_compute; reflexivity).
    now injection E. }
  destruct (Hvalues "vwap" "vwap" ltac:(cbn; auto) eq_refl) as (r & Hr & _ & Hv).
  exists r. split; [vm_compute; reflexivity|]. split; [exact Hr|]. split; [exact Hv|].
  apply Hbars. left. reflexivity.
Defined.

(** ** Warnings *)

Lemma resolveWindow_warnings (w : World) (req : Request) :
  snd (resolveWindow w req) = asOfWarnings req.
Proof.
  unfold resolveWindow, asOfWarnings.
  destruct (from req), (to req), (asOf req); reflexivity.
Qed.

Lemma trim_warnings (includeIncomplete : bool) (r : Resolution) (now : Z)
    (bars : list RawBar) (warnings : list Warning) :
  snd (trimIncompleteLastBar includeIncomplete r now bars warnings) = warnings
  \/ (includeIncomplete = false
      /\ exists ts, snd (trimIncompleteLastBar includeIncomplete r now bars warnings)
                    = (warnings ++ [INCOMPLETE_LAST_BAR ts])%list).
Proof.
  unfold trimIncompleteLastBar. destruct includeIncomplete; cbn [negb andb]; auto.
  repeat case_match; cbn [snd]; eauto.
Qed.

(** X13. The warnings of a successful answer are at most three, in a fixed
    order: AS_OF_TIMESTAMP first, exactly when the request has [asOf]; then at
    most one INCOMPLETE_LAST_BAR, and none when the request includes the
    incomplete bar; then at most one INSUFFICIENT_BARS, whose available count
    is below its required count, and none in strict mode. *)
Theorem warnings_are_ordered
    `{Ext : Externals} (w : World) (req : Request) (payload : ToolPayload)
    (reported : list Warning) :
  fst (o2_indicators w req) = Ret payload ->
  payloadWarnings payload = Some reported ->
  exists incomplete insufficient : list Warning,
    reported = (asOfWarnings req ++ incomplete ++ insufficient)%list
    /\ (incomplete = []
        \/ (default false (includeIncompleteLastBar req) = false
            /\ exists ts, incomplete = [INCOMPLETE_LAST_BAR ts]))
    /\ (insufficient = []
        \/ (default false (strict req) = false
            /\ exists required available,
                 insufficient = [INSUFFICIENT_BARS (Finite required) available]
                 /\ available < required)).
Proof.
  intros Hrun Hw.
  destruct (o2_indicators_success w req payload reported Hrun Hw)
    as (named & response & _ & _ & _ & Hafter).
  destruct (afterFetch_success _ _ _ _ _ _ _ _ _ _ Hafter Hw)
    as (fetched & bars & kept & tb & m & _ & _ & _ & Htrim & Hfatal & -> & _).
  rewrite resolveWindow_warnings in Htrim.
  assert (exists incomplete,
            kept = (asOfWarnings req ++ incomplete)%list
            /\ (incomplete = []
                \/ (default false (includeIncompleteLastBar req) = false
                    /\ exists ts, incomplete = [INCOMPLETE_LAST_BAR ts])))
    as (incomplete & -> & Hinc).
  { destruct (trim_warnings (default false (includeIncompleteLastBar req)) (resolution req)
                (now_trim w) fetched (asOfWarnings req)) as [H|(Hflag & ts & H)];
      rewrite Htrim in H; cbn [snd] in H; subst kept.
    - exists []. rewrite app_nil_r. auto.
    - exists [INCOMPLETE_LAST_BAR ts]. eauto. }
  unfold withInsufficient.
  destruct (ltCount (len bars) (mathMax (map snd named))) eqn:Hlt.
  - exists incomplete, [INSUFFICIENT_BARS (mathMax (map snd named)) (len bars)].
    rewrite <- app_assoc. split; [reflexivity|]. split; [exact Hinc|]. right.
    cbn [andb] in Hfatal. split; [exact Hfatal|].
    destruct (mathMax (map snd named)) as [|required]; [discriminate|].
    exists required, (len bars). split; [reflexivity|]. now apply Z.ltb_lt.
  - exists incomplete, []. rewrite !app_nil_r. auto.
Qed.

Lemma warnings_are_ordered_witness :
  exists payload,
    fst (Reference.run (Reference.serving twoBars 2100000)
           (Reference.request ["sma_20"] Snapshot false)) = Ret payload
    /\ payloadWarnings payload = Some [INSUFFICIENT_BARS (Finite 20) 2].
Proof.
  eexists. split; [vm_compute; reflexivity|].
  destruct (warnings_are_ordered (Ext := Reference.externals)
              (Reference.serving twoBars 2100000)
              (Reference.request ["sma_20"] Snapshot false) _ _
              ltac:(vm_compute; reflexivity) ltac:(vm_compute; reflexivity))
    as (incomplete & insufficient & H & _).
  vm_compute. reflexivity.
Defined.

(** ** Window mode: the timestamps *)




(** ** The provider's failures *)

(** X15. Once the guard and the resolver are passed, exactly one query is sent,
    and every failure of the provider comes back as a failure answer, never
    as an exception: the message of what the request threw; "API error: "
    with the status text, and the status, for a response that is not ok; the
    message of the TypeError that reading [bars] of [null] throws, for an ok
    response whose body was empty; and "No bars returned from API" for an ok
    response whose data has no bars or an empty list of bars. *)
Theorem provider_failures_are_answers
    `{Ext : Externals} (w : World) (req : Request) (named : list (string * Z)) :
  len (indicators req) <= 20 ->
  lookbacks (map normalizeIndicatorName (indicators req)) = Ret named ->
  let query := buildQuery w req (mathMax (map snd named)) in
  snd (o2_indicators w req) = [query]
  /\ (forall msg, o2RequestRaw w query = Throw msg ->
        fst (o2_indicators w req) = Ret (Failure msg None))
  /\ (forall response, o2RequestRaw w query = Ret response -> ok response = false ->
        fst (o2_indicators w req)
        = Ret (Failure ("API error: " ++ statusText response) (Some (status response))))
  /\ (forall response, o2RequestRaw w query = Ret response -> ok response = true ->
        data response = DataNull ->
        fst (o2_indicators w req)
        = Ret (Failure "Cannot read properties of null (reading 'bars')" None))
  /\ (forall response, o2RequestRaw w query = Ret response -> ok response = true ->
        data response = DataNoBars \/ data response = DataBars [] ->
        fst (o2_indicators w req) = Ret (Failure "No bars returned from API" None)).
Proof.
  intros Hlen Hlook query.
  rewrite (o2_indicators_after_guard w req named Hlen Hlook). fold query. cbn [fst snd].
  split; [reflexivity|]. repeat split.
  - intros msg ->. reflexivity.
  - intros response -> Hok. cbn [bindExn]. unfold afterFetch. now rewrite Hok.
  - intros response -> Hok Hdata. cbn [bindExn]. unfold afterFetch. now rewrite Hok, Hdata.
  - intros response -> Hok Hdata. cbn [bindExn]. unfold afterFetch. rewrite Hok.
    destruct Hdata as [-> | ->]; reflexivity.
Qed.

Lemma provider_failures_are_answers_witness :
  Reference.run (Reference.serving [] 5000000) (Reference.request ["vwap"] Snapshot false)
  = (Ret (Failure "No bars returned from API" None),
     [buildQuery (Reference.serving [] 5000000)
        (Reference.request ["vwap"] Snapshot false) (Finite 1)])
  /\ fst (Reference.run emptyBody (Reference.request ["vwap"] Snapshot false))
     = Ret (Failure "Cannot read properties of null (reading 'bars')" None).
Proof.
  split.
  - pose proof (provider_failures_are_answers (Ext := Reference.externals)
                  (Reference.serving [] 5000000) (Reference.request ["vwap"] Snapshot false)
                  [("vwap", 1)] ltac:(vm_compute; discriminate) eq_refl)
      as (Hq & _ & _ & _ & Hnone).
    specialize (Hnone _ eq_refl eq_refl (or_intror eq_refl)).
    unfold Reference.run.
    destruct (o2_indicators _ _) as [outcome queries]. cbn [fst snd] in *.
    now rewrite Hq, Hnone.
  - pose proof (provider_failures_are_answers (Ext := Reference.externals)
                  emptyBody (Reference.request ["vwap"] Snapshot false)
                  [("vwap", 1)] ltac:(vm_compute; discriminate) eq_refl)
      as (_ & _ & _ & Hnull & _).
    exact (Hnull _ eq_refl eq_refl eq_refl).
Defined.

(** ** The query *)

Lemma mathMax_nonempty (name : string) (names : list string) :
  exists m, mathMax (map getIndicatorLookback (name :: names)) = Finite m /\ 1 <= m.
Proof.
  unfold mathMax. rewrite mathMax_from. cbn [map]. eexists. split; [reflexivity|].
  pose proof (lookback_at_least_one name).
  pose proof (fold_max_lower (map getIndicatorLookback names) (getIndicatorLookback name)).
  lia.
Qed.

(** X16. The number of bars asked of the provider: for a request with at least
    one name it is the largest lookback, a number of at least 1, plus 50 in
    snapshot mode or plus the window size in window mode; for a request with
    no name it is -Infinity. *)
Theorem count_back_is_lookback_plus_margin
    `{Ext : Externals} (w : World) (req : Request) (named : list (string * Z)) :
  len (indicators req) <= 20 ->
  lookbacks (map normalizeIndicatorName (indicators req)) = Ret named ->
  exists query,
    snd (o2_indicators w req) = [query]
    /\ q_market_id query = marketId req
    /\ q_resolution query = resolution req
    /\ (indicators req = [] -> q_count_back query = NegInfinity)
    /\ (indicators req <> [] ->
        exists m,
          mathMax (map snd named) = Finite m /\ 1 <= m
          /\ q_count_back query
             = Finite (m + match default Snapshot (mode req) with
                           | Snapshot => 50
                           | Window => default 100 (windowSize req)
                           end)).
Proof.
  intros Hlen Hlook.
  rewrite (o2_indicators_after_guard w req named Hlen Hlook). cbn [snd].
  eexists. split; [reflexivity|].
  apply lookbacks_names in Hlook as [Hnames Hsnd].
  unfold buildQuery. destruct (resolveWindow w req) as [[fromTs toTs] ws].
  cbn [q_market_id q_resolution q_count_back].
  split; [reflexivity|]. split; [reflexivity|]. split.
  - intros Hnil. rewrite Hnil in Hnames. destruct named; [|discriminate].
    now destruct (default Snapshot (mode req)).
  - intros Hne. rewrite Hsnd.
    destruct (map fst named) as [|name names] eqn:Hn.
    { destruct (indicators req); [contradiction | discriminate]. }
    destruct (mathMax_nonempty name names) as (m & -> & Hm).
    exists m. split; [reflexivity|]. split; [exact Hm|].
    now destruct (default Snapshot (mode req)).
Qed.

Lemma count_back_is_lookback_plus_margin_witness :
  exists query,
    snd (Reference.run (Reference.serving twoBars 5000000)
           (Reference.request ["sma_20"; "rsi_14"] Snapshot false)) = [query]
    /\ q_count_back query = Finite 70.
Proof.
  destruct (count_back_is_lookback_plus_margin (Ext := Reference.externals)
              (Reference.serving twoBars 5000000)
              (Reference.request ["sma_20"; "rsi_14"] Snapshot false)
              [("sma_20", 20); ("rsi_14", 15)] ltac:(vm_compute; discriminate) eq_refl)
    as (query & Hq & _ & _ & _ & Hcount).
  exists query. split; [exact Hq|].
  destruct (Hcount ltac:(discriminate)) as (m & [= <-] & _ & ->). reflexivity.
Defined.

(** ** The time window *)

Lemma normalizePeriod_table (now : Z) (p : Period) :
  normalizePeriod now p = (now - periodDurationMs p, now).
Proof. destruct p; reflexivity. Qed.

(** X17. The time window of a request. Explicit bounds count only as a pair:
    with both [from] and [to] the window is those two; with one of them
    missing the one given is ignored and the window is the preset period (24h
    when none is named) ending now. An [asOf] then replaces the end of the
    window, whichever way it was found. *)
Theorem explicit_bounds_count_only_as_a_pair (w : World) (req : Request) :
  let span := periodDurationMs (default P24h (period req)) in
  let ending (toTs : option Z) :=
    match asOf req with Some a => timeOf a | None => toTs end in
  (forall f t, from req = Some f -> to req = Some t ->
     fst (resolveWindow w req) = (timeOf f, ending (timeOf t)))
  /\ (from req = None \/ to req = None ->
      fst (resolveWindow w req)
      = (Some (now_period w - span), ending (Some (now_period w)))).
Proof.
  unfold resolveWindow. split.
  - intros f t -> ->. now destruct (asOf req).
  - intros [-> | ->]; rewrite normalizePeriod_table;
      destruct (from req), (asOf req); reflexivity.
Qed.

Lemma explicit_bounds_count_only_as_a_pair_witness :
  fst (resolveWindow (Reference.serving twoBars 5000000)
         (Reference.request ["vwap"] Snapshot false))
  = (Some (5000000 - 86400000), Some 5000000).
Proof.
  exact (proj2 (explicit_bounds_count_only_as_a_pair (Reference.serving twoBars 5000000)
                  (Reference.request ["vwap"] Snapshot false)) (or_introl eq_refl)).
Defined.

(** ** When the only bar is dropped *)

Lemma computeDerivedFields_all_null (m : gmap string (option IndicatorResult))
    (currentPrice : float) :
  (forall key r, m !! key = Some (Some r) -> value r = VNull) ->
  computeDerivedFields m currentPrice = ∅.
Proof.
  intros Hnull. unfold computeDerivedFields, entry.
  destruct (m !! "atr_14") as [[atr|]|] eqn:Hatr; cbn [mjoin option_join]; try reflexivity.
  rewrite (Hnull _ _ Hatr). reflexivity.
Qed.

(** X18. A lenient request whose provider returns one bar that is still
    incomplete goes on with no bar at all and still succeeds: the answer
    carries the INCOMPLETE_LAST_BAR warning followed by INSUFFICIENT_BARS with
    0 available, reports null under every name, and has 0 bars, an undefined
    current price and no derived field in snapshot mode, no timestamp in
    window mode. *)
Theorem dropping_the_only_bar_leaves_an_empty_answer
    `{Ext : Externals} (w : World) (req : Request) (names : list string)
    (maxLookback : Count) (fromTs toTs : option Z) (warnings : list Warning)
    (response : RawResponse) (bar : RawBar) :
  ok response = true ->
  data response = DataBars [bar] ->
  default false (includeIncompleteLastBar req) = false ->
  now_trim w - raw_timestamp bar < resolutionDurationMs (resolution req) ->
  default false (strict req) = false ->
  ltCount 0 maxLookback = true ->
  exists payload,
    afterFetch w req names maxLookback fromTs toTs warnings response = Ret payload
    /\ payloadWarnings payload
       = Some (warnings ++ [INCOMPLETE_LAST_BAR (raw_timestamp bar);
                            INSUFFICIENT_BARS maxLookback 0])%list
    /\ (forall name, In name names -> reportedValue payload name = Some VNull)
    /\ match payload with
       | SnapshotData out =>
           s_bars out = 0 /\ s_currentPrice out = VUndefined /\ s_derived out = ∅
       | WindowData out => w_bars out = 0 /\ w_timestamps out = []
       | Failure _ _ => False
       end.
Proof.
  intros Hok Hdata Hflag Hage Hstrict Hlt.
  assert (trimIncompleteLastBar false (resolution req) (now_trim w) [bar] warnings
          = ([], (warnings ++ [INCOMPLETE_LAST_BAR (raw_timestamp bar)])%list)) as Htrim.
  { unfold trimIncompleteLastBar. cbn [negb andb len length last].
    rewrite barDuration_table.
    assert ((resolutionDurationMs (resolution req) <=? now_trim w - raw_timestamp bar) = false)
      as -> by (apply Z.leb_gt; lia).
    reflexivity. }
  destruct (calculateAll_lenient emptyBars (requestOptions req) 0 names ∅)
    as (m & Hm & Hin & Hout).
  assert (forall key r, m !! key = Some (Some r) -> value r = VNull) as Hnull.
  { intros key r Hkey.
    destruct (in_dec string_dec key names) as [Hk|Hk].
    - rewrite (Hin _ Hk) in Hkey. injection Hkey as <-.
      unfold storedResult. now rewrite empty_series_is_null.
    - rewrite (Hout _ Hk), lookup_empty in Hkey. discriminate. }
  exists (successPayload req fromTs toTs []
            (warnings ++ [INCOMPLETE_LAST_BAR (raw_timestamp bar);
                          INSUFFICIENT_BARS maxLookback 0])%list emptyBars m).
  split.
  - unfold afterFetch, afterTrim. rewrite Hok, Hdata, Hflag, Hstrict. cbn [negb bindExn].
    change (len [bar] =? 0) with false. cbv iota. rewrite Htrim.
    change (len []) with 0. rewrite Hlt. cbn [andb].
    fold (requestOptions req). rewrite transformBarsToArrays_nil. cbn [bindExn].
    rewrite Hm. cbn [bindExn].
    unfold successPayload. rewrite <- app_assoc.
    now destruct (default Snapshot (mode req)).
  - split.
    { unfold successPayload. now destruct (default Snapshot (mode req)). }
    split.
    + intros name Hname. rewrite reportedValue_success, (Hin _ Hname).
      f_equal. unfold reportedOf, storedResult. rewrite empty_series_is_null by reflexivity.
      now destruct (default Snapshot (mode req)).
    + unfold successPayload. destruct (default Snapshot (mode req)).
      * cbn. repeat split. now apply computeDerivedFields_all_null.
      * cbn [w_bars w_timestamps emptyBars timestamp]. unfold sliceFrom.
        rewrite drop_nil. split; reflexivity.
Qed.

Lemma dropping_the_only_bar_leaves_an_empty_answer_witness :
  exists out,
    fst (Reference.run
           (Reference.serving [Reference.flatBar "3000000000" "1000000000" 1000] 2000)
           (withIncludeIncomplete false (Reference.request ["sma_20"] Snapshot false)))
    = Ret (SnapshotData out)
    /\ s_bars out = 0 /\ s_currentPrice out = VUndefined.
Proof.
  eexists. split; [vm_compute; reflexivity|].
  destruct (dropping_the_only_bar_leaves_an_empty_answer (Ext := Reference.externals)
              (Reference.serving [Reference.flatBar "3000000000" "1000000000" 1000] 2000)
              (withIncludeIncomplete false (Reference.request ["sma_20"] Snapshot false))
              ["sma_20"] (Finite 20) (Some (2000 - 86400000)) (Some 2000) []
              {| ok := true; status := 200; statusText := "OK";
                 data := DataBars [Reference.flatBar "3000000000" "1000000000" 1000] |}
              _ eq_refl eq_refl eq_refl ltac:(vm_compute; reflexivity) eq_refl eq_refl)
    as (payload & Hrun & _ & _ & Hshape).
  vm_compute in Hrun. injection Hrun as <-. cbn in Hshape.
  split; [apply Hshape | apply Hshape].
Defined.

(** * Trimmed and insufficient bars, in the tool *)

(** ** The guards of the calculator *)

Section Guards.
Context `{Ext : Externals}.

(** The calculator answers [null] exactly when the bars are too few for the
    guard of the indicator, or no branch handles its name. *)
Lemma calculateIndicator_null_iff (indicator : string) (bars : TransformedBars)
    (options : TransformOptions) :
  calculateIndicator indicator bars options = Ret None
  <-> tooFewBars indicator (len (close bars)) = true.
Proof.
  unfold calculateIndicator, tryCatch, calculateIndicatorBody, tooFewBars, minimumBars.
  cbv zeta.
  repeat match goal with
         | |- context [if ?b then _ else _] =>
             lazymatch b with
             | context [if _ then _ else _] => fail
             | _ => destruct b eqn:?
             end
         end;
    unfold bindExn, talib, output;
    repeat case_match; split; intros; try reflexivity; try discriminate; congruence.
Qed.

End Guards.

Example fourteen_bars_decode :
  transformBarsToArrays (Ext := WarmingUp.externals) fourteenBars noOptions
  = Ret fourteenDecoded.
Proof. vm_compute. reflexivity. Qed.

(** ** Trailing-bar trimming *)

(** C5. A request with [includeIncompleteLastBar = false] (or without the
    flag) whose provider answered with the bars [front ++ [lastBar]]: when
    [now - lastBar.timestamp] is strictly below the duration of the requested
    resolution, the tool goes on with [front] alone, the last bar removed, and
    with one INCOMPLETE_LAST_BAR warning carrying its timestamp appended to
    the warnings; otherwise it goes on with all the bars and the warnings as
    they were. So a successful answer counts and dates the bars kept, and its
    warnings are those, followed only by INSUFFICIENT_BARS when the bars kept
    are too few. *)
Theorem incomplete_last_bar_is_dropped
    `{Ext : Externals} (w : World) (req : Request) (named : list (string * Z))
    (response : RawResponse) (front : list RawBar) (lastBar : RawBar) :
  len (indicators req) <= 20 ->
  lookbacks (map normalizeIndicatorName (indicators req)) = Ret named ->
  let maxLookback := mathMax (map snd named) in
  o2RequestRaw w (buildQuery w req maxLookback) = Ret response ->
  ok response = true ->
  data response = DataBars (front ++ [lastBar])%list ->
  default false (includeIncompleteLastBar req) = false ->
  let fromTs := fst (fst (resolveWindow w req)) in
  let toTs := snd (fst (resolveWindow w req)) in
  let warnings := snd (resolveWindow w req) in
  let incomplete :=
    now_trim w - raw_timestamp lastBar <? resolutionDurationMs (resolution req) in
  let kept := if incomplete then front else (front ++ [lastBar])%list in
  let keptWarnings :=
    if incomplete then (warnings ++ [INCOMPLETE_LAST_BAR (raw_timestamp lastBar)])%list
    else warnings in
  fst (o2_indicators w req)
  = tryCatch (afterTrim req (map fst named) maxLookback fromTs toTs kept keptWarnings)
             (fun msg => Ret (Failure msg None))
  /\ forall payload reported,
       fst (o2_indicators w req) = Ret payload ->
       payloadWarnings payload = Some reported ->
       reported = withInsufficient maxLookback kept keptWarnings
       /\ match payload with
          | SnapshotData out => s_bars out = len kept
          | WindowData out =>
              w_timestamps out
              = sliceFrom (map raw_timestamp kept) (- default 100 (windowSize req))
          | Failure _ _ => False
          end.
Proof.
  intros Hlen Hlook maxLookback Hreq Hok Hdata Hflag fromTs toTs warnings incomplete kept
    keptWarnings.
  assert (afterFetch w req (map fst named) maxLookback fromTs toTs warnings response
          = afterTrim req (map fst named) maxLookback fromTs toTs kept keptWarnings) as Hafter.
  { unfold afterFetch. rewrite Hok, Hdata, Hflag. cbn [negb bindExn].
    assert ((len (front ++ [lastBar]) =? 0) = false) as ->
      by (rewrite len_snoc; apply Z.eqb_neq; unfold len; lia).
    rewrite trimIncompleteLastBar_last. fold incomplete.
    subst kept keptWarnings. now destruct incomplete. }
  assert (fst (o2_indicators w req)
          = tryCatch (afterTrim req (map fst named) maxLookback fromTs toTs kept keptWarnings)
                     (fun msg => Ret (Failure msg None))) as Hrun.
  { rewrite (o2_indicators_after_guard w req named Hlen Hlook). cbn [fst].
    fold maxLookback fromTs toTs warnings. rewrite Hreq. cbn [bindExn]. now rewrite Hafter. }
  split; [exact Hrun|].
  intros payload reported Hpayload Hw.
  assert (afterFetch w req (map fst named) maxLookback fromTs toTs warnings response
          = Ret payload) as Hfetch.
  { rewrite Hafter. rewrite Hrun in Hpayload.
    destruct (afterTrim _ _ _ _ _ _ _) as [msg|p]; cbn [tryCatch] in Hpayload.
    - injection Hpayload as <-. discriminate.
    - exact Hpayload. }
  destruct (afterFetch_success _ _ _ _ _ _ _ _ _ _ Hfetch Hw)
    as (fetched & bars & ws & tb & m & _ & Hdata' & _ & Htrim & _ & -> & Htb & _ & ->).
  rewrite Hdata in Hdata'. injection Hdata' as <-.
  rewrite Hflag, trimIncompleteLastBar_last in Htrim. fold incomplete in Htrim.
  assert (bars = kept /\ ws = keptWarnings) as [-> ->].
  { subst kept keptWarnings. destruct incomplete; now injection Htrim as <- <-. }
  split; [reflexivity|].
  apply transformBarsToArrays_aligned in Htb as [_ Hts].
  unfold successPayload. destruct (default Snapshot (mode req)); cbn; [reflexivity|].
  now rewrite Hts.
Qed.

Lemma incomplete_last_bar_is_dropped_witness :
  (exists out,
     fst (Reference.run (Reference.serving twoBars 202000)
            (withIncludeIncomplete false (Reference.request ["vwap"] Snapshot false)))
     = Ret (SnapshotData out)
     /\ s_bars out = 1 /\ s_warnings out = [INCOMPLETE_LAST_BAR 2000])
  /\ (exists out,
        fst (Reference.run (Reference.serving twoBars 302000)
               (withIncludeIncomplete false (Reference.request ["vwap"] Snapshot false)))
        = Ret (SnapshotData out)
        /\ s_bars out = 2 /\ s_warnings out = []).
Proof.
  pose (served := {| ok := true; status := 200; statusText := "OK";
                     data := DataBars twoBars |}).
  pose (req := withIncludeIncomplete false (Reference.request ["vwap"] Snapshot false)).
  split.
  - destruct (incomplete_last_bar_is_dropped (Ext := Reference.externals)
                (Reference.serving twoBars 202000) req [("vwap", 1)] served
                [Reference.flatBar "3000000000" "1000000000" 1000]
                (Reference.flatBar "4000000000" "1000000000" 2000)
                ltac:(vm_compute; discriminate) eq_refl eq_refl eq_refl eq_refl eq_refl)
      as [_ Hshown].
    eexists. split; [vm_compute; reflexivity|].
    edestruct Hshown as [Hw Hbars]; [vm_compute; reflexivity | reflexivity |].
    split; [exact Hbars|]. vm_compute. reflexivity.
  - destruct (incomplete_last_bar_is_dropped (Ext := Reference.externals)
                (Reference.serving twoBars 302000) req [("vwap", 1)] served
                [Reference.flatBar "3000000000" "1000000000" 1000]
                (Reference.flatBar "4000000000" "1000000000" 2000)
                ltac:(vm_compute; discriminate) eq_refl eq_refl eq_refl eq_refl eq_refl)
      as [_ Hshown].
    eexists. split; [vm_compute; reflexivity|].
    edestruct Hshown as [Hw Hbars]; [vm_compute; reflexivity | reflexivity |].
    split; [exact Hbars|]. vm_compute. reflexivity.
Defined.

(** ** Insufficient bars *)

(** C3. In lenient mode an indicator that cannot be computed is not always
    reported null. Fourteen bars are fetched for sma_20, rsi_14 and atr_14:
    fewer than the largest lookback, 20. The tool succeeds with the
    INSUFFICIENT_BARS warning, and reports null for sma_20 and for rsi_14,
    whose guard asks for period + 1 bars; but the guard of atr_14 asks for
    period bars only, talib has no output for them, and the result, which
    says that 14 bars are required and 14 provided, has the value
    [undefined] and no error. In both modes that is what the answer reports
    for atr_14. *)
Theorem atr_without_output_is_reported_undefined :
  let names := ["sma_20"; "rsi_14"; "atr_14"] in
  let world := Reference.serving fourteenBars 5000000 in
  ltCount (len fourteenBars) (mathMax (map getIndicatorLookback names)) = true
  /\ (exists r,
        calculateIndicator (Ext := WarmingUp.externals) "atr_14" fourteenDecoded noOptions
        = Ret (Some r)
        /\ value r = VUndefined /\ error r = None
        /\ requiredBars (meta r) = 14 /\ providedBars (meta r) = 14)
  /\ (forall m : Mode,
        exists payload,
          fst (WarmingUp.run world (Reference.request names m false)) = Ret payload
          /\ payloadWarnings payload = Some [INSUFFICIENT_BARS (Finite 20) 14]
          /\ reportedValue payload "sma_20" = Some VNull
          /\ reportedValue payload "rsi_14" = Some VNull
          /\ reportedValue payload "atr_14" = Some VUndefined).
Proof.
  cbv zeta. split; [vm_compute; reflexivity|]. split.
  - eexists. split; [vm_compute; reflexivity|]. repeat split.
  - intros []; eexists; (split; [vm_compute; reflexivity|]);
      repeat split; vm_compute; reflexivity.
Qed.

Section Insufficient.
Context `{Ext : Externals}.

Lemma storedResult_too_few (tb : TransformedBars) (options : TransformOptions) (nbars : Z)
    (name : string) :
  tooFewBars name (len (close tb)) = true ->
  storedResult tb options nbars name = insufficientResult name nbars.
Proof.
  intros H. apply (calculateIndicator_null_iff name tb options) in H.
  unfold storedResult. now rewrite H.
Qed.

Lemma storedResult_thrown (tb : TransformedBars) (options : TransformOptions) (nbars : Z)
    (name msg : string) :
  calculateIndicatorBody name tb (getPriceArray tb (default SrcClose (priceSource options)))
  = Throw msg ->
  storedResult tb options nbars name = errorResult name tb msg.
Proof.
  intros H. unfold storedResult, calculateIndicator, tryCatch. now rewrite H.
Qed.

Lemma reportedOf_null (m : Mode) (r : IndicatorResult) :
  value r = VNull -> reportedOf m r = VNull.
Proof.
  intros H. unfold reportedOf, formatIndicator, windowValue. rewrite H.
  destruct m; [now destruct (hasError r) | reflexivity].
Qed.

(** X30. Let the provider have answered with bars, [bars] be what remains of
    them after the optional trimming, and their number be strictly below the
    largest lookback. In strict mode the tool returns the failure that names
    the insufficient bars, with the required and available counts. In
    lenient mode, bars that do not decode give the failure of the decoder;
    bars that decode give a success whose last warning is INSUFFICIENT_BARS
    with both counts, and which reports the value null under every requested
    name for which the bars are fewer than the guard of its branch asks, or
    which no branch handles, or whose computation throws. *)
Theorem insufficient_bars_answers
    (w : World) (req : Request) (named : list (string * Z)) (response : RawResponse)
    (fetched bars : list RawBar) (warnings : list Warning) :
  len (indicators req) <= 20 ->
  lookbacks (map normalizeIndicatorName (indicators req)) = Ret named ->
  let maxLookback := mathMax (map snd named) in
  o2RequestRaw w (buildQuery w req maxLookback) = Ret response ->
  ok response = true ->
  data response = DataBars fetched ->
  fetched <> [] ->
  trimIncompleteLastBar (default false (includeIncompleteLastBar req)) (resolution req)
    (now_trim w) fetched (snd (resolveWindow w req)) = (bars, warnings) ->
  ltCount (len bars) maxLookback = true ->
  (default false (strict req) = true ->
   fst (o2_indicators w req)
   = Ret (Failure ("Insufficient bars. Required: " ++ showCount maxLookback
                     ++ ", Available: " ++ JsString.ofZ (len bars)) None))
  /\ (default false (strict req) = false ->
      (forall msg, transformBarsToArrays bars (requestOptions req) = Throw msg ->
         fst (o2_indicators w req) = Ret (Failure msg None))
      /\ forall tb, transformBarsToArrays bars (requestOptions req) = Ret tb ->
         exists payload,
           fst (o2_indicators w req) = Ret payload
           /\ payloadWarnings payload
              = Some (warnings ++ [INSUFFICIENT_BARS maxLookback (len bars)])%list
           /\ (forall name, In name (map fst named) ->
                 tooFewBars name (len bars) = true ->
                 reportedValue payload name = Some VNull)
           /\ (forall name msg, In name (map fst named) ->
                 calculateIndicatorBody name tb
                   (getPriceArray tb (default SrcClose (req_priceSource req))) = Throw msg ->
                 reportedValue payload name = Some VNull)).
Proof.
  intros Hlen Hlook maxLookback Hreq Hok Hdata Hne Htrim Hlt.
  rewrite (o2_indicators_after_guard w req named Hlen Hlook). cbn [fst].
  fold maxLookback. rewrite Hreq. cbn [bindExn].
  unfold afterFetch. rewrite Hok, Hdata. cbn [negb bindExn].
  assert ((len fetched =? 0) = false) as ->
    by (apply Z.eqb_neq; destruct fetched; [congruence | unfold len; cbn; lia]).
  rewrite Htrim. unfold afterTrim. rewrite Hlt.
  split; intros Hstrict; rewrite Hstrict; cbn [andb]; [reflexivity|].
  fold (requestOptions req). split.
  { intros msg ->. reflexivity. }
  intros tb Htb. rewrite Htb. cbn [bindExn].
  destruct (calculateAll_lenient tb (requestOptions req) (len bars) (map fst named) ∅)
    as (m & Hm & Hin & _).
  rewrite Hm. cbn [bindExn tryCatch].
  exists (successPayload req (fst (fst (resolveWindow w req))) (snd (fst (resolveWindow w req)))
            bars (warnings ++ [INSUFFICIENT_BARS maxLookback (len bars)])%list tb m).
  split; [unfold successPayload; now destruct (default Snapshot (mode req))|].
  split; [unfold successPayload; now destruct (default Snapshot (mode req))|].
  apply transformBarsToArrays_aligned in Htb as [(_ & _ & _ & Hclose & _) _].
  assert (len (close tb) = len bars) as Hsame by (unfold len; now rewrite Hclose).
  split.
  - intros name Hname Hfew. rewrite reportedValue_success, (Hin _ Hname). f_equal.
    apply reportedOf_null. rewrite storedResult_too_few by now rewrite Hsame.
    reflexivity.
  - intros name msg Hname Hthrow. rewrite reportedValue_success, (Hin _ Hname). f_equal.
    apply reportedOf_null. now rewrite (storedResult_thrown _ _ _ _ msg).
Qed.

End Insufficient.

Lemma insufficient_bars_answers_witness :
  fst (Reference.run (Reference.serving twoBars 5000000)
         (Reference.request ["sma_20"; "sma_2"] Snapshot true))
  = Ret (Failure "Insufficient bars. Required: 20, Available: 2" None)
  /\ exists payload,
       fst (Reference.run (Reference.serving twoBars 5000000)
              (Reference.request ["sma_20"; "sma_2"] Snapshot false)) = Ret payload
       /\ payloadWarnings payload = Some [INSUFFICIENT_BARS (Finite 20) 2]
       /\ reportedValue payload "sma_20" = Some VNull
       /\ reportedValue payload "sma_2" = Some VNull.
Proof.
  pose (served := {| ok := true; status := 200; statusText := "OK";
                     data := DataBars twoBars |}).
  split.
  - refine (proj1 (insufficient_bars_answers (Ext := Reference.externals)
                     (Reference.serving twoBars 5000000)
                     (Reference.request ["sma_20"; "sma_2"] Snapshot true)
                     [("sma_20", 20); ("sma_2", 2)] served twoBars twoBars []
                     _ eq_refl eq_refl eq_refl eq_refl _ eq_refl eq_refl) eq_refl).
    + vm_compute. discriminate.
    + discriminate.
  - destruct (proj2 (insufficient_bars_answers (Ext := Reference.externals)
                       (Reference.serving twoBars 5000000)
                       (Reference.request ["sma_20"; "sma_2"] Snapshot false)
                       [("sma_20", 20); ("sma_2", 2)] served twoBars twoBars []
                       ltac:(vm_compute; discriminate) eq_refl eq_refl eq_refl eq_refl
                       ltac:(discriminate) eq_refl eq_refl) eq_refl)
      as [_ Hdecoded].
    destruct (Hdecoded twoDecoded eq_refl) as (payload & Hrun & Hwarn & Hfew & Hthrown).
    exists payload. split; [exact Hrun|]. split; [exact Hwarn|]. split.
    + apply Hfew; [left; reflexivity | vm_compute; reflexivity].
    + apply (Hthrown "sma_2" "talib: SMA is not available");
        [right; left; reflexivity | vm_compute; reflexivity].
Defined.

(** * The session store *)

Lemma assoc_app {A : Type} (key : string) (l1 l2 : list (string * A)) :
  assoc key (l1 ++ l2)%list
  = match assoc key l1 with Some a => Some a | None => assoc key l2 end.
Proof.
  induction l1 as [|[k a] l1 IH]; [reflexivity|].
  cbn [app assoc]. now destruct (String.eqb key k).
Qed.

Lemma assoc_replaceOwn (key k : string) (session : StoredSession)
    (sessions : list (string * StoredSession)) :
  assoc k (replaceOwn key session sessions)
  = if String.eqb k key
    then match assoc key sessions with Some _ => Some session | None => None end
    else assoc k sessions.
Proof.
  induction sessions as [|[k' s] rest IH]; cbn [replaceOwn assoc].
  - now destruct (String.eqb k key).
  - destruct (String.eqb_spec key k') as [->|Hne]; cbn [assoc].
    + destruct (String.eqb_spec k k') as [->|Hk]; [reflexivity|].
      now destruct (String.eqb k k').
    + rewrite IH. destruct (String.eqb_spec k key) as [->|Hk].
      * destruct (String.eqb_spec key k'); [contradiction|reflexivity].
      * reflexivity.
Qed.

(** Reading back what an assignment wrote, and everything else. *)
Lemma assoc_sessionsSet (key k : string) (session : StoredSession)
    (sessions : list (string * StoredSession)) :
  key <> "__proto__" ->
  assoc k (sessionsSet sessions key session)
  = if String.eqb k key then Some session else assoc k sessions.
Proof.
  intros Hkey. unfold sessionsSet.
  destruct (assoc key sessions) as [old|] eqn:Hold.
  - rewrite assoc_replaceOwn, Hold. reflexivity.
  - destruct (String.eqb_spec key "__proto__"); [contradiction|].
    rewrite assoc_app. cbn [assoc].
    destruct (String.eqb_spec k key) as [->|Hk].
    + now rewrite Hold.
    + now destruct (assoc k sessions).
Qed.

Lemma readStore_after_write (disk disk' : Disk) (path path' : string)
    (sessions : list (string * StoredSession)) :
  writeStore disk path sessions = (Ret tt, disk') ->
  readStore disk' path'
  = if String.eqb (fileOf disk path') (fileOf disk path) then sessions
    else readStore disk path'.
Proof.
  unfold writeStore. destruct (writeError disk path); [discriminate|].
  intros [= <-]. unfold readStore, readFile. cbn [files fileOf].
  destruct (String.eqb_spec (fileOf disk path') (fileOf disk path)) as [->|Hne].
  - now rewrite lookup_insert_eq.
  - now rewrite lookup_insert_ne by congruence.
Qed.

Lemma saveSession_writes (env : SessionEnv) (disk : Disk) (params : SaveParams) :
  let path := resolveSessionStorePath env (p_storePath params) in
  match writeError disk path with
  | Some msg => saveSession env disk params = (Throw msg, disk)
  | None =>
      exists disk',
        saveSession env disk params = (Ret (randomUUID env, path), disk')
        /\ writeStore disk path
             (sessionsSet (readStore disk path) (randomUUID env) (newSession env params))
           = (Ret tt, disk')
  end.
Proof.
  cbv zeta. unfold saveSession, writeStore.
  destruct (writeError disk _); [reflexivity|]. eauto.
Qed.

(** X19. Saving a session and reading it back: when the store can be written,
    [saveSession] returns the new id and the resolved path, and on the disk
    it leaves [getSession] finds under that id exactly the session saved,
    with the private key given. (The id must not be "__proto__", which no
    UUID is.) *)
Theorem saved_session_is_read_back
    (env : SessionEnv) (disk : Disk) (params : SaveParams) :
  let path := resolveSessionStorePath env (p_storePath params) in
  randomUUID env <> "__proto__" ->
  writeError disk path = None ->
  exists disk',
    saveSession env disk params = (Ret (randomUUID env, path), disk')
    /\ getSession env disk' (randomUUID env) (p_storePath params)
       = Ret (OwnSession (newSession env params), path)
    /\ getSessionPrivateKey env disk' (randomUUID env) (p_storePath params)
       = Ret (Some (p_sessionPrivateKey params)).
Proof.
  intros path Hid Hw.
  pose proof (saveSession_writes env disk params) as Hsave. cbv zeta in Hsave.
  fold path in Hsave. rewrite Hw in Hsave. destruct Hsave as (disk' & Hsave & Hwrite).
  exists disk'. split; [exact Hsave|].
  assert (getSession env disk' (randomUUID env) (p_storePath params)
          = Ret (OwnSession (newSession env params), path)) as Hget.
  { unfold getSession. fold path.
    rewrite (readStore_after_write _ _ _ _ _ Hwrite), String.eqb_refl.
    unfold sessionsGet. rewrite assoc_sessionsSet by assumption.
    now rewrite String.eqb_refl. }
  split; [exact Hget|].
  unfold getSessionPrivateKey. rewrite Hget. reflexivity.
Qed.

Lemma saved_session_is_read_back_witness :
  exists disk',
    saveSession sampleEnv emptyDisk sampleParams
    = (Ret ("3f2b8c1e-0000-4000-8000-000000000001", "/home/user/.o2-mcp/sessions.json"),
       disk')
    /\ getSessionPrivateKey sampleEnv disk' "3f2b8c1e-0000-4000-8000-000000000001" None
       = Ret (Some "0xkey").
Proof.
  destruct (saved_session_is_read_back sampleEnv emptyDisk sampleParams
              ltac:(discriminate) eq_refl) as (disk' & Hsave & _ & Hkey).
  exists disk'. split; [exact Hsave | exact Hkey].
Defined.




(** ** Finding a valid session *)

(** X21. [findValidSessionForTradeAccount] answers the first stored session,
    in the order of the store, that belongs to the account and whose expiry
    is a non-zero time after now; it answers [null] exactly when the store
    has no such session, so a session without expiry is never found. *)
Theorem findValidSession_is_first_valid
    (env : SessionEnv) (disk : Disk) (now : Z) (account : string)
    (storePath : option string) :
  let stored := map snd (readStore disk (resolveSessionStorePath env storePath)) in
  let valid session :=
    tradeAccountId session = Some account
    /\ exists e, expiryMs session = Some e /\ e <> 0 /\ now < e in
  match findValidSessionForTradeAccount env disk now account storePath with
  | Some session =>
      valid session
      /\ exists before after,
           stored = (before ++ session :: after)%list
           /\ forall other, In other before -> ~ valid other
  | None => forall session, In session stored -> ~ valid session
  end.
Proof.
  cbv zeta. unfold findValidSessionForTradeAccount.
  set (stored := map snd (readStore disk (resolveSessionStorePath env storePath))).
  assert (forall session,
            isFor account session && expiresAfter now session = true
            <-> (tradeAccountId session = Some account
                 /\ exists e, expiryMs session = Some e /\ e <> 0 /\ now < e)) as Hvalid.
  { intros session. unfold isFor, expiresAfter. split.
    - intros H. apply andb_true_iff in H as [Hacc Hexp].
      destruct (tradeAccountId session) as [t|]; [|discriminate].
      apply String.eqb_eq in Hacc as ->. split; [reflexivity|].
      destruct (expiryMs session) as [e|]; [|discriminate].
      apply andb_true_iff in Hexp as [Hz Hlt].
      exists e. split; [reflexivity|]. split; [|now apply Z.ltb_lt].
      intros ->. discriminate.
    - intros (-> & e & -> & Hz & Hlt). rewrite String.eqb_refl. cbn [andb].
      apply andb_true_iff. split; [|now apply Z.ltb_lt].
      now destruct (Z.eqb_spec e 0). }
  induction stored as [|first rest IH]; cbn [find].
  - intros session [].
  - destruct (isFor account first && expiresAfter now first) eqn:Hfirst.
    + split; [now apply Hvalid|]. exists [], rest. split; [reflexivity|]. intros other [].
    + destruct (find _ rest) as [session|].
      * destruct IH as (Hs & before & after & -> & Hbefore). split; [exact Hs|].
        exists (first :: before), after. split; [reflexivity|].
        intros other [<-|Hother]; [|now apply Hbefore].
        intros Hv. apply Hvalid in Hv. congruence.
      * intros session [<-|Hs]; [|now apply IH].
        intros Hv. apply Hvalid in Hv. congruence.
Qed.

Lemma findValidSession_is_first_valid_witness :
  findValidSessionForTradeAccount sampleEnv twoSessionsDisk 1000 "0xaccount" None
  = Some activeSession
  /\ tradeAccountId activeSession = Some "0xaccount".
Proof.
  assert (findValidSessionForTradeAccount sampleEnv twoSessionsDisk 1000 "0xaccount" None
          = Some activeSession) as E by (vm_compute; reflexivity).
  split; [exact E|].
  pose proof (findValidSession_is_first_valid sampleEnv twoSessionsDisk 1000 "0xaccount" None)
    as H.
  cbv zeta in H. rewrite E in H. exact (proj1 (proj1 H)).
Defined.

(** ** Keys and ids *)

Lemma replaceOwn_keyed (key : string) (session : StoredSession)
    (sessions : list (string * StoredSession)) :
  sessionId session = key -> keyedById sessions ->
  keyedById (replaceOwn key session sessions).
Proof.
  intros Hid. unfold keyedById. induction 1 as [|[k s] rest Hk Hrest IH]; cbn [replaceOwn].
  - constructor.
  - destruct (String.eqb_spec key k) as [<-|_]; constructor; auto.
Qed.

(** X22. A store written only by [saveSession] keeps every session under its
    own id: if in every file each key is the [sessionId] of its session, the
    same holds after a save, whether the write succeeds or fails. *)
Theorem saving_keeps_sessions_under_their_ids
    (env : SessionEnv) (disk : Disk) (params : SaveParams) :
  (forall path, keyedById (readStore disk path)) ->
  forall path, keyedById (readStore (snd (saveSession env disk params)) path).
Proof.
  intros Hinv path.
  pose proof (saveSession_writes env disk params) as Hsave. cbv zeta in Hsave.
  destruct (writeError disk _) as [msg|]; [rewrite Hsave; apply Hinv|].
  destruct Hsave as (disk' & -> & Hwrite). cbn [snd].
  rewrite (readStore_after_write _ _ _ _ _ Hwrite).
  destruct (String.eqb _ _); [|apply Hinv].
  unfold sessionsSet. destruct (assoc _ _).
  - apply replaceOwn_keyed; [reflexivity | apply Hinv].
  - destruct (String.eqb (randomUUID env) "__proto__"); [apply Hinv|].
    apply Forall_app. split; [apply Hinv|]. repeat constructor.
Qed.

Lemma saving_keeps_sessions_under_their_ids_witness :
  keyedById (readStore (snd (saveSession sampleEnv emptyDisk sampleParams))
               "/home/user/.o2-mcp/sessions.json").
Proof.
  apply (saving_keeps_sessions_under_their_ids sampleEnv emptyDisk sampleParams).
  intros path. unfold readStore, readFile, emptyDisk. cbn [files fileOf]. rewrite lookup_empty. constructor.
Defined.

(** ** Saving, then finding *)

Lemma find_append {A} (f : A -> bool) (l1 l2 : list A) :
  find f (l1 ++ l2)%list = match find f l1 with Some x => Some x | None => find f l2 end.
Proof.
  induction l1 as [|x l1 IH]; cbn [find app]; [reflexivity|].
  now destruct (f x).
Qed.

(** X23. After a session for an account is saved with an expiry after now, the
    account has a valid session: [findValidSessionForTradeAccount] answers a
    session of that account, and the saved one itself when the store held no
    valid session for the account before. *)
Theorem saved_session_is_found
    (env : SessionEnv) (disk : Disk) (params : SaveParams) (now e : Z) (account : string) :
  let path := resolveSessionStorePath env (p_storePath params) in
  randomUUID env <> "__proto__" ->
  writeError disk path = None ->
  p_tradeAccountId params = Some account ->
  p_expiryMs params = Some e -> e <> 0 -> now < e ->
  exists found,
    findValidSessionForTradeAccount env (snd (saveSession env disk params)) now account
      (p_storePath params) = Some found
    /\ tradeAccountId found = Some account
    /\ (findValidSessionForTradeAccount env disk now account (p_storePath params) = None ->
        assoc (randomUUID env) (readStore disk path) = None ->
        found = newSession env params).
Proof.
  intros path Hid Hw Hacc Hexp Hz Hlt.
  pose proof (saveSession_writes env disk params) as Hsave. cbv zeta in Hsave.
  fold path in Hsave. rewrite Hw in Hsave. destruct Hsave as (disk' & -> & Hwrite).
  cbn [snd].
  assert (isFor account (newSession env params)
          && expiresAfter now (newSession env params) = true) as Hnew.
  { unfold isFor, expiresAfter, newSession. cbn. rewrite Hacc, Hexp, String.eqb_refl.
    cbn. apply andb_true_iff. split; [now destruct (Z.eqb_spec e 0) | now apply Z.ltb_lt]. }
  assert (In (newSession env params)
             (map snd (sessionsSet (readStore disk path) (randomUUID env)
                         (newSession env params)))) as Hin.
  { apply in_map_iff. exists (randomUUID env, newSession env params). split; [reflexivity|].
    pose proof (assoc_sessionsSet (randomUUID env) (randomUUID env) (newSession env params)
                  (readStore disk path) Hid) as Hassoc.
    rewrite String.eqb_refl in Hassoc. revert Hassoc.
    generalize (sessionsSet (readStore disk path) (randomUUID env) (newSession env params)).
    intros l. induction l as [|[k s] l IH]; cbn [assoc]; [discriminate|].
    destruct (String.eqb_spec (randomUUID env) k) as [<-|_].
    - intros [= ->]. now left.
    - intros H. right. now apply IH. }
  unfold findValidSessionForTradeAccount. fold path.
  rewrite (readStore_after_write _ _ _ _ _ Hwrite), String.eqb_refl.
  destruct (find _ (map snd (sessionsSet _ _ _))) as [found|] eqn:Hfound.
  - exists found. split; [reflexivity|]. split.
    + apply find_some in Hfound as [_ Hv]. apply andb_true_iff in Hv as [Hv _].
      unfold isFor in Hv. destruct (tradeAccountId found); [|discriminate].
      apply String.eqb_eq in Hv. now subst.
    + intros Hnone Hfresh. unfold sessionsSet in Hfound.
      rewrite Hfresh in Hfound.
      destruct (String.eqb_spec (randomUUID env) "__proto__"); [contradiction|].
      rewrite map_app in Hfound. cbn [map snd] in Hfound.
      rewrite find_append in Hfound. unfold findValidSessionForTradeAccount in Hnone. fold path in Hnone. rewrite Hnone in Hfound. cbn [find] in Hfound.
      rewrite Hnew in Hfound. now injection Hfound.
  - exfalso. eapply find_none in Hfound; [|exact Hin]. congruence.
Qed.

Lemma saved_session_is_found_witness :
  findValidSessionForTradeAccount sampleEnv (snd (saveSession sampleEnv emptyDisk sampleParams))
    1000 "0xaccount" None
  = Some (newSession sampleEnv sampleParams).
Proof.
  destruct (saved_session_is_found sampleEnv emptyDisk sampleParams 1000 2000 "0xaccount"
              ltac:(discriminate) eq_refl eq_refl eq_refl ltac:(discriminate) ltac:(lia))
    as (found & Hfound & _ & Hnew).
  transitivity (Some found); [exact Hfound|].
  f_equal. apply Hnew; vm_compute; reflexivity.
Defined.

(** ** The session tools *)

(** X24. [o2SessionsList] counts what it lists, and lists in the order of the
    store. Unless expired sessions are asked for, every listed session is
    flagged active; a stored session is listed exactly when expired sessions
    are asked for or the session is active, that is, has no expiry, expiry 0,
    or an expiry after now. *)
Theorem sessions_list_shows_active_sessions
    (env : SessionEnv) (disk : Disk) (now : Z) (path : option string)
    (includeExpired : option bool) (total : Z) (sessions : list ListedSession) :
  o2SessionsList env disk now path includeExpired = ListOk total sessions ->
  total = len sessions
  /\ (default false includeExpired = false ->
      Forall (fun s => l_isActive s = true) sessions)
  /\ (forall stored,
        readFile disk (resolveSessionStorePath env path) = Some (Store stored) ->
        (exists kept, sublist kept (map snd stored) /\ sessions = map (listed now) kept)
        /\ forall session, In session (map snd stored) ->
             (In (listed now session) sessions
              <-> default false includeExpired = true
                  \/ isActiveAt now (expiryMs session) = true)).
Proof.
  unfold o2SessionsList. cbv zeta.
  set (keep := fun session : StoredSession =>
                 if default false includeExpired then true else notExpired now session).
  assert (forall session, notExpired now session = isActiveAt now (expiryMs session)) as Hsame.
  { intros session. unfold notExpired, isActiveAt.
    destruct (expiryMs session) as [e|]; [|reflexivity]. now destruct (e =? 0). }
  intros H.
  assert (total = len sessions) as Htotal.
  { destruct (readFile disk (resolveSessionStorePath env path)) as [[| [msg|] |stored]|];
      try discriminate; injection H as <- <-; reflexivity. }
  assert (exists all, sessions = map (listed now) (List.filter keep all)
                      /\ forall stored,
                           readFile disk (resolveSessionStorePath env path) = Some (Store stored) ->
                           all = map snd stored) as (all & -> & Hall).
  { destruct (readFile disk (resolveSessionStorePath env path)) as [[| [msg|] |stored]|];
      try discriminate; injection H as _ <-.
    - exists []. split; [reflexivity|]. intros ? [=].
    - exists []. split; [reflexivity|]. intros ? [=].
    - exists (map snd stored). split; [reflexivity|]. intros ? [=]. now subst.
    - exists []. split; [reflexivity|]. intros ? [=]. }
  split; [exact Htotal|]. split.
  - intros Hno. apply List.Forall_forall. intros listedSession Hin.
    apply in_map_iff in Hin as (session & <- & Hin).
    apply filter_In in Hin as [_ Hkeep]. unfold keep in Hkeep. rewrite Hno in Hkeep.
    cbn [listed l_isActive]. now rewrite <- Hsame.
  - intros stored Hstored. rewrite (Hall stored Hstored). split.
    + exists (List.filter keep (map snd stored)). split; [|reflexivity].
      generalize (map snd stored). intros l. induction l as [|x l IH]; cbn [List.filter].
      * constructor.
      * destruct (keep x); now constructor.
    + intros session Hin. split.
      * intros Hl. apply in_map_iff in Hl as (other & Heq & Hother).
        apply filter_In in Hother as [_ Hkeep]. unfold keep in Hkeep.
        destruct (default false includeExpired); [now left|right].
        rewrite Hsame in Hkeep.
        assert (expiryMs other = expiryMs session) as <-; [|exact Hkeep].
        change (l_expiryMs (listed now other) = l_expiryMs (listed now session)).
        now rewrite Heq.
      * intros Hc. apply in_map. apply filter_In. split; [exact Hin|].
        unfold keep. destruct (default false includeExpired); [reflexivity|].
        rewrite Hsame. now destruct Hc.
Qed.

Lemma sessions_list_shows_active_sessions_witness :
  exists sessions,
    o2SessionsList sampleEnv twoSessionsDisk 1000 None None = ListOk 1 sessions
    /\ Forall (fun s => l_isActive s = true) sessions.
Proof.
  exists [listed 1000 activeSession].
  assert (o2SessionsList sampleEnv twoSessionsDisk 1000 None None
          = ListOk 1 [listed 1000 activeSession]) as H by (vm_compute; reflexivity).
  split; [exact H|].
  apply (sessions_list_shows_active_sessions _ _ _ _ _ _ _ H). reflexivity.
Defined.

Lemma assoc_of_unique_key {A : Type} (key : string) (a : A) (l : list (string * A)) :
  List.NoDup (map fst l) -> In (key, a) l -> assoc key l = Some a.
Proof.
  induction l as [|[k x] l IH]; cbn [map fst assoc]; intros Hnd Hin; [destruct Hin|].
  apply NoDup_cons_iff in Hnd as [Hk Hnd].
  destruct Hin as [[= -> ->]|Hin].
  - now rewrite String.eqb_refl.
  - destruct (String.eqb_spec key k) as [->|_]; [|now apply IH].
    exfalso. apply Hk. apply in_map_iff. now exists (k, a).
Qed.

(** X25. In a store that keeps every session under its own id, the session
    [findValidSessionForTradeAccount] finds can be fetched by its id:
    [o2SessionGet] at the same time and path answers with that session, for
    the same account, flagged active, and [getSessionPrivateKey] gives its
    key. *)
Theorem found_session_can_be_fetched
    (env : SessionEnv) (disk : Disk) (now : Z) (account : string)
    (path : option string) (found : StoredSession) :
  let stored := readStore disk (resolveSessionStorePath env path) in
  keyedById stored -> List.NoDup (map fst stored) ->
  findValidSessionForTradeAccount env disk now account path = Some found ->
  o2SessionGet env disk now (sessionId found) path
  = GetOk (resolveSessionStorePath env path)
      {| info_sessionId := Some (sessionId found);
         info_sessionAddress := sessionAddress found;
         info_tradeAccountId := Some account;
         info_createdAt := Some (createdAt found);
         info_expiryMs := expiryMs found;
         info_isActive := true |}
  /\ getSessionPrivateKey env disk (sessionId found) path
     = Ret (Some (sessionPrivateKey found)).
Proof.
  intros stored Hkeyed Hnd Hfound. unfold findValidSessionForTradeAccount in Hfound.
  fold stored in Hfound. apply find_some in Hfound as [Hin Hvalid].
  apply andb_true_iff in Hvalid as [Hacc Hexp].
  apply in_map_iff in Hin as ([k s] & Hs & Hin). cbn [snd] in Hs. subst s.
  assert (k = sessionId found) as ->.
  { unfold keyedById in Hkeyed. rewrite List.Forall_forall in Hkeyed.
    symmetry. exact (Hkeyed _ Hin). }
  pose proof (assoc_of_unique_key _ _ _ Hnd Hin) as Hassoc.
  unfold o2SessionGet, getSessionPrivateKey, getSession, sessionsGet. fold stored.
  rewrite Hassoc. cbn. split; [|reflexivity]. f_equal.
  unfold isFor in Hacc. destruct (tradeAccountId found) as [t|]; [|discriminate].
  apply String.eqb_eq in Hacc as ->.
  unfold expiresAfter in Hexp. unfold isActiveAt.
  destruct (expiryMs found) as [e|]; [|discriminate].
  apply andb_true_iff in Hexp as [Hz Hlt].
  destruct (e =? 0); [discriminate|]. now rewrite Hlt.
Qed.

Lemma found_session_can_be_fetched_witness :
  o2SessionGet sampleEnv twoSessionsDisk 1000 "new" None
  = GetOk "/home/user/.o2-mcp/sessions.json"
      {| info_sessionId := Some "new"; info_sessionAddress := None;
         info_tradeAccountId := Some "0xaccount";
         info_createdAt := Some "2024-06-01T00:00:00.000Z";
         info_expiryMs := Some 2000; info_isActive := true |}.
Proof.
  assert (readStore twoSessionsDisk (resolveSessionStorePath sampleEnv None)
          = [("old", expiredSession); ("new", activeSession)]) as Hstore
    by (vm_compute; reflexivity).
  refine (proj1 (found_session_can_be_fetched sampleEnv twoSessionsDisk 1000 "0xaccount"
                   None activeSession _ _ _)).
  - rewrite Hstore. repeat constructor.
  - rewrite Hstore. cbn [map fst]. repeat constructor; cbn [In]; intuition discriminate.
  - vm_compute. reflexivity.
Defined.

(** ** Placing an order *)

(** X26. [o2PlaceOrder] calls the exchange at most once, and exactly when the
    sessions of the store have a member under the session id and exactly one
    of the pairs (rawPrice, rawQuantity), (price, quantity) is complete;
    otherwise it throws without a call. The expiry of the session is not
    looked at. A raw pair goes to the REST function and a scaled pair to the
    SDK function, with the amounts as given. The key handed over is the
    stored key of the session, and no key at all when the id names no session
    but a member every object inherits, such as the string constructor. *)
Theorem order_is_placed_only_with_a_session_and_one_pair
    (env : SessionEnv) (disk : Disk) (exchange : Exchange) (params : PlaceOrderParams) :
  let result := o2PlaceOrder env disk exchange params in
  let path := resolveSessionStorePath env (o_sessionStorePath params) in
  let found := sessionsGet (readStore disk path) (o_sessionId params) in
  match found with
  | Some ref =>
      if onePairGiven params
      then exists call,
             snd result = [call]
             /\ keyOf call = match ref with
                             | OwnSession session => Some (sessionPrivateKey session)
                             | InheritedMember _ => None
                             end
             /\ match call with
                | ViaRestApi _ p q => o_rawPrice params = Some p /\ o_rawQuantity params = Some q
                | ViaSdk _ p q =>
                    o_price params = Some p /\ o_quantity params = Some q
                end
      else snd result = [] /\ exists msg, fst result = Throw msg
  | None =>
      result = (Throw ("Session not found for session_id: " ++ o_sessionId params), [])
  end.
Proof.
  cbv zeta. unfold o2PlaceOrder, getSessionPrivateKey, getSession, onePairGiven, bothGiven.
  destruct (sessionsGet _ _) as [[session|name]|]; cbn [bindExn fst];
    [| |reflexivity];
    destruct (o_rawPrice params), (o_rawQuantity params), (o_price params),
      (o_quantity params); cbn; eauto 8.
Qed.

(** ** The key of a saved session, in the placing functions *)

Lemma resolve_given_key (fallback : option string) (key : string) :
  trim key <> "" ->
  match trimmedOverride (Some key) with
  | Some directOverride => Some directOverride
  | None => trimmedOverride fallback
  end = Some (trim key).
Proof.
  intros Hkey. unfold trimmedOverride.
  now destruct (String.eqb_spec (trim key) "").
Qed.

Ltac run_cases :=
  unfold andThen, call, pure, reading, writing, done, throw;
  repeat match goal with
         | |- context [match ?x with _ => _ end] =>
             lazymatch x with
             | context [match _ with _ => _ end] => fail
             | _ => destruct x eqn:?
             end
         end.

(** What the SDK path makes of a key: the trader account is created with the
    key, trimmed, and nothing is executed without that account. *)
Lemma placeOrderWithSdk_key (lib : Libraries) (env : OrderEnv) (order : Submission)
    (price quantity : Amount) (key : string) (disk : Disk) :
  sub_sessionPrivateKey order = Some key -> trim key <> "" ->
  let calls := snd (O2Sdk.placeOrderWithSdk lib env order price quantity disk []) in
  Forall (eq (trim key)) (accountKeys calls)
  /\ (submitted calls = true -> accountKeys calls = [trim key]).
Proof.
  intros Hgiven Hkey. unfold O2Sdk.placeOrderWithSdk, O2Sdk.resolveSessionPrivateKey.
  rewrite Hgiven, (resolve_given_key _ _ Hkey). cbv zeta.
  run_cases; cbn; split; try discriminate; repeat constructor.
Qed.

(** What the REST path makes of a key: the owner wallet and the trade account
    manager get the key, trimmed; the signer is made from the key of the
    session found in the default store, or anew, and then its session is
    saved. *)
Lemma placeOrderWithRestApi_key (lib : Libraries) (env : OrderEnv) (order : Submission)
    (rawPrice rawQuantity price quantity : option Amount) (key : string) (disk : Disk) :
  sub_sessionPrivateKey order = Some key -> trim key <> "" ->
  let found :=
    findValidSessionForTradeAccount (sessionEnv env) disk (nowFind env)
      (sub_tradeAccountId order) (Some (resolveSessionStorePath (sessionEnv env) None)) in
  let run :=
    O2Sdk.placeOrderWithRestApi lib env order rawPrice rawQuantity price quantity disk [] in
  Forall (eq (trim key)) (ownerKeys (snd run))
  /\ Forall (eq (sessionPrivateKey <$> found)) (signerKeys (snd run))
  /\ (submitted (snd run) = true ->
      ownerKeys (snd run) = [trim key; trim key]
      /\ signerKeys (snd run) = [sessionPrivateKey <$> found]
      /\ match found with
         | Some _ => snd (fst run) = disk
         | None =>
             exists signer,
               newSigner lib None = Ret signer
               /\ snd (fst run)
                  = snd (saveSession (sessionEnv env) disk (signerSession env order signer))
         end).
Proof.
  intros Hgiven Hkey. unfold O2Sdk.placeOrderWithRestApi, O2Sdk.resolveOwnerPrivateKey.
  rewrite Hgiven, (resolve_given_key _ _ Hkey). cbv zeta.
  unfold signerSession, O2Sdk.DEFAULT_SESSION_EXPIRY_MS.
  run_cases; simplify_eq; cbn; repeat split; try discriminate; repeat constructor;
    eexists; (split; [reflexivity|]);
    match goal with
    | H : saveSession _ _ _ = (_, ?d) |- ?d = _ => exact (eq_sym (f_equal snd H))
    end.
Qed.

(** X27. What becomes of the key saved with a session, a key that is not
    blank, when an order is placed with the session's id and one complete
    pair of amounts. [o2PlaceOrder] calls one placing function and hands it
    the saved key as [sessionPrivateKey]; what the tool answers is what that
    function answers. With scaled values, [placeOrderWithSdk] creates the
    trader account with the key, trimmed, as its session key, and executes
    nothing without it. With raw values, [placeOrderWithRestApi] makes the
    owner wallet and the trade account manager with the key, trimmed, as the
    owner's private key; the signer is made from the key of the session
    [findValidSessionForTradeAccount] finds for the trade account in the
    default store, or, when it finds none, with a new key, and then the new
    signer's session is saved in the default store, to expire 48 hours
    later. *)
Theorem saved_key_in_order_placement
    (lib : Libraries) (env : OrderEnv) (disk : Disk) (saved : SaveParams)
    (params : PlaceOrderParams) (id storePath : string) (disk' : Disk) :
  randomUUID (sessionEnv env) <> "__proto__" ->
  saveSession (sessionEnv env) disk saved = (Ret (id, storePath), disk') ->
  o_sessionId params = id ->
  o_sessionStorePath params = p_storePath saved ->
  onePairGiven params = true ->
  trim (p_sessionPrivateKey saved) <> "" ->
  let key := trim (p_sessionPrivateKey saved) in
  let placed := o2PlaceOrder (sessionEnv env) disk' (sdkExchange lib env disk') params in
  exists call,
    snd placed = [call]
    /\ keyOf call = Some (p_sessionPrivateKey saved)
    /\ match call with
       | ViaSdk order price quantity =>
           let run := O2Sdk.placeOrderWithSdk lib env order price quantity disk' [] in
           fst placed = (result <-! fst (fst run); Ret (orderAnswer result))
           /\ Forall (eq key) (accountKeys (snd run))
           /\ (submitted (snd run) = true -> accountKeys (snd run) = [key])
       | ViaRestApi order rawPrice rawQuantity =>
           let run :=
             O2Sdk.placeOrderWithRestApi lib env order (Some rawPrice) (Some rawQuantity)
               None None disk' [] in
           let found :=
             findValidSessionForTradeAccount (sessionEnv env) disk' (nowFind env)
               (sub_tradeAccountId order)
               (Some (resolveSessionStorePath (sessionEnv env) None)) in
           fst placed = (result <-! fst (fst run); Ret (orderAnswer result))
           /\ Forall (eq key) (ownerKeys (snd run))
           /\ Forall (eq (sessionPrivateKey <$> found)) (signerKeys (snd run))
           /\ (submitted (snd run) = true ->
               ownerKeys (snd run) = [key; key]
               /\ signerKeys (snd run) = [sessionPrivateKey <$> found]
               /\ match found with
                  | Some _ => snd (fst run) = disk'
                  | None =>
                      exists signer,
                        newSigner lib None = Ret signer
                        /\ snd (fst run)
                           = snd (saveSession (sessionEnv env) disk'
                                    (signerSession env order signer))
                  end)
       end.
Proof.
  intros Hid Hsave Hparam Hpath Hone Hkey key placed.
  pose proof (saveSession_writes (sessionEnv env) disk saved) as Hw. cbv zeta in Hw.
  destruct (writeError disk _) as [msg|] eqn:Herr.
  { rewrite Hw in Hsave. discriminate. }
  destruct Hw as (disk2 & Hsave2 & Hwrite). rewrite Hsave2 in Hsave.
  injection Hsave as <- <- <-.
  subst placed. unfold o2PlaceOrder, getSessionPrivateKey, getSession, sessionsGet.
  rewrite Hpath, Hparam.
  rewrite (readStore_after_write _ _ _ _ _ Hwrite), String.eqb_refl.
  rewrite (assoc_sessionsSet _ _ _ _ Hid), String.eqb_refl.
  cbn [bindExn fst]. revert Hone. unfold onePairGiven, bothGiven.
  destruct (o_rawPrice params) as [rawPrice|], (o_rawQuantity params) as [rawQuantity|],
    (o_price params) as [price|], (o_quantity params) as [quantity|];
    cbn; try discriminate; intros _; eexists; (split; [reflexivity|]);
    (split; [reflexivity|]); cbv zeta; (split; [reflexivity|]);
    first [ apply placeOrderWithRestApi_key; [reflexivity | exact Hkey]
          | apply placeOrderWithSdk_key; [reflexivity | exact Hkey] ].
Qed.

Lemma saved_key_in_order_placement_witness :
  let disk' := snd (saveSession sampleEnv emptyDisk sampleParams) in
  let order :=
    {| sub_tradeAccountId := "0xaccount"; sub_pair := ("FUEL", "USDC");
       sub_sessionPrivateKey := Some "0xkey"; sub_side := Buy; sub_orderType := None;
       sub_apiBaseUrl := None; sub_providerUrl := None |} in
  let viaRest :=
    O2Sdk.placeOrderWithRestApi acceptingLibraries (orderEnv 3000) order
      (Some (AmountString "2")) (Some (AmountString "10")) None None disk' [] in
  let viaSdk :=
    O2Sdk.placeOrderWithSdk acceptingLibraries (orderEnv 3000) order
      (AmountString "2000000") (AmountString "5000000000") disk' [] in
  (ownerKeys (snd viaRest) = ["0xkey"; "0xkey"] /\ signerKeys (snd viaRest) = [None])
  /\ accountKeys (snd viaSdk) = ["0xkey"].
Proof.
  cbv zeta.
  pose (order := {| sub_tradeAccountId := "0xaccount"; sub_pair := ("FUEL", "USDC");
                    sub_sessionPrivateKey := Some "0xkey"; sub_side := Buy;
                    sub_orderType := None; sub_apiBaseUrl := None;
                    sub_providerUrl := None |}).
  split.
  - destruct (saved_key_in_order_placement acceptingLibraries (orderEnv 3000) emptyDisk
                sampleParams (rawOrder (randomUUID sampleEnv)) (randomUUID sampleEnv)
                "/home/user/.o2-mcp/sessions.json"
                (snd (saveSession sampleEnv emptyDisk sampleParams))
                ltac:(discriminate) ltac:(vm_compute; reflexivity) eq_refl eq_refl eq_refl
                ltac:(vm_compute; discriminate))
      as (call & Hcall & _ & Hfacts).
    assert (call = ViaRestApi order (AmountString "2") (AmountString "10")) as ->.
    { assert ([call] = [ViaRestApi order (AmountString "2") (AmountString "10")]) as E
        by (rewrite <- Hcall; vm_compute; reflexivity).
      now injection E. }
    cbv zeta in Hfacts. destruct Hfacts as (_ & _ & _ & Hsubmitted).
    destruct (Hsubmitted ltac:(vm_compute; reflexivity)) as (Howner & Hsigner & _).
    split.
    + eapply eq_trans; [exact Howner | vm_compute; reflexivity].
    + eapply eq_trans; [exact Hsigner | vm_compute; reflexivity].
  - destruct (saved_key_in_order_placement acceptingLibraries (orderEnv 3000) emptyDisk
                sampleParams (scaledOrder (randomUUID sampleEnv)) (randomUUID sampleEnv)
                "/home/user/.o2-mcp/sessions.json"
                (snd (saveSession sampleEnv emptyDisk sampleParams))
                ltac:(discriminate) ltac:(vm_compute; reflexivity) eq_refl eq_refl eq_refl
                ltac:(vm_compute; discriminate))
      as (call & Hcall & _ & Hfacts).
    assert (call = ViaSdk order (AmountString "2000000") (AmountString "5000000000")) as ->.
    { assert ([call] = [ViaSdk order (AmountString "2000000") (AmountString "5000000000")])
        as E by (rewrite <- Hcall; vm_compute; reflexivity).
      now injection E. }
    cbv zeta in Hfacts. destruct Hfacts as (_ & _ & Hsubmitted).
    eapply eq_trans; [exact (Hsubmitted ltac:(vm_compute; reflexivity))|].
    vm_compute. reflexivity.
Defined.

(** ** Paths and URLs *)

Lemma trimEndAux_idempotent (s : string) :
  trimEndAux (fst (trimEndAux s)) = trimEndAux s.
Proof.
  induction s as [|c r IH]; [reflexivity|].
  cbn [trimEndAux]. destruct (trimEndAux r) as [r' blank] eqn:Hr. cbn [fst] in IH.
  destruct (blank && JsString.isWhiteSpace c) eqn:Hb; cbn [fst]; [reflexivity|].
  cbn [trimEndAux]. now rewrite IH, Hb.
Qed.

Lemma trimStart_head (s : string) :
  JsString.trimStart s = ""
  \/ exists c r, JsString.trimStart s = String c r /\ JsString.isWhiteSpace c = false.
Proof.
  induction s as [|c r IH]; [now left|].
  cbn [JsString.trimStart]. destruct (JsString.isWhiteSpace c) eqn:Hc; [exact IH|].
  right. now exists c, r.
Qed.

Lemma trim_idempotent (s : string) : trim (trim s) = trim s.
Proof.
  unfold trim. destruct (trimStart_head s) as [->|(c & r & -> & Hc)]; [reflexivity|].
  cbn [trimEndAux]. destruct (trimEndAux r) as [r' blank] eqn:Hr.
  rewrite Hc, andb_false_r. cbn [fst JsString.trimStart]. rewrite Hc.
  cbn [trimEndAux].
  pose proof (trimEndAux_idempotent r) as Hi. rewrite Hr in Hi. cbn [fst] in Hi.
  now rewrite Hi, Hc, andb_false_r.
Qed.

Lemma trimmedOverride_trimmed (override : option string) (p : string) :
  trimmedOverride override = Some p -> trimmedOverride (Some p) = Some p.
Proof.
  unfold trimmedOverride. destruct override as [o|]; [|discriminate].
  destruct (String.eqb (trim o) "") eqn:He; [discriminate|].
  intros [= <-]. now rewrite trim_idempotent, He.
Qed.

(** X28. The store path an answer reports can be passed back: when the default
    path is not empty and has no blank at either end, resolving the resolved
    path gives the same path, so [getSession] and [o2SessionGet] with the
    reported [storePath] as [sessionStorePath] answer as before. *)
Theorem reported_store_path_can_be_passed_back
    (env : SessionEnv) (disk : Disk) (now : Z) (id : string) (override : option string) :
  let reported := resolveSessionStorePath env override in
  trim (defaultSessionStorePath env) = defaultSessionStorePath env ->
  defaultSessionStorePath env <> "" ->
  resolveSessionStorePath env (Some reported) = reported
  /\ getSession env disk id (Some reported) = getSession env disk id override
  /\ o2SessionGet env disk now id (Some reported) = o2SessionGet env disk now id override.
Proof.
  intros reported Htrim Hne.
  assert (resolveSessionStorePath env (Some reported) = reported) as Hsame.
  { assert (trimmedOverride (Some reported) = Some reported) as Hr.
    { subst reported. unfold resolveSessionStorePath.
      destruct (trimmedOverride override) as [o|] eqn:Ho;
        [exact (trimmedOverride_trimmed _ _ Ho)|].
      destruct (trimmedOverride (envSessionStorePath env)) as [e|] eqn:He;
        [exact (trimmedOverride_trimmed _ _ He)|].
      unfold trimmedOverride. rewrite Htrim.
      now destruct (String.eqb_spec (defaultSessionStorePath env) ""). }
    unfold resolveSessionStorePath at 1. now rewrite Hr. }
  split; [exact Hsame|].
  unfold o2SessionGet, getSession. rewrite Hsame. fold reported. now split.
Qed.

Lemma reported_store_path_can_be_passed_back_witness :
  resolveSessionStorePath sampleEnv (Some (resolveSessionStorePath sampleEnv (Some "  /tmp/s.json ")))
  = "/tmp/s.json".
Proof.
  eapply eq_trans.
  - apply (reported_store_path_can_be_passed_back sampleEnv emptyDisk 0 "id"
             (Some "  /tmp/s.json ")); [vm_compute; reflexivity | discriminate].
  - vm_compute. reflexivity.
Defined.

Lemma normalizeBaseUrl_empty (s : string) :
  normalizeBaseUrl s = "" <-> onlySlashes s = true.
Proof.
  induction s as [|c r IH]; cbn [normalizeBaseUrl onlySlashes]; [tauto|].
  destruct (Ascii.eqb c "/"); cbn [andb].
  - destruct (String.eqb_spec (normalizeBaseUrl r) "") as [He|Hne].
    + split; [intros _; now apply IH | reflexivity].
    + split; [discriminate|]. intros H. apply IH in H. contradiction.
  - split; discriminate.
Qed.

Lemma normalizeBaseUrl_no_slash_at_end (s : string) :
  endsWithSlash (normalizeBaseUrl s) = false.
Proof.
  induction s as [|c r IH]; [reflexivity|].
  cbn [normalizeBaseUrl].
  destruct (Ascii.eqb c "/" && String.eqb (normalizeBaseUrl r) "") eqn:Hc; [reflexivity|].
  cbn [endsWithSlash]. destruct (normalizeBaseUrl r) as [|c' r'] eqn:Hr; [|exact IH].
  cbn in Hc. now rewrite andb_true_r in Hc.
Qed.

Lemma normalizeBaseUrl_prefix (s : string) :
  exists slashes, onlySlashes slashes = true /\ s = normalizeBaseUrl s ++ slashes.
Proof.
  induction s as [|c r (slashes & Hs & Hr)]; [now exists ""|].
  cbn [normalizeBaseUrl].
  destruct (Ascii.eqb_spec c "/") as [->|Hc]; cbn [andb].
  - destruct (String.eqb_spec (normalizeBaseUrl r) "") as [He|Hne].
    + exists (String "/" r). split; [|reflexivity].
      cbn [onlySlashes]. cbn. now apply normalizeBaseUrl_empty.
    + exists slashes. split; [exact Hs|].
      change (String "/" r = String "/" (normalizeBaseUrl r ++ slashes)). now rewrite <- Hr.
  - exists slashes. split; [exact Hs|].
    change (String c r = String c (normalizeBaseUrl r ++ slashes)). now rewrite <- Hr.
Qed.

(** X29. The base URL of a request never ends with a slash and the path always
    begins with one: a path given without a leading slash is joined to the
    base by exactly one. An override
    that is not blank is used with its final slashes removed and nothing else
    changed, even when nothing is left of it: an override made of slashes
    gives the empty base URL and not the configured one. *)
Theorem request_url_joins_at_one_slash
    (env : ApiEnv) (override : option string) (path : string) :
  endsWithSlash (resolveApiBaseUrl env override) = false
  /\ JsString.startsWith (normalizePath path) "/" = true
  /\ (JsString.startsWith path "/" = false ->
      requestUrl env override path = resolveApiBaseUrl env override ++ "/" ++ path)
  /\ (forall o, override = Some o -> trim o <> "" ->
      (exists slashes, onlySlashes slashes = true
                       /\ trim o = resolveApiBaseUrl env override ++ slashes)
      /\ (resolveApiBaseUrl env override = "" <-> onlySlashes (trim o) = true)).
Proof.
  split; [|split; [|split]].
  - unfold resolveApiBaseUrl.
    destruct (trimmedOverride override); [apply normalizeBaseUrl_no_slash_at_end|].
    destruct (trimmedOverride (envApiBaseUrl env)); [apply normalizeBaseUrl_no_slash_at_end|].
    destruct (envNetwork env) as [network|]; [|reflexivity].
    now destruct (String.eqb _ "testnet").
  - unfold normalizePath. destruct (JsString.startsWith path "/") eqn:Hp; [exact Hp|].
    change ("/" ++ path) with (String "/" path). now destruct path.
  - intros Hp. unfold requestUrl, normalizePath. now rewrite Hp.
  - intros o -> Ho. unfold resolveApiBaseUrl, trimmedOverride.
    destruct (String.eqb_spec (trim o) ""); [contradiction|].
    split; [apply normalizeBaseUrl_prefix | apply normalizeBaseUrl_empty].
Qed.

Lemma request_url_joins_at_one_slash_witness :
  requestUrl mainnet (Some "https://host/api// ") "v1/bars" = "https://host/api/v1/bars".
Proof.
  destruct (request_url_joins_at_one_slash mainnet (Some "https://host/api// ") "v1/bars")
    as (_ & _ & H & _).
  eapply eq_trans; [apply H; reflexivity | vm_compute; reflexivity].
Defined.
